(** * esigner-codesign: input-to-command translation and execution control

  A shallow embedding of the TypeScript sources (util.ts, constants.ts,
  config.ts, setup-codesigner.ts, setup-jdk-base-installer.ts, main.ts)
  together with the properties the specification states about them.

  Strings are Rocq strings (sequences of 8-bit code units).  Effects of
  the action (filesystem, process environment, log sink, spawned
  processes, raised exceptions) are threaded explicitly through a small
  state-and-exception monad. *)

From Stdlib Require Import ZArith Ascii Lia Bool.
From stdpp Require Import gmap strings list pretty.

Local Open Scope Z_scope.

(* ===================================================================== *)
(** ** JavaScript string primitives used by the sources *)
(* ===================================================================== *)

Module Js.

Definition str1 (c : ascii) : string := String c "".

(** [s.startsWith(p)] *)
Fixpoint startsWith (s p : string) {struct p} : bool :=
  match p with
  | EmptyString => true
  | String a p' =>
      match s with
      | EmptyString => false
      | String b s' => Ascii.eqb a b && startsWith s' p'
      end
  end.

(** [s.includes(p)] *)
Fixpoint includes (s p : string) : bool :=
  startsWith s p ||
  match s with
  | EmptyString => false
  | String _ s' => includes s' p
  end.

(** [s.endsWith(p)] *)
Fixpoint endsWith (s p : string) : bool :=
  String.eqb s p ||
  match s with
  | EmptyString => false
  | String _ s' => endsWith s' p
  end.

(** [s.slice(n)] for [0 <= n] *)
Fixpoint sliceFrom (n : nat) (s : string) : string :=
  match n, s with
  | O, _ => s
  | S n', String _ s' => sliceFrom n' s'
  | S _, EmptyString => EmptyString
  end.

(** The replacement text of [String.prototype.replace] for a string
    pattern (GetSubstitution with no capture groups): [$$] is a dollar
    sign, [$&] the matched text, [$`] the text before the match, [$']
    the text after it; every other character is literal. *)
Fixpoint getSubstitution (matched before after rep : string) : string :=
  match rep with
  | EmptyString => EmptyString
  | String c r =>
      if Ascii.eqb c "$" then
        match r with
        | String d r' =>
            if Ascii.eqb d "$" then "$" +:+ getSubstitution matched before after r'
            else if Ascii.eqb d "&" then matched +:+ getSubstitution matched before after r'
            else if Ascii.eqb d "`" then before +:+ getSubstitution matched before after r'
            else if Ascii.eqb d "'" then after +:+ getSubstitution matched before after r'
            else String c (getSubstitution matched before after r)
        | EmptyString => String c EmptyString
        end
      else String c (getSubstitution matched before after r)
  end.

(** [s.replace(pat, rep)] with a string pattern: only the first
    occurrence is replaced.  [before] accumulates the text already
    scanned. *)
Fixpoint replaceFrom (before s pat rep : string) : string :=
  if startsWith s pat then
    let after := sliceFrom (String.length pat) s in
    before +:+ getSubstitution pat before after rep +:+ after
  else
    match s with
    | EmptyString => before
    | String c s' => replaceFrom (before +:+ str1 c) s' pat rep
    end.

Definition replace (s pat rep : string) : string := replaceFrom "" s pat rep.

(** [s.replace(/pat/g, rep)] for a regular expression that matches the
    literal text [pat] (non-empty): every occurrence, scanning left to
    right without overlap.  [skip] counts the characters of the current
    match still to be dropped. *)
Fixpoint replaceAllFrom (skip : nat) (before s pat rep : string) : string :=
  match skip with
  | S k =>
      match s with
      | EmptyString => EmptyString
      | String c s' => replaceAllFrom k (before +:+ str1 c) s' pat rep
      end
  | O =>
      match s with
      | EmptyString => EmptyString
      | String c s' =>
          if startsWith s pat then
            getSubstitution pat before (sliceFrom (String.length pat) s) rep
              +:+ replaceAllFrom (Nat.pred (String.length pat)) (before +:+ str1 c) s' pat rep
          else String c (replaceAllFrom O (before +:+ str1 c) s' pat rep)
      end
  end.

Definition replaceAll (s pat rep : string) : string := replaceAllFrom O "" s pat rep.

(** [s.replace(/suffix$/, '')]: the anchored pattern can only match at
    the very end of the input. *)
Fixpoint stripSuffix (s suffix : string) : string :=
  if String.eqb s suffix then EmptyString
  else
    match s with
    | EmptyString => EmptyString
    | String c s' => String c (stripSuffix s' suffix)
    end.

Definition upperChar (c : ascii) : ascii :=
  let n := nat_of_ascii c in
  if (Nat.leb 97 n && Nat.leb n 122)%bool then ascii_of_nat (n - 32) else c.

(** [s.toUpperCase()] on the ASCII letters; other code units are kept. *)
Fixpoint toUpperCase (s : string) : string :=
  match s with
  | EmptyString => EmptyString
  | String c s' => String (upperChar c) (toUpperCase s')
  end.

Definition isSpace (c : ascii) : bool :=
  let n := nat_of_ascii c in
  (Nat.eqb n 32 || (Nat.leb 9 n && Nat.leb n 13))%bool.

Fixpoint trimStart (s : string) : string :=
  match s with
  | String c s' => if isSpace c then trimStart s' else s
  | EmptyString => EmptyString
  end.

(** Drops trailing white space; the result of the tail decides whether
    a space at the head survives. *)
Fixpoint trimEnd (s : string) : string :=
  match s with
  | EmptyString => EmptyString
  | String c s' =>
      match trimEnd s' with
      | EmptyString => if isSpace c then EmptyString else str1 c
      | t => String c t
      end
  end.

(** [s.trim()] *)
Definition trim (s : string) : string := trimEnd (trimStart s).

(** Number of occurrences of a character. *)
Fixpoint count (c : ascii) (s : string) : nat :=
  match s with
  | EmptyString => O
  | String d s' => ((if Ascii.eqb c d then 1 else 0) + count c s')%nat
  end.

(** [a || b] on strings: the empty string is falsy. *)
Definition orElse (a b : string) : string :=
  if String.eqb a "" then b else a.

End Js.

(* ===================================================================== *)
(** ** The semantic-version library (npm package semver)

  The sources call [semver.valid], [semver.parse], [semver.compareBuild]
  and [semver.satisfies].  The package is not part of the repository; the
  definitions below follow its strict (non-loose) mode: the version
  grammar, the precedence rules of its [compareIdentifiers],
  [compareMain], [comparePre] and [compareBuild], and range satisfaction
  for the range forms that consist of one partial version.  Numeric
  identifiers are compared as exact naturals (the package compares
  them as double-precision numbers, which coincides up to 2^53). *)
(* ===================================================================== *)

Module Semver.

Definition MAX_SAFE_INTEGER : N := 9007199254740991%N.
Definition MAX_LENGTH : nat := 256%nat.

Record SemVer := mkSemVer {
  major : N;
  minor : N;
  patch : N;
  prerelease : list string;
  build : list string
}.

Definition isDigit (c : ascii) : bool :=
  let n := nat_of_ascii c in (Nat.leb 48 n && Nat.leb n 57)%bool.

Definition isLetter (c : ascii) : bool :=
  let n := nat_of_ascii c in
  ((Nat.leb 65 n && Nat.leb n 90) || (Nat.leb 97 n && Nat.leb n 122))%bool.

(** [[0-9A-Za-z-]] *)
Definition isIdentChar (c : ascii) : bool :=
  (isDigit c || isLetter c || Ascii.eqb c "-")%bool.

Fixpoint allChars (p : ascii -> bool) (s : string) : bool :=
  match s with
  | EmptyString => true
  | String c s' => p c && allChars p s'
  end.

Definition nonEmpty (s : string) : bool := negb (String.eqb s "").

(** [/^[0-9]+$/.test(s)] *)
Definition isNumeric (s : string) : bool := nonEmpty s && allChars isDigit s.

Fixpoint digitsValue (acc : N) (s : string) : N :=
  match s with
  | EmptyString => acc
  | String c s' => digitsValue (acc * 10 + (N.of_nat (nat_of_ascii c) - 48))%N s'
  end.

(** [+s] for a string of decimal digits *)
Definition toNumber (s : string) : N := digitsValue 0%N s.

(** NUMERICIDENTIFIER: [0|[1-9]\d*] *)
Definition numericIdentifier (s : string) : option N :=
  match s with
  | String c rest =>
      if isNumeric s && (negb (Ascii.eqb c "0") || String.eqb rest "")
      then Some (toNumber s) else None
  | EmptyString => None
  end.

(** PRERELEASEIDENTIFIER: a numeric identifier, or identifier characters
    with at least one that is not a digit. *)
Definition prereleaseIdentifier (s : string) : bool :=
  match numericIdentifier s with
  | Some _ => true
  | None => nonEmpty s && allChars isIdentChar s && negb (allChars isDigit s)
  end.

(** BUILDIDENTIFIER: [[0-9A-Za-z-]+] *)
Definition buildIdentifier (s : string) : bool :=
  nonEmpty s && allChars isIdentChar s.

(** [s.split(sep)] for a one-character separator *)
Fixpoint splitOn (sep : ascii) (s : string) : list string :=
  match s with
  | EmptyString => [EmptyString]
  | String c s' =>
      if Ascii.eqb c sep then EmptyString :: splitOn sep s'
      else
        match splitOn sep s' with
        | piece :: rest => String c piece :: rest
        | [] => [Js.str1 c]
        end
  end.

(** The text before the first [sep], and the text after it when there
    is one. *)
Fixpoint splitFirst (sep : ascii) (s : string) : string * option string :=
  match s with
  | EmptyString => (EmptyString, None)
  | String c s' =>
      if Ascii.eqb c sep then (EmptyString, Some s')
      else let '(a, b) := splitFirst sep s' in (String c a, b)
  end.

Definition stripLeadingV (s : string) : string :=
  match s with
  | String c r => if Ascii.eqb c "v" then r else s
  | EmptyString => s
  end.

Definition parseIdentifiers (valid : string -> bool) (part : option string)
  : option (list string) :=
  match part with
  | None => Some []
  | Some p =>
      let ids := splitOn "." p in
      if forallb valid ids then Some ids else None
  end.

Definition safe (n : N) : bool := (n <=? MAX_SAFE_INTEGER)%N.

(** [semver.parse(version)]: [None] is [null]. *)
Definition parse (version : string) : option SemVer :=
  if Nat.ltb MAX_LENGTH (String.length version) then None
  else
    let v := stripLeadingV (Js.trim version) in
    let '(corePre, buildPart) := splitFirst "+" v in
    let '(core, prePart) := splitFirst "-" corePre in
    match splitOn "." core with
    | [a; b; c] =>
        match numericIdentifier a, numericIdentifier b, numericIdentifier c with
        | Some ma, Some mi, Some pa =>
            if safe ma && safe mi && safe pa then
              match parseIdentifiers prereleaseIdentifier prePart,
                    parseIdentifiers buildIdentifier buildPart with
              | Some pre, Some bld => Some (mkSemVer ma mi pa pre bld)
              | _, _ => None
              end
            else None
        | _, _, _ => None
        end
    | _ => None
    end.

(** [semver.valid(version)]: the version text without build metadata,
    or [None] for [null]. *)
Definition valid (version : string) : option string :=
  match parse version with
  | Some _ => Some (fst (splitFirst "+" (stripLeadingV (Js.trim version))))
  | None => None
  end.

(** [version.replace(/^[=v]+/, '')] *)
Fixpoint stripEqualsAndV (s : string) : string :=
  match s with
  | String c r => if Ascii.eqb c "=" || Ascii.eqb c "v" then stripEqualsAndV r else s
  | EmptyString => s
  end.

(** [semver.clean(version)] *)
Definition clean (version : string) : option string :=
  valid (stripEqualsAndV (Js.trim version)).

Definition compareN (a b : N) : Z :=
  match N.compare a b with Eq => 0 | Lt => -1 | Gt => 1 end.

(** internal/identifiers.js, [compareIdentifiers] *)
Definition compareIdentifiers (a b : string) : Z :=
  let anum := isNumeric a in
  let bnum := isNumeric b in
  if anum && bnum then compareN (toNumber a) (toNumber b)
  else if String.eqb a b then 0
  else if anum && negb bnum then -1
  else if bnum && negb anum then 1
  else if String.ltb a b then -1 else 1.

(** The identifier loop shared by [comparePre] and [compareBuild]:
    identifiers that are the same text are skipped, the first pair that
    differs as text decides through [compareIdentifiers] (also when that
    answer is 0, as for the numeric identifiers [01] and [1]), and a list
    that runs out first is the smaller one. *)
Fixpoint compareIdentifierLists (xs ys : list string) : Z :=
  match xs, ys with
  | [], [] => 0
  | _ :: _, [] => 1
  | [], _ :: _ => -1
  | a :: xs', b :: ys' =>
      if String.eqb a b then compareIdentifierLists xs' ys'
      else compareIdentifiers a b
  end.

(** [a || b] on numbers: zero is falsy. *)
Definition orZ (a b : Z) : Z := if a =? 0 then b else a.

Definition compareMain (x y : SemVer) : Z :=
  orZ (compareN (major x) (major y))
    (orZ (compareN (minor x) (minor y)) (compareN (patch x) (patch y))).

Definition comparePre (x y : SemVer) : Z :=
  match prerelease x, prerelease y with
  | _ :: _, [] => -1
  | [], _ :: _ => 1
  | [], [] => 0
  | xs, ys => compareIdentifierLists xs ys
  end.

(** [SemVer.prototype.compare] *)
Definition compareVersions (x y : SemVer) : Z :=
  orZ (compareMain x y) (comparePre x y).

(** [semver.compareBuild(a, b)]: [None] when the package raises a
    TypeError because one of the strings is not a version. *)
Definition compareBuild (a b : string) : option Z :=
  match parse a, parse b with
  | Some x, Some y =>
      Some (orZ (compareVersions x y)
              (compareIdentifierLists (build x) (build y)))
  | _, _ => None
  end.

(** *** Ranges made of one partial version *)

Inductive Range :=
| AnyVersion                       (* "", "*", "x", "x.1", ... *)
| MajorOnly (M : N)                (* "11", "11.x", "11.x.x"   *)
| MajorMinor (M m : N)             (* "11.0", "11.0.x"         *)
| Exactly (v : SemVer).            (* "11.0.2", "11.0.2-rc.1"  *)

Inductive XRange := Wildcard | Number (n : N).

(** XRANGEIDENTIFIER: a numeric identifier, [x], [X] or [*] *)
Definition parseXRange (s : string) : option XRange :=
  if String.eqb s "x" || String.eqb s "X" || String.eqb s "*" then Some Wildcard
  else
    match numericIdentifier s with
    | Some n => if (n <? MAX_SAFE_INTEGER)%N then Some (Number n) else None
    | None => None
    end.

Definition rangeOfXRanges (M m p : option XRange) : option Range :=
  match M, m, p with
  | Some Wildcard, _, _ => Some AnyVersion
  | Some (Number a), Some Wildcard, _ => Some (MajorOnly a)
  | Some (Number a), Some (Number b), Some Wildcard => Some (MajorMinor a b)
  | _, _, _ => None
  end.

(** The range forms covered here; [None] for every other syntax
    (comparators, tilde, caret, hyphen and [||] ranges). *)
Definition parseRange (range : string) : option Range :=
  match parse range with
  | Some v => Some (Exactly v)
  | None =>
      if String.eqb range "" then Some AnyVersion
      else
        match splitOn "." range with
        | [a] => rangeOfXRanges (parseXRange a) (Some Wildcard) (Some Wildcard)
        | [a; b] => rangeOfXRanges (parseXRange a) (parseXRange b) (Some Wildcard)
        | [a; b; c] => rangeOfXRanges (parseXRange a) (parseXRange b) (parseXRange c)
        | _ => None
        end
  end.

Definition noPrerelease (v : SemVer) : bool :=
  match prerelease v with [] => true | _ => false end.

(** [Range.prototype.test] without [includePrerelease]: a version that
    carries a prerelease tag only satisfies a comparator set that names
    a prerelease of the same [major.minor.patch]. *)
Definition test (r : Range) (v : SemVer) : bool :=
  match r with
  | AnyVersion => noPrerelease v
  | MajorOnly M => (major v =? M)%N && noPrerelease v
  | MajorMinor M m => (major v =? M)%N && (minor v =? m)%N && noPrerelease v
  | Exactly w => compareVersions v w =? 0
  end.

Section Satisfies.
(** The package's reading of range syntax outside [parseRange]: [None]
    for text that is no range at all, otherwise the set of versions the
    range accepts. *)
Variable otherRanges : string -> option (string -> bool).

(** [semver.satisfies(version, range)] *)
Definition satisfies (version range : string) : bool :=
  match parseRange range with
  | Some r =>
      match parse version with
      | Some v => test r v
      | None => false
      end
  | None =>
      match otherRanges range with
      | Some accepts => accepts version
      | None => false
      end
  end.

(** [semver.validRange(range)] as a truth value *)
Definition validRange (range : string) : bool :=
  match parseRange range with
  | Some _ => true
  | None => match otherRanges range with Some _ => true | None => false end
  end.
End Satisfies.

End Semver.

(* ===================================================================== *)
(** ** Outcomes, the observable world and the effect monad *)
(* ===================================================================== *)

(** A computation returns, raises a JavaScript [Error] (caught by the
    [try]/[catch] of [main]) or ends the process with [process.exit]. *)
Inductive Outcome (A : Type) : Type :=
| Ok (a : A)
| Throw (message : string)
| Exit (code : Z).

Arguments Ok {A} a.
Arguments Throw {A} message.
Arguments Exit {A} code.

(** The result object of [exec.getExecOutput]. *)
Record ExecOutput := mkExecOutput {
  exitCode : Z;
  stdout : string;
  stderr : string
}.

(** What the operating system answers when a command is spawned. *)
Inductive ProcessReply :=
| Exited (o : ExecOutput)          (* the process ran and ended *)
| NotStarted (message : string).   (* the process could not be started *)

Inductive OutputValue :=
| OutText (s : string)
| OutExec (o : ExecOutput).

(** A filesystem entry: a regular file with its content, or a directory
    with the names [fs.readdirSync] reports, in that order. *)
Inductive Node :=
| File (content : string)
| Dir (entries : list string).

Inductive RemoteEvent :=
| Lookup (range : string)        (* release index consulted *)
| Download (url : string).       (* archive fetched *)

Record World := mkWorld {
  fs : gmap string Node;                   (* path |-> entry *)
  env : list (string * string);            (* process.env, enumeration order *)
  searchPath : list string;                (* core.addPath, newest first *)
  infoLog : list string;                   (* core.info, oldest first *)
  errorLog : list string;                  (* core.error *)
  spawned : list string;                   (* exec.getExecOutput, oldest first *)
  remote : list RemoteEvent;               (* network traffic, oldest first *)
  outputs : list (string * OutputValue);   (* core.setOutput *)
  failure : option string                  (* core.setFailed *)
}.

Definition M (A : Type) : Type := World -> Outcome A * World.

Definition ret {A} (a : A) : M A := fun w => (Ok a, w).

Definition bind {A B} (m : M A) (k : A -> M B) : M B :=
  fun w =>
    match m w with
    | (Ok a, w') => k a w'
    | (Throw e, w') => (Throw e, w')
    | (Exit c, w') => (Exit c, w')
    end.

Definition throw {A} (message : string) : M A := fun w => (Throw message, w).

Definition lift {A} (o : Outcome A) : M A := fun w => (o, w).

(** [try { m } catch (error) { handler(error.message) }] *)
Definition tryCatch {A} (m : M A) (handler : string -> M A) : M A :=
  fun w =>
    match m w with
    | (Throw e, w') => handler e w'
    | r => r
    end.

Declare Scope action_scope.
Delimit Scope action_scope with action.
Notation "x <- m ;; k" := (bind m (fun x => k))
  (at level 100, m at next level, right associativity) : action_scope.
Notation "m ;;; k" := (bind m (fun _ => k))
  (at level 100, right associativity) : action_scope.
Local Open Scope action_scope.

Definition setFs (f : gmap string Node) (w : World) : World :=
  mkWorld f (env w) (searchPath w) (infoLog w) (errorLog w) (spawned w)
          (remote w) (outputs w) (failure w).
Definition setEnv (e : list (string * string)) (w : World) : World :=
  mkWorld (fs w) e (searchPath w) (infoLog w) (errorLog w) (spawned w)
          (remote w) (outputs w) (failure w).
Definition addSearchPath (p : string) (w : World) : World :=
  mkWorld (fs w) (env w) (p :: searchPath w) (infoLog w) (errorLog w) (spawned w)
          (remote w) (outputs w) (failure w).
Definition addInfo (line : string) (w : World) : World :=
  mkWorld (fs w) (env w) (searchPath w) (infoLog w ++ [line]) (errorLog w) (spawned w)
          (remote w) (outputs w) (failure w).
Definition addError (line : string) (w : World) : World :=
  mkWorld (fs w) (env w) (searchPath w) (infoLog w) (errorLog w ++ [line]) (spawned w)
          (remote w) (outputs w) (failure w).
Definition addSpawned (cmd : string) (w : World) : World :=
  mkWorld (fs w) (env w) (searchPath w) (infoLog w) (errorLog w) (spawned w ++ [cmd])
          (remote w) (outputs w) (failure w).
Definition addRemote (e : RemoteEvent) (w : World) : World :=
  mkWorld (fs w) (env w) (searchPath w) (infoLog w) (errorLog w) (spawned w)
          (remote w ++ [e]) (outputs w) (failure w).
Definition addOutput (name : string) (v : OutputValue) (w : World) : World :=
  mkWorld (fs w) (env w) (searchPath w) (infoLog w) (errorLog w) (spawned w)
          (remote w) (outputs w ++ [(name, v)]) (failure w).
Definition setFailure (message : string) (w : World) : World :=
  mkWorld (fs w) (env w) (searchPath w) (infoLog w) (errorLog w) (spawned w)
          (remote w) (outputs w) (Some message).

(** *** The environment of the process *)

Fixpoint lookupEnv (name : string) (e : list (string * string)) : option string :=
  match e with
  | [] => None
  | (k, v) :: rest => if String.eqb k name then Some v else lookupEnv name rest
  end.

(** [process.env[name] = value]: an existing variable keeps its place. *)
Fixpoint assignEnv (name value : string) (e : list (string * string))
  : list (string * string) :=
  match e with
  | [] => [(name, value)]
  | (k, v) :: rest =>
      if String.eqb k name then (k, value) :: rest
      else (k, v) :: assignEnv name value rest
  end.

(** [a ?? b] *)
Definition nullish {A} (a : option A) (b : A) : A :=
  match a with Some x => x | None => b end.

(** *** The toolkit's sinks (package @actions/core) *)

Definition info (line : string) : M unit := fun w => (Ok tt, addInfo line w).
Definition error (line : string) : M unit := fun w => (Ok tt, addError line w).
Definition setFailed (message : string) : M unit :=
  fun w => (Ok tt, setFailure message w).
Definition setOutput (name : string) (v : OutputValue) : M unit :=
  fun w => (Ok tt, addOutput name v w).
Definition exportVariable (name value : string) : M unit :=
  fun w => (Ok tt, setEnv (assignEnv name value (env w)) w).
Definition addPath (p : string) : M unit := fun w => (Ok tt, addSearchPath p w).

Definition spaceToUnderscore (c : ascii) : ascii :=
  if Ascii.eqb c " " then "_"%char else c.

Fixpoint mapChars (f : ascii -> ascii) (s : string) : string :=
  match s with
  | EmptyString => EmptyString
  | String c s' => String (f c) (mapChars f s')
  end.

Definition inputVariable (name : string) : string :=
  "INPUT_" +:+ Js.toUpperCase (mapChars spaceToUnderscore name).

(** [core.getInput(name)]: the variable [INPUT_<NAME>], trimmed; the
    empty string when it is unset. *)
Definition getInputIn (e : list (string * string)) (name : string) : string :=
  Js.trim (Js.orElse (nullish (lookupEnv (inputVariable name) e) "") "").

Definition getInput (name : string) : M string :=
  fun w => (Ok (getInputIn (env w) name), w).

(** The message of the TypeError [core.getBooleanInput] raises: two
    lines, the first naming the input. *)
Definition notBoolean (name : string) : string :=
  "Input does not meet YAML 1.2 " +:+ String "034"%char "Core Schema"
    +:+ String "034"%char " specification: " +:+ name +:+ String "010"%char ""
    +:+ "Support boolean input list: `true | True | TRUE | false | False | FALSE`".

(** [core.getBooleanInput(name)] *)
Definition getBooleanInput (name : string) : M bool :=
  v <- getInput name ;;
  if String.eqb v "true" || String.eqb v "True" || String.eqb v "TRUE" then ret true
  else if String.eqb v "false" || String.eqb v "False" || String.eqb v "FALSE" then ret false
  else throw (notBoolean name).

(* ===================================================================== *)
(** ** The host: Node's [path], [os], [process] and the outside world *)
(* ===================================================================== *)

Inductive SubscriptionReply :=
| Granted                      (* the request succeeded *)
| HttpStatus (status : Z)      (* an error response with this status *)
| Unreachable.                 (* timeout or no response *)

(** What the action cannot decide by itself.  [path_*] is the [path]
    module of the platform (POSIX or Windows flavour); [path_resolve p]
    is the absolute name of the entry the operating system reaches
    through [p]: relative paths start at the working directory and a
    trailing separator is dropped.  [exec_reply n cmd] is the fate of
    the [n]-th process spawned by the run when started as [cmd];
    [tc_downloadTool] and [tc_extractZip] are the download and
    extraction operations of the tool-cache package.
    [sort_unspecified n c] is the order in which the engine's
    [Array.prototype.sort] leaves [n] elements whose comparator [c]
    (given on positions) is not consistent: the language leaves that
    order to the implementation. *)
Class Host := {
  path_normalize : string -> string;
  path_join : string -> string -> string;
  path_dirname : string -> string;
  path_basename : string -> string;
  path_resolve : string -> string;
  path_sep : string;
  process_platform : string;
  process_cwd : string;
  os_arch : string;
  os_tmpdir : string;
  os_userInfo : Outcome (option string);
  semver_otherRanges : string -> option (string -> bool);
  exec_reply : nat -> string -> ProcessReply;
  subscription : SubscriptionReply;
  tc_downloadTool : string -> M string;
  tc_extractZip : string -> string -> M string;
  sort_unspecified : nat -> (nat -> nat -> Z) -> list nat
}.

(** *** Filesystem primitives (module fs)

    The map [fs] is keyed by resolved paths; every primitive resolves
    the path it is given before it looks the entry up (there are no
    symbolic links).  The empty path names nothing.  The error texts
    quote the path as it was given. *)

Section HostOperations.
Context `{Host}.

(** What the operating system finds under a path. *)
Inductive Stat :=
| NoEntry                (* ENOENT *)
| NotDirectory           (* ENOTDIR: a regular file named with a trailing separator *)
| Entry (n : Node).

Definition statAt (f : gmap string Node) (p : string) : Stat :=
  if String.eqb p "" then NoEntry
  else
    match f !! path_resolve p with
    | None => NoEntry
    | Some (File content) =>
        if Js.endsWith p path_sep then NotDirectory else Entry (File content)
    | Some (Dir entries) => Entry (Dir entries)
    end.

Definition existsIn (f : gmap string Node) (p : string) : bool :=
  match statAt f p with Entry _ => true | _ => false end.

(** [fs.existsSync(p)] *)
Definition existsSync (p : string) : M bool :=
  fun w => (Ok (existsIn (fs w) p), w).

(** A new entry under an existing parent directory, added to the
    parent's listing; [syscall] names the operation in the error text. *)
Definition createEntry (syscall p : string) (n : Node) : M unit :=
  fun w =>
    let target := path_resolve p in
    match fs w !! path_dirname target with
    | Some (Dir entries) =>
        (Ok tt,
         setFs (<[target := n]>
                  (<[path_dirname target := Dir (entries ++ [path_basename target])]> (fs w))) w)
    | Some (File _) =>
        (Throw ("ENOTDIR: not a directory, " +:+ syscall +:+ " '" +:+ p +:+ "'"), w)
    | None =>
        (Throw ("ENOENT: no such file or directory, " +:+ syscall +:+ " '" +:+ p +:+ "'"), w)
    end.

(** [fs.mkdirSync(p)], without the [recursive] option. *)
Definition mkdirSync (p : string) : M unit :=
  fun w =>
    if String.eqb p ""
    then (Throw ("ENOENT: no such file or directory, mkdir '" +:+ p +:+ "'"), w)
    else
      match fs w !! path_resolve p with
      | Some _ => (Throw ("EEXIST: file already exists, mkdir '" +:+ p +:+ "'"), w)
      | None => createEntry "mkdir" p (Dir []) w
      end.

(** [fs.writeFileSync(p, content, { flag: 'w' })] *)
Definition writeFileSync (p content : string) : M unit :=
  fun w =>
    if String.eqb p ""
    then (Throw ("ENOENT: no such file or directory, open '" +:+ p +:+ "'"), w)
    else
      match fs w !! path_resolve p with
      | Some (Dir _) =>
          (Throw ("EISDIR: illegal operation on a directory, open '" +:+ p +:+ "'"), w)
      | Some (File _) =>
          if Js.endsWith p path_sep
          then (Throw ("ENOTDIR: not a directory, open '" +:+ p +:+ "'"), w)
          else (Ok tt, setFs (<[path_resolve p := File content]> (fs w)) w)
      | None =>
          if Js.endsWith p path_sep
          then (Throw ("EISDIR: illegal operation on a directory, open '" +:+ p +:+ "'"), w)
          else createEntry "open" p (File content) w
      end.

(** [fs.readFileSync(p, { encoding: 'utf-8' })] *)
Definition readFileSync (p : string) : M string :=
  fun w =>
    match statAt (fs w) p with
    | Entry (File content) => (Ok content, w)
    | Entry (Dir _) => (Throw "EISDIR: illegal operation on a directory, read", w)
    | NotDirectory => (Throw ("ENOTDIR: not a directory, open '" +:+ p +:+ "'"), w)
    | NoEntry => (Throw ("ENOENT: no such file or directory, open '" +:+ p +:+ "'"), w)
    end.

(** The names of a directory as [fs.readdirSync] returns them: sorted
    by code units, whatever the order in which they were created. *)
Fixpoint insertName (name : string) (names : list string) : list string :=
  match names with
  | [] => [name]
  | other :: rest =>
      if String.ltb other name then other :: insertName name rest
      else name :: other :: rest
  end.

Fixpoint sortNames (names : list string) : list string :=
  match names with
  | [] => []
  | name :: rest => insertName name (sortNames rest)
  end.

(** [fs.readdirSync(p)] *)
Definition readdirSync (p : string) : M (list string) :=
  fun w =>
    match statAt (fs w) p with
    | Entry (Dir entries) => (Ok (sortNames entries), w)
    | Entry (File _) | NotDirectory =>
        (Throw ("ENOTDIR: not a directory, scandir '" +:+ p +:+ "'"), w)
    | NoEntry => (Throw ("ENOENT: no such file or directory, scandir '" +:+ p +:+ "'"), w)
    end.

(** [fs.chmodSync(p, mode)]: permission bits are not tracked. *)
Definition chmodSync (p : string) : M unit :=
  fun w =>
    match statAt (fs w) p with
    | Entry _ => (Ok tt, w)
    | NotDirectory => (Throw ("ENOTDIR: not a directory, chmod '" +:+ p +:+ "'"), w)
    | NoEntry => (Throw ("ENOENT: no such file or directory, chmod '" +:+ p +:+ "'"), w)
    end.

(** The key [k] is the entry [p] or lies below it. *)
Definition isUnder (p k : string) : bool :=
  (String.eqb k p || Js.startsWith k (p +:+ path_sep))%bool.

Definition unlist (name : string) (n : Node) : Node :=
  match n with
  | Dir entries => Dir (List.filter (fun e => negb (String.eqb e name)) entries)
  | File c => File c
  end.

(** [fs.rmSync(p, { recursive: true, force: true })]: the entry and
    everything below it disappear; a missing entry is not an error.
    The path of the one call is a result of [path.join], which is never
    the empty text. *)
Definition rmSync (p : string) : M unit :=
  fun w =>
    let target := path_resolve p in
    (Ok tt,
     setFs (alter (unlist (path_basename target)) (path_dirname target)
              (filter (fun kv => isUnder target (fst kv) = false) (fs w))) w).

(** The text before the first space: the program of a command line. *)
Fixpoint firstWord (s : string) : string :=
  match s with
  | EmptyString => EmptyString
  | String c s' => if Ascii.eqb c " " then EmptyString else String c (firstWord s')
  end.

Definition exitError (cmd : string) (code : Z) : string :=
  "The process '" +:+ firstWord cmd +:+ "' failed with exit code " +:+ pretty code.

(** [exec.getExecOutput(cmd, [], { windowsVerbatimArguments: false })]:
    the command is handed to the operating system.  The options leave
    [ignoreReturnCode] unset, so the promise is rejected when the process
    ends with a non-zero status; otherwise it resolves to the output
    record. *)
Definition getExecOutput (cmd : string) : M ExecOutput :=
  fun w =>
    (match exec_reply (List.length (spawned w)) cmd with
     | Exited o => if exitCode o =? 0 then Ok o else Throw (exitError cmd (exitCode o))
     | NotStarted message => Throw message
     end,
     addSpawned cmd w).

End HostOperations.

(* ===================================================================== *)
(** ** constants.ts and config.ts *)
(* ===================================================================== *)

Module OS_PLATFORM.
Definition UNIX_SYSTEM : string := "UNIX".
Definition MAC_OS_SYSTEM : string := "MACOS".
Definition WIN_SYSTEM : string := "WINDOWS".
End OS_PLATFORM.

Definition JAVA_MAC_PATH_SUFFIX : string := "Contents/Home".

Module SIGN_METHOD.
Definition VERSION_ONE : string := "v1".
Definition VERSION_TWO : string := "v2".
End SIGN_METHOD.

Module OPERATIONS.
Definition SINGLE_SIGN : string := "sign".
Definition BULK_SIGN : string := "batch_sign".
Definition CODE_SCAN : string := "scan_code".
End OPERATIONS.

Module INPUT_KEYS.
Definition CMD : string := "command".
Definition USER : string := "username".
Definition PASS : string := "password".
Definition CRED_ID : string := "credential_id".
Definition TOTP : string := "totp_secret".
Definition PROGRAM : string := "program_name".
Definition FILE : string := "file_path".
Definition DIR : string := "dir_path".
Definition OUTPUT : string := "output_path".
Definition MALWARE_CHECK : string := "malware_block".
Definition FORCE_OVERRIDE : string := "override".
Definition LOG_CLEANUP : string := "clean_logs".
Definition ENV_NAME : string := "environment_name".
Definition MEMORY_LIMIT : string := "jvm_max_memory".
Definition SIGN_VERSION : string := "signing_method".
End INPUT_KEYS.

Module ENV_CONFIG.
Definition PRODUCTION : string := "PROD".
Definition TESTING : string := "TEST".
End ENV_CONFIG.

(** [createCommandParams()]: the allow-list of every operation. *)
Definition COMMAND_PARAMETERS : gmap string (list string) :=
  <["scan_code" := ["username"; "password"; "credential_id"; "program_name"]]>
  (<["batch_sign" := ["username"; "password"; "credential_id"; "totp_secret";
                      "program_name"; "dir_path"; "output_path"]]>
  (<["sign" := ["username"; "password"; "credential_id"; "totp_secret";
                "program_name"; "file_path"; "output_path"; "malware_block";
                "override"]]> ∅)).

Definition TOOL_VERSION_NUMBER : string := "v1.3.0".
Definition SIGNING_TOOL_DIR : string := "CodeSignTool-" +:+ TOOL_VERSION_NUMBER.
Definition BASE_DOWNLOAD_URL : string :=
  "https://github.com/SSLcom/CodeSignTool/releases/download".

Module PLATFORM_DOWNLOAD_URLS.
Definition windows : string :=
  BASE_DOWNLOAD_URL +:+ "/" +:+ TOOL_VERSION_NUMBER +:+ "/CodeSignTool-"
    +:+ TOOL_VERSION_NUMBER +:+ "-windows.zip".
Definition unix : string :=
  BASE_DOWNLOAD_URL +:+ "/" +:+ TOOL_VERSION_NUMBER +:+ "/CodeSignTool-"
    +:+ TOOL_VERSION_NUMBER +:+ ".zip".
End PLATFORM_DOWNLOAD_URLS.

Module EXECUTABLE_SCRIPTS.
Definition windows : string := "CodeSignTool.bat".
Definition unix : string := "CodeSignTool.sh".
End EXECUTABLE_SCRIPTS.

Definition JAR_FILE_PATH : string := "code_sign_tool-1.3.0.jar".

Module JAVA_EXEC_TEMPLATES.
Definition windows : string :=
  "${{ JAVA_HOME }} -Xmx${{ JVM_MAX_MEMORY }} -jar ${{ CODE_SIGN_TOOL_PATH }}\jar\"
    +:+ JAR_FILE_PATH.
Definition unix : string :=
  "${{ JAVA_HOME }} -Xmx${{ JVM_MAX_MEMORY }} -jar ${{ CODE_SIGN_TOOL_PATH }}/jar/"
    +:+ JAR_FILE_PATH.
End JAVA_EXEC_TEMPLATES.

Definition newline : string := String "010"%char "".
Definition dquote : string := String "034"%char "".

(** The message of the TypeError that [path.join] raises for an argument
    that is [undefined] (the first entry of an empty listing). *)
Definition pathArgumentUndefined : string :=
  "The " +:+ dquote +:+ "path" +:+ dquote
    +:+ " argument must be of type string. Received undefined".

(** [lines.join('\n')] *)
Fixpoint joinLines (lines : list string) : string :=
  match lines with
  | [] => ""
  | [l] => l
  | l :: rest => l +:+ newline +:+ joinLines rest
  end.

Definition PROD_ENV_SETTINGS : string :=
  joinLines [
    "CLIENT_ID=kaXTRACNijSWsFdRKg_KAfD3fqrBlzMbWs6TwWHwAn8";
    "OAUTH2_ENDPOINT=https://login.ssl.com/oauth2/token";
    "CSC_API_ENDPOINT=https://cs.ssl.com";
    "TSA_URL=http://ts.ssl.com";
    "TSA_LEGACY_URL=http://ts.ssl.com/legacy" ].

Definition SANDBOX_ENV_SETTINGS : string :=
  joinLines [
    "CLIENT_ID=qOUeZCCzSqgA93acB3LYq6lBNjgZdiOxQc-KayC3UMw";
    "OAUTH2_ENDPOINT=https://oauth-sandbox.ssl.com/oauth2/token";
    "CSC_API_ENDPOINT=https://cs-try.ssl.com";
    "TSA_URL=http://ts.ssl.com";
    "TSA_LEGACY_URL=http://ts.ssl.com/legacy" ].

(* ===================================================================== *)
(** ** util.ts *)
(* ===================================================================== *)

Section Util.
Context `{Host}.

Definition getTempDir : M string :=
  fun w => (Ok (Js.orElse (nullish (lookupEnv "RUNNER_TEMP" (env w)) "") os_tmpdir), w).

Definition detectArchiveFormat : string :=
  if String.eqb process_platform "win32" then "zip" else "tar.gz".

Definition checkVersionCompatibility (range version : string) : Outcome bool :=
  let hasBuild :=
    match Semver.valid range with
    | Some _ =>
        match Semver.parse range with
        | Some semRange => Nat.ltb 0 (List.length (Semver.build semRange))
        | None => false
        end
    | None => false
    end in
  if hasBuild then
    match Semver.compareBuild range version with
    | Some c => Ok (c =? 0)
    | None => Throw ("Invalid Version: " +:+ version)
    end
  else Ok (Semver.satisfies semver_otherRanges version range).

Definition join3 (a b c : string) : string := path_join (path_join a b) c.
Definition join4 (a b c d : string) : string := path_join (join3 a b c) d.

Definition findCachedTool (toolName version architecture : string) : M (option string) :=
  fun w =>
    let toolCacheRoot := nullish (lookupEnv "RUNNER_TOOL_CACHE" (env w)) "" in
    let fullPath := join4 toolCacheRoot toolName version architecture in
    if existsIn (fs w) fullPath then (Ok (Some fullPath), w) else (Ok None, w).

Definition identifyPlatform : string :=
  if String.eqb process_platform "darwin" then OS_PLATFORM.MAC_OS_SYSTEM
  else if String.eqb process_platform "win32" then OS_PLATFORM.WIN_SYSTEM
  else OS_PLATFORM.UNIX_SYSTEM.

(** The listing is only written to the debug channel, which is not
    recorded; reading the directory can still fail. *)
Definition debugListDirectory (dirPath : string) : M unit :=
  _files <- readdirSync dirPath ;; ret tt.

(** One pass over the variables of the environment, each replacing the
    first occurrence of its [${NAME}] marker. *)
Fixpoint expandWith (variables : list (string * string)) (result : string) : string :=
  match variables with
  | [] => result
  | (envKey, envValue) :: rest =>
      expandWith rest (Js.replace result ("${" +:+ envKey +:+ "}") envValue)
  end.

Definition expandEnvironmentVars (input : string) : M string :=
  fun w => (Ok (expandWith (env w) input), w).

Definition fetchInputValue (inputKey : string) : M string :=
  raw <- getInput inputKey ;; expandEnvironmentVars raw.

(** [None] is JavaScript's [null]. *)
Definition resolveUserShell (signingMethod : string) : M (option string) :=
  fun w =>
    let platform := identifyPlatform in
    if String.eqb platform OS_PLATFORM.WIN_SYSTEM then (Ok (Some ""), w)
    else if String.eqb signingMethod SIGN_METHOD.VERSION_TWO then (Ok (Some ""), w)
    else
      match os_userInfo with
      | Ok shell => (Ok shell, w)
      | _ =>
          if String.eqb platform OS_PLATFORM.MAC_OS_SYSTEM
          then (Ok (Some (nullish (lookupEnv "SHELL" (env w)) "/bin/zsh")), w)
          else (Ok (Some (nullish (lookupEnv "SHELL" (env w)) "/bin/sh")), w)
      end.

Definition supports (action inputKey : string) : bool :=
  match COMMAND_PARAMETERS !! action with
  | Some supportCommands => existsb (String.eqb inputKey) supportCommands
  | None => false
  end.

Definition quotedFlag (flag value : string) : string :=
  " -" +:+ flag +:+ "=" +:+ dquote +:+ value +:+ dquote.

Definition plainFlag (flag value : string) : string :=
  " -" +:+ flag +:+ "=" +:+ value.

Definition appendParameter (inputKey command action : string) : M string :=
  inputValue <- fetchInputValue inputKey ;;
  if String.eqb inputValue "" then ret command
  else if negb (supports action inputKey) then ret command
  else if String.eqb inputKey INPUT_KEYS.USER then
    ret (command +:+ quotedFlag "username" inputValue)
  else if String.eqb inputKey INPUT_KEYS.PASS then
    ret (command +:+ quotedFlag "password" inputValue)
  else if String.eqb inputKey INPUT_KEYS.CRED_ID then
    ret (command +:+ quotedFlag "credential_id" inputValue)
  else if String.eqb inputKey INPUT_KEYS.TOTP then
    ret (command +:+ quotedFlag "totp_secret" inputValue)
  else if String.eqb inputKey INPUT_KEYS.PROGRAM then
    ret (command +:+ quotedFlag "program_name" inputValue)
  else if String.eqb inputKey INPUT_KEYS.FILE then
    let inputValue := path_normalize inputValue in
    ret (command +:+ quotedFlag "input_file_path" inputValue)
  else if String.eqb inputKey INPUT_KEYS.DIR then
    let inputValue := path_normalize inputValue in
    ret (command +:+ quotedFlag "input_dir_path" inputValue)
  else if String.eqb inputKey INPUT_KEYS.OUTPUT then
    let inputValue := path_normalize inputValue in
    outputExists <- existsSync inputValue ;;
    (if outputExists : bool then
       info ("Output directory already exists: " +:+ inputValue)
     else
       info ("Creating output directory: " +:+ inputValue) ;;;
       mkdirSync inputValue) ;;;
    ret (command +:+ quotedFlag "output_dir_path" inputValue)
  else if String.eqb inputKey INPUT_KEYS.MALWARE_CHECK then
    ret (command +:+ plainFlag "malware_block" inputValue)
  else if String.eqb inputKey INPUT_KEYS.FORCE_OVERRIDE then
    ret (command +:+ plainFlag "override" inputValue)
  else ret command.

Definition assembleCommandString (action : string) : M string :=
  cmd <- getInput INPUT_KEYS.CMD ;;
  cmd <- appendParameter INPUT_KEYS.USER cmd action ;;
  cmd <- appendParameter INPUT_KEYS.PASS cmd action ;;
  cmd <- appendParameter INPUT_KEYS.CRED_ID cmd action ;;
  cmd <- appendParameter INPUT_KEYS.TOTP cmd action ;;
  cmd <- appendParameter INPUT_KEYS.PROGRAM cmd action ;;
  cmd <- appendParameter INPUT_KEYS.FILE cmd action ;;
  cmd <- appendParameter INPUT_KEYS.DIR cmd action ;;
  cmd <- appendParameter INPUT_KEYS.OUTPUT cmd action ;;
  cmd <- appendParameter INPUT_KEYS.FORCE_OVERRIDE cmd action ;;
  cmd <- appendParameter INPUT_KEYS.MALWARE_CHECK cmd action ;;
  ret cmd.

End Util.

(* ===================================================================== *)
(** ** setup-jdk-base-installer.ts *)
(* ===================================================================== *)

Record JdkSetupResult := mkJdkSetupResult {
  jdk_version : string;
  jdk_path : string
}.

Record JdkReleaseInfo := mkJdkReleaseInfo {
  release_version : string;
  release_url : string
}.

(** The fields of [JdkInstallationBase]. *)
Record Installer := mkInstaller {
  distributionName : string;
  jdkVersion : string;
  systemArchitecture : string;
  distributionType : string;
  isStableRelease : bool;
  shouldCheckLatest : bool
}.

(** The two abstract methods every distribution implements. *)
Class JdkProvider := {
  locateReleaseForVersion : Installer -> string -> M JdkReleaseInfo;
  fetchJdkArchive : Installer -> JdkReleaseInfo -> M JdkSetupResult
}.

(** An element of the list built by [getCachedVersionsList]. *)
Record CacheEntry := mkCacheEntry {
  entry_version : string;
  entry_path : string;
  entry_stable : bool
}.

Fixpoint mapM {A B} (f : A -> M B) (l : list A) : M (list B) :=
  match l with
  | [] => ret []
  | x :: rest => y <- f x ;; ys <- mapM f rest ;; ret (y :: ys)
  end.

(** [l.filter(p)] for a predicate that may raise. *)
Fixpoint filterO {A} (p : A -> Outcome bool) (l : list A) : Outcome (list A) :=
  match l with
  | [] => Ok []
  | x :: rest =>
      match p x with
      | Ok keep =>
          match filterO p rest with
          | Ok kept => Ok (if keep then x :: kept else kept)
          | Throw e => Throw e
          | Exit c => Exit c
          end
      | Throw e => Throw e
      | Exit c => Exit c
      end
  end.

(** *** [Array.prototype.sort(comparator)]

    The language fixes the result for a comparator that is consistent
    on the elements: the sort is stable, so the result is the list
    obtained by inserting every element before the first later element
    it does not exceed.  For any other comparator the order is left to
    the implementation.  [None]: the comparator raised. *)

Fixpoint insertSorted {A} (comparator : A -> A -> option Z) (x : A) (l : list A)
  : option (list A) :=
  match l with
  | [] => Some [x]
  | y :: rest =>
      match comparator x y with
      | Some c =>
          if c <=? 0 then Some (x :: y :: rest)
          else
            match insertSorted comparator x rest with
            | Some r => Some (y :: r)
            | None => None
            end
      | None => None
      end
  end.

Fixpoint stableSort {A} (comparator : A -> A -> option Z) (l : list A) : option (list A) :=
  match l with
  | [] => Some []
  | x :: rest =>
      match stableSort comparator rest with
      | Some sorted => insertSorted comparator x sorted
      | None => None
      end
  end.

(** The conditions of the language on a consistent comparator, for the
    elements [a], [b] and [c]: a number for every pair, [a] equal to
    itself, equality symmetric, and equality, "before" and "after"
    transitive. *)
Definition consistentAt {A} (comparator : A -> A -> option Z) (a b c : A) : bool :=
  match comparator a a, comparator a b, comparator b a, comparator b c, comparator a c with
  | Some aa, Some ab, Some ba, Some bc, Some ac =>
      (aa =? 0)
      && implb (ab =? 0) (ba =? 0)
      && implb ((ab =? 0) && (bc =? 0)) (ac =? 0)
      && implb ((ab <? 0) && (bc <? 0)) (ac <? 0)
      && implb ((0 <? ab) && (0 <? bc)) (0 <? ac)
  | _, _, _, _, _ => false
  end.

Definition consistent {A} (comparator : A -> A -> option Z) (l : list A) : bool :=
  forallb (fun a => forallb (fun b => forallb (consistentAt comparator a b) l) l) l.

(** The comparator answers for every two positions of the list. *)
Definition answersAt {A} (comparator : A -> A -> option Z) (l : list A) (i j : nat) : bool :=
  match l !! i, l !! j with
  | Some a, Some b => match comparator a b with Some _ => true | None => false end
  | _, _ => true
  end.

Definition answers {A} (comparator : A -> A -> option Z) (l : list A) : bool :=
  forallb (fun i => forallb (fun j => Nat.eqb i j || answersAt comparator l i j)
                      (seq 0 (List.length l)))
    (seq 0 (List.length l)).

(** The comparator on positions, as the engine sees it. *)
Definition onPositions {A} (comparator : A -> A -> option Z) (l : list A) (i j : nat) : Z :=
  match l !! i, l !! j with
  | Some a, Some b => match comparator a b with Some c => c | None => 0 end
  | _, _ => 0
  end.

(** Every position exactly once. *)
Definition isArrangement (n : nat) (order : list nat) : bool :=
  Nat.eqb (List.length order) n
  && forallb (fun i => existsb (Nat.eqb i) order) (seq 0 n).

(** The elements of [l] in the order of the positions [order]. *)
Fixpoint pick {A} (l : list A) (order : list nat) : list A :=
  match order with
  | [] => []
  | i :: rest =>
      match l !! i with
      | Some a => a :: pick l rest
      | None => pick l rest
      end
  end.

Section Sort.
Context `{Host}.

(** A sort rearranges: an answer of the host that is not an arrangement
    of the positions stands for the order as it was.  A comparator that
    raises on two of the elements makes the call raise (the comparator
    of this repository raises on an unparsable version whatever the
    other argument is, and every element of a list of two or more is
    compared at least once). *)
Definition sortBy {A} (comparator : A -> A -> option Z) (l : list A) : option (list A) :=
  if consistent comparator l then stableSort comparator l
  else if answers comparator l then
    let order := sort_unspecified (List.length l) (onPositions comparator l) in
    Some (if isArrangement (List.length l) order then pick l order else l)
  else None.

End Sort.

(** *** [tc.findAllVersions] of the package @actions/tool-cache *)

Section ToolCache.
Context `{Host}.

(** [_getCacheDirectory()] *)
Definition _getCacheDirectory : M string :=
  fun w =>
    let cacheDirectory := Js.orElse (nullish (lookupEnv "RUNNER_TOOL_CACHE" (env w)) "") "" in
    if String.eqb cacheDirectory "" then (Throw "Expected RUNNER_TOOL_CACHE to be defined", w)
    else (Ok cacheDirectory, w).

(** [isExplicitVersion(versionSpec)] *)
Definition isExplicitVersion (versionSpec : string) : bool :=
  match Semver.valid (nullish (Semver.clean versionSpec) "") with
  | Some _ => true
  | None => false
  end.

(** The loop of [findAllVersions] over the names of the tool's
    directory: an explicit version counts when its directory for the
    architecture and the marker file next to it exist. *)
Fixpoint completeVersions (toolPath arch : string) (children : list string)
  : M (list string) :=
  match children with
  | [] => ret []
  | child :: rest =>
      if isExplicitVersion child then
        let fullPath := path_join (path_join toolPath child) arch in
        installed <- existsSync fullPath ;;
        marked <- existsSync (fullPath +:+ ".complete") ;;
        versions <- completeVersions toolPath arch rest ;;
        ret (if installed && marked then child :: versions else versions)
      else completeVersions toolPath arch rest
  end.

Definition tc_findAllVersions (toolName arch : string) : M (list string) :=
  let arch := Js.orElse arch os_arch in
  cacheDirectory <- _getCacheDirectory ;;
  let toolPath := path_join cacheDirectory toolName in
  present <- existsSync toolPath ;;
  if present : bool then
    children <- readdirSync toolPath ;;
    completeVersions toolPath arch children
  else ret [].

End ToolCache.

Section JdkInstallationBase.
Context `{Host} `{JdkProvider}.

Definition parseVersion (versionStr : string) : Outcome (string * bool) :=
  let '(cleanedVersion, isStable) :=
    if Js.endsWith versionStr "-ea" then (Js.stripSuffix versionStr "-ea", false)
    else if Js.includes versionStr "-ea." then (Js.replace versionStr "-ea." "+", false)
    else (versionStr, true) in
  if Semver.validRange semver_otherRanges cleanedVersion
  then Ok (cleanedVersion, isStable)
  else Throw ("The string '" +:+ versionStr +:+
    "' is not valid SemVer notation for a Java version. Please check README file for code snippets and more detailed information").

(** The constructor. *)
Definition newInstaller (name : string) : Outcome Installer :=
  match parseVersion "11" with
  | Ok (version, stable) => Ok (mkInstaller name version os_arch "jdk" stable false)
  | Throw e => Throw e
  | Exit c => Exit c
  end.

Definition cachedToolDirectory (this : Installer) : string :=
  "Java_" +:+ distributionName this +:+ "_" +:+ distributionType this.

Definition formatCacheVersionName (this : Installer) (versionString : string) : string :=
  let isEarlyAccess := negb (isStableRelease this) in
  if isEarlyAccess then
    if Js.includes versionString "+" then Js.replace versionString "+" "-ea."
    else versionString +:+ "-ea"
  else Js.replace versionString "+" "-".

Definition normalizeVersionString (versionStr : string) : string :=
  Js.replace (Js.stripSuffix (Js.replace versionStr "-ea." "+") "-ea") "-" "+".

Definition getCachedVersionsList (this : Installer) : M (list CacheEntry) :=
  names <- tc_findAllVersions (cachedToolDirectory this) (systemArchitecture this) ;;
  entries <- mapM (fun versionStr =>
                     let normalizedVersion := normalizeVersionString versionStr in
                     found <- findCachedTool (cachedToolDirectory this) versionStr
                                (systemArchitecture this) ;;
                     let toolPath := nullish found "" in
                     let isStable := negb (Js.includes versionStr "-ea") in
                     ret (mkCacheEntry normalizedVersion toolPath isStable))
               names ;;
  ret (List.filter (fun entry => Bool.eqb (entry_stable entry) (isStableRelease this))
         entries).

Definition descendingBuild (first second : CacheEntry) : option Z :=
  match Semver.compareBuild (entry_version first) (entry_version second) with
  | Some c => Some (- c)
  | None => None
  end.

Definition filterAndSortVersions (this : Installer) (versions : list CacheEntry)
  : Outcome (list CacheEntry) :=
  match filterO (fun entry => checkVersionCompatibility (jdkVersion this) (entry_version entry))
          versions with
  | Ok compatible =>
      match sortBy descendingBuild
              (List.filter (fun entry => Semver.nonEmpty (entry_path entry)) compatible) with
      | Some sorted => Ok sorted
      | None => Throw "Invalid Version"
      end
  | Throw e => Throw e
  | Exit c => Exit c
  end.

Definition searchToolCache (this : Installer) : M (option JdkSetupResult) :=
  cachedVersions <- getCachedVersionsList this ;;
  matchingVersions <- lift (filterAndSortVersions this cachedVersions) ;;
  match matchingVersions with
  | [] => ret None
  | bestMatch :: _ =>
      ret (Some (mkJdkSetupResult (entry_version bestMatch) (entry_path bestMatch)))
  end.

Definition translateArchitecture (this : Installer) : string :=
  let arch := systemArchitecture this in
  if String.eqb arch "amd64" then "x64"
  else if String.eqb arch "ia32" then "x86"
  else if String.eqb arch "arm64" then "aarch64"
  else arch.

(** [versionStr.split('.')[0]] *)
Definition majorOf (versionStr : string) : string :=
  match Semver.splitOn "." versionStr with
  | m :: _ => m
  | [] => ""
  end.

Definition configureJavaEnvironment (this : Installer) (versionStr installPath : string)
  : M unit :=
  let majorVersionNumber := majorOf versionStr in
  let archUppercase := Js.toUpperCase (systemArchitecture this) in
  exportVariable "JAVA_HOME" installPath ;;;
  addPath (path_join installPath "bin") ;;;
  setOutput "distribution" (OutText (distributionName this)) ;;;
  setOutput "path" (OutText installPath) ;;;
  setOutput "version" (OutText versionStr) ;;;
  exportVariable ("JAVA_HOME_" +:+ majorVersionNumber +:+ "_" +:+ archUppercase) installPath ;;;
  exportVariable "JAVA_VERSION" majorVersionNumber.

(** The calls that reach the network leave a [RemoteEvent] behind. *)
Definition recordRemote (e : RemoteEvent) : M unit :=
  fun w => (Ok tt, addRemote e w).

Definition resolveRemote (this : Installer) (cached : option JdkSetupResult)
  : M JdkSetupResult :=
  info "Resolving latest JDK version from remote" ;;;
  recordRemote (Lookup (jdkVersion this)) ;;;
  releasePackage <- locateReleaseForVersion this (jdkVersion this) ;;
  info ("Latest version identified: " +:+ release_version releasePackage) ;;;
  match cached with
  | Some jdkInstallation =>
      if String.eqb (jdk_version jdkInstallation) (release_version releasePackage) then
        info ("Found JDK " +:+ jdk_version jdkInstallation +:+ " in cache") ;;;
        ret jdkInstallation
      else
        info "Downloading JDK package" ;;;
        recordRemote (Download (release_url releasePackage)) ;;;
        fetched <- fetchJdkArchive this releasePackage ;;
        info ("JDK " +:+ jdk_version fetched +:+ " downloaded successfully") ;;;
        ret fetched
  | None =>
      info "Downloading JDK package" ;;;
      recordRemote (Download (release_url releasePackage)) ;;;
      fetched <- fetchJdkArchive this releasePackage ;;
      info ("JDK " +:+ jdk_version fetched +:+ " downloaded successfully") ;;;
      ret fetched
  end.

(** The macOS layout: [<path>/Contents/Home] replaces the path when it
    exists. *)
Definition adjustForMacOS (installation : JdkSetupResult) : M JdkSetupResult :=
  let macosJdkPath := path_join (jdk_path installation) JAVA_MAC_PATH_SUFFIX in
  found <- existsSync macosJdkPath ;;
  if String.eqb process_platform "darwin" && found
  then ret (mkJdkSetupResult (jdk_version installation) macosJdkPath)
  else ret installation.

Definition performSetup (this : Installer) : M JdkSetupResult :=
  cached <- searchToolCache this ;;
  jdkInstallation <-
    match cached with
    | Some found =>
        if negb (shouldCheckLatest this) then
          info ("Found JDK " +:+ jdk_version found +:+ " in cache") ;;; ret found
        else resolveRemote this cached
    | None => resolveRemote this cached
    end ;;
  jdkInstallation <- adjustForMacOS jdkInstallation ;;
  info ("Configuring JDK " +:+ jdk_version jdkInstallation +:+ " as default") ;;;
  configureJavaEnvironment this (jdk_version jdkInstallation) (jdk_path jdkInstallation) ;;;
  ret jdkInstallation.

End JdkInstallationBase.

(* ===================================================================== *)
(** ** setup-codesigner.ts *)
(* ===================================================================== *)

Definition errorPatterns : list string :=
  ["Error"; "Exception"; "Missing required option"; "Unmatched arguments from";
   "Unmatched argument"].

Definition checkStream (stream : string) : bool :=
  existsb (fun pattern => Js.includes stream pattern) errorPatterns.

Definition hasExecutionError (output : ExecOutput) : bool :=
  checkStream (stdout output) || checkStream (stderr output).

Section SigningToolManager.
Context `{Host}.

Definition isWindows : bool := String.eqb identifyPlatform OS_PLATFORM.WIN_SYSTEM.

(** [getDownloadDetails()]: download URL, launcher script, platform. *)
Definition getDownloadDetails : string * string * string :=
  (if isWindows then PLATFORM_DOWNLOAD_URLS.windows else PLATFORM_DOWNLOAD_URLS.unix,
   if isWindows then EXECUTABLE_SCRIPTS.windows else EXECUTABLE_SCRIPTS.unix,
   identifyPlatform).

Definition configurationFor (environment : string) : string :=
  if String.eqb environment ENV_CONFIG.PRODUCTION
  then PROD_ENV_SETTINGS else SANDBOX_ENV_SETTINGS.

Definition configurationPath (toolPath : string) : string :=
  path_join toolPath "conf/code_sign_tool.properties".

Definition writeConfiguration (toolPath environment : string) : M unit :=
  let configContent := configurationFor environment in
  let configPath := configurationPath toolPath in
  info ("Writing configuration file to " +:+ configPath) ;;;
  writeFileSync configPath configContent.

Definition buildExecutableCommand
  (toolPath scriptName signVersion memoryLimit platform : string) : M string :=
  if String.eqb signVersion SIGN_METHOD.VERSION_ONE then
    let scriptPath := path_join toolPath scriptName in
    scriptContent <- readFileSync scriptPath ;;
    let modifiedContent :=
      Js.replaceAll
        (Js.replaceAll scriptContent "java -jar" ("java -Xmx" +:+ memoryLimit +:+ " -jar"))
        "$@" (dquote +:+ "$@" +:+ dquote) in
    info ("Prepared executable command with memory limit: " +:+ memoryLimit) ;;;
    writeFileSync scriptPath modifiedContent ;;;
    chmodSync scriptPath ;;;
    ret scriptPath
  else
    let template :=
      if String.eqb platform OS_PLATFORM.WIN_SYSTEM
      then JAVA_EXEC_TEMPLATES.windows else JAVA_EXEC_TEMPLATES.unix in
    ret (Js.replaceAll (Js.replaceAll template "${{ CODE_SIGN_TOOL_PATH }}" toolPath)
           "${{ JVM_MAX_MEMORY }}" memoryLimit).

Definition ensureToolDownloaded (baseDir downloadUrl : string) : M string :=
  fun w =>
    let cachedPath := lookupEnv "CODESIGNTOOL_PATH" (env w) in
    let defaultPath := path_join baseDir SIGNING_TOOL_DIR in
    let toolPath := nullish cachedPath defaultPath in
    if existsIn (fs w) toolPath then (Ok toolPath, w)
    else
      (info ("Fetching signing tool from " +:+ downloadUrl) ;;;
       (fun w' => (Ok tt, addRemote (Download downloadUrl) w')) ;;;
       downloadedArchive <- tc_downloadTool downloadUrl ;;
       _dest <- tc_extractZip downloadedArchive (path_join baseDir SIGNING_TOOL_DIR) ;;
       info ("Extracting signing tool archive from " +:+ downloadedArchive
               +:+ " to " +:+ baseDir) ;;;
       extractedDirs <- readdirSync baseDir ;;
       match extractedDirs with
       | first :: _ =>
           let toolPath := path_join baseDir first in
           exportVariable "CODESIGNTOOL_PATH" toolPath ;;; ret toolPath
       | [] =>
           throw pathArgumentUndefined
       end) w.

(** The [environment_name] input as [initialize] reads it (line 90). *)
Definition environmentName : M string :=
  v <- getInput INPUT_KEYS.ENV_NAME ;; ret (Js.orElse v ENV_CONFIG.PRODUCTION).

(** The interpolation [`${shellPrefix}`]. *)
Definition showShell (shellPrefix : option string) : string :=
  nullish shellPrefix "null".

Definition initialize : M string :=
  let workDir := process_cwd in
  debugListDirectory workDir ;;;
  let '(downloadUrl, executableScript, platform) := getDownloadDetails in
  let toolBaseDir := path_join process_cwd "codesign" in
  baseExists <- existsSync toolBaseDir ;;
  (if baseExists : bool then ret tt
   else mkdirSync toolBaseDir ;;;
        info ("Created tool base directory: " +:+ toolBaseDir)) ;;;
  toolPath <- ensureToolDownloaded toolBaseDir downloadUrl ;;
  info ("Signing tool installed at: " +:+ toolPath) ;;;
  debugListDirectory toolPath ;;;
  environment <- environmentName ;;
  memoryInput <- getInput INPUT_KEYS.MEMORY_LIMIT ;;
  let memoryLimit := Js.orElse memoryInput "2048M" in
  versionInput <- getInput INPUT_KEYS.SIGN_VERSION ;;
  let signVersion := Js.orElse versionInput SIGN_METHOD.VERSION_ONE in
  writeConfiguration toolPath environment ;;;
  info ("Configured signing tool path: " +:+ toolPath) ;;;
  exportVariable "CODE_SIGN_TOOL_PATH" toolPath ;;;
  executableCmd <- buildExecutableCommand toolPath executableScript signVersion
                     memoryLimit platform ;;
  shellPrefix <- resolveUserShell signVersion ;;
  info ("Shell command: " +:+ showShell shellPrefix) ;;;
  info ("Executable command: " +:+ executableCmd) ;;;
  ret (Js.trim (showShell shellPrefix +:+ " " +:+ executableCmd)).

Definition scanParamKeys : list string :=
  [INPUT_KEYS.USER; INPUT_KEYS.PASS; INPUT_KEYS.CRED_ID; INPUT_KEYS.PROGRAM].

Fixpoint appendAll (keys : list string) (scanCmd operation : string) : M string :=
  match keys with
  | [] => ret scanCmd
  | key :: rest =>
      scanCmd <- appendParameter key scanCmd operation ;;
      appendAll rest scanCmd operation
  end.

Definition buildScanCommand (operation : string) : M string :=
  appendAll scanParamKeys OPERATIONS.CODE_SCAN operation.

(** The command line that scans one directory entry. *)
Definition completeScanCmd (baseCommand scanCommand targetDirectory entry : string)
  : string :=
  let fullFilePath := path_join targetDirectory entry in
  let scanWithFile :=
    scanCommand +:+ " -input_file_path=" +:+ dquote +:+ fullFilePath +:+ dquote in
  baseCommand +:+ " " +:+ scanWithFile.

(** The [for ... of] loop of [performMalwareScan]. *)
Fixpoint scanEntries (baseCommand scanCommand targetDirectory : string)
  (fileEntries : list string) : M bool :=
  match fileEntries with
  | [] => ret true
  | entry :: rest =>
      info ("Scanning file for malware: " +:+ entry) ;;;
      execResult <- getExecOutput
                      (completeScanCmd baseCommand scanCommand targetDirectory entry) ;;
      if hasExecutionError execResult then ret false
      else scanEntries baseCommand scanCommand targetDirectory rest
  end.

Definition performMalwareScan (baseCommand operation : string) : M bool :=
  scanCommand <- buildScanCommand operation ;;
  dirInput <- fetchInputValue INPUT_KEYS.DIR ;;
  let targetDirectory := path_normalize dirInput in
  fileEntries <- readdirSync targetDirectory ;;
  scanEntries baseCommand scanCommand targetDirectory fileEntries.

End SigningToolManager.

(* ===================================================================== *)
(** ** main.ts *)
(* ===================================================================== *)

Definition digitOf (radix : N) (c : ascii) : option N :=
  let n := N.of_nat (nat_of_ascii c) in
  let d :=
    if (48 <=? n)%N && (n <=? 57)%N then Some (n - 48)%N
    else if (97 <=? n)%N && (n <=? 122)%N then Some (n - 87)%N
    else if (65 <=? n)%N && (n <=? 90)%N then Some (n - 55)%N
    else None in
  match d with
  | Some v => if (v <? radix)%N then Some v else None
  | None => None
  end.

(** The longest prefix of digits, as a number; [None] without a digit. *)
Fixpoint digitsPrefix (radix : N) (acc : option N) (s : string) : option N :=
  match s with
  | EmptyString => acc
  | String c s' =>
      match digitOf radix c with
      | Some d => digitsPrefix radix (Some (nullish acc 0%N * radix + d)%N) s'
      | None => acc
      end
  end.

Definition hexPrefixed (s : string) : option string :=
  match s with
  | String a (String b rest) =>
      if Ascii.eqb a "0" && (Ascii.eqb b "x" || Ascii.eqb b "X") then Some rest else None
  | _ => None
  end.

(** [parseInt(s)] without a radix; [None] is [NaN]. *)
Definition parseInt (s : string) : option Z :=
  let s := Js.trimStart s in
  let '(negative, s) :=
    match s with
    | String c rest =>
        if Ascii.eqb c "-" then (true, rest)
        else if Ascii.eqb c "+" then (false, rest)
        else (false, s)
    | EmptyString => (false, s)
    end in
  let magnitude :=
    match hexPrefixed s with
    | Some rest => digitsPrefix 16 None rest
    | None => digitsPrefix 10 None s
    end in
  match magnitude with
  | Some n => Some (if negative then - Z.of_N n else Z.of_N n)
  | None => None
  end.

(** [`${n}`] for the result of [parseInt] *)
Definition showNumber (n : option Z) : string :=
  match n with Some z => pretty z | None => "NaN" end.

Definition detectExecutionErrors (output : ExecOutput) : bool :=
  let errorIndicators :=
    ["Error"; "Exception"; "Missing required option"; "Unmatched arguments from";
     "Unmatched argument"] in
  let hasError := fun stream : string =>
    existsb (fun indicator => Js.includes stream indicator) errorIndicators in
  hasError (stdout output) || hasError (stderr output).

Definition failureMessage : string := "Something Went Wrong. Please try again.".

Section Main.
Context `{Host} `{JdkProvider}.

Definition isJavaInstallationNeeded : M bool :=
  fun w =>
    let currentVersion := parseInt (nullish (lookupEnv "JAVA_VERSION" (env w)) "0") in
    let minimumRequired := 11 in
    (Ok (match currentVersion with Some v => v <? minimumRequired | None => false end), w).

Definition performLogCleanup (commandPath : string) : M unit :=
  shouldClean <- getBooleanInput INPUT_KEYS.LOG_CLEANUP ;;
  if shouldClean : bool then
    let baseDirectory := path_dirname commandPath in
    let logDirectory := path_join baseDirectory "logs" in
    rmSync logDirectory ;;;
    info ("Log directory cleaned: " +:+ logDirectory)
  else ret tt.

Definition readJavaHome : M string :=
  fun w => (Ok (nullish (lookupEnv "JAVA_HOME" (env w)) ""), w).

Definition setupJavaEnvironment : M string :=
  javaHomePath <- readJavaHome ;;
  javaVer <- (fun w => (Ok (parseInt (nullish (lookupEnv "JAVA_VERSION" (env w)) "0")), w)) ;;
  info ("Java home directory: " +:+ javaHomePath) ;;;
  info ("Java version: " +:+ showNumber javaVer) ;;;
  needed <- isJavaInstallationNeeded ;;
  if needed : bool then
    jdkProvider <- lift (newInstaller "Corretto") ;;
    _installed <- performSetup jdkProvider ;;
    readJavaHome
  else
    info ("Java already installed at: " +:+ javaHomePath) ;;;
    ret javaHomePath.

Definition validateSubscription : M unit :=
  match subscription with
  | Granted => ret tt
  | HttpStatus status =>
      if status =? 403 then
        error "Subscription is not valid. Reach out to support@stepsecurity.io" ;;;
        (fun w => (Exit 1, w))
      else info "Timeout or API not reachable. Continuing to next step."
  | Unreachable => info "Timeout or API not reachable. Continuing to next step."
  end.

(** Lines 86-100 of [main]: everything up to the assembled commands.
    Returns the operation, the tool invocation and the full command. *)
Definition prepare : M (string * string * string) :=
  operationType <- getInput INPUT_KEYS.CMD ;;
  commandParameters <- assembleCommandString operationType ;;
  info ("Command parameters: " +:+ commandParameters) ;;;
  javaPath <- setupJavaEnvironment ;;
  toolCommand <- initialize ;;
  let toolCommand := Js.replaceAll toolCommand "${{ JAVA_HOME }}" (javaPath +:+ "/bin/java") in
  let fullCommand := toolCommand +:+ " " +:+ commandParameters in
  info ("Executing signing command: " +:+ fullCommand) ;;;
  ret (operationType, toolCommand, fullCommand).

Definition shouldScanIn (e : list (string * string)) : bool :=
  String.eqb (Js.toUpperCase (getInputIn e INPUT_KEYS.MALWARE_CHECK)) "TRUE".

(** Lines 98-109: the optional malware scan.  [false]: the run has been
    reported as failed and must stop. *)
Definition scanGate (operationType toolCommand : string) : M bool :=
  malwareScanEnabled <- getInput INPUT_KEYS.MALWARE_CHECK ;;
  let shouldScan := String.eqb (Js.toUpperCase malwareScanEnabled) "TRUE" in
  info ("Malware scanning: " +:+ (if shouldScan then "enabled" else "disabled")) ;;;
  if String.eqb operationType OPERATIONS.BULK_SIGN && shouldScan then
    scanSuccess <- performMalwareScan toolCommand operationType ;;
    if negb scanSuccess then
      info "" ;;; setFailed failureMessage ;;; ret false
    else ret true
  else ret true.

(** Lines 111-121: run the signing command and classify its output. *)
Definition signAndReport (fullCommand : string) : M unit :=
  executionResult <- getExecOutput fullCommand ;;
  performLogCleanup fullCommand ;;;
  if detectExecutionErrors executionResult then
    info "" ;;; setFailed failureMessage
  else setOutput "CodeSigner" (OutExec executionResult).

Definition main : M unit :=
  tryCatch
    (validateSubscription ;;;
     plan <- prepare ;;
     let '(operationType, toolCommand, fullCommand) := plan in
     proceed <- scanGate operationType toolCommand ;;
     if proceed : bool then signAndReport fullCommand else ret tt)
    (fun message => setFailed message).

End Main.

(* ===================================================================== *)
(** ** A POSIX host

    Node's [path.posix] functions and a host built from them, used to
    run the definitions above on concrete inputs. *)
(* ===================================================================== *)

Module Posix.

Fixpoint joinWith (sep : string) (pieces : list string) : string :=
  match pieces with
  | [] => ""
  | [p] => p
  | p :: rest => p +:+ sep +:+ joinWith sep rest
  end.

(** [normalizeString]: [stack] holds the segments kept so far, newest
    first. *)
Fixpoint normalizeSegments (allowAboveRoot : bool) (stack segments : list string)
  : list string :=
  match segments with
  | [] => rev stack
  | s :: rest =>
      if String.eqb s "" || String.eqb s "." then
        normalizeSegments allowAboveRoot stack rest
      else if String.eqb s ".." then
        match stack with
        | top :: below =>
            if String.eqb top ".." then normalizeSegments allowAboveRoot (s :: stack) rest
            else normalizeSegments allowAboveRoot below rest
        | [] =>
            if allowAboveRoot then normalizeSegments allowAboveRoot [s] rest
            else normalizeSegments allowAboveRoot [] rest
        end
      else normalizeSegments allowAboveRoot (s :: stack) rest
  end.

(** [path.posix.normalize] *)
Definition normalize (p : string) : string :=
  if String.eqb p "" then "."
  else
    let isAbsolute := Js.startsWith p "/" in
    let trailingSeparator := Js.endsWith p "/" in
    let body :=
      joinWith "/" (normalizeSegments (negb isAbsolute) [] (Semver.splitOn "/" p)) in
    if String.eqb body "" then
      if isAbsolute then "/" else if trailingSeparator then "./" else "."
    else
      let body := if trailingSeparator then body +:+ "/" else body in
      if isAbsolute then "/" +:+ body else body.

(** [path.posix.join(a, b)] *)
Definition join (a b : string) : string :=
  if String.eqb a "" then normalize b
  else if String.eqb b "" then normalize a
  else normalize (a +:+ "/" +:+ b).

Fixpoint hasName (s : string) : bool :=
  match s with
  | EmptyString => false
  | String c s' => negb (Ascii.eqb c "/") || hasName s'
  end.

(** Index of the separator that ends the directory part: the last [/]
    at a position [>= 1] with a name after it. *)
Fixpoint directoryEnd (i : nat) (s : string) : option nat :=
  match s with
  | EmptyString => None
  | String c s' =>
      match directoryEnd (S i) s' with
      | Some e => Some e
      | None =>
          if Ascii.eqb c "/" && hasName s' && Nat.leb 1 i then Some i else None
      end
  end.

Fixpoint sliceTo (n : nat) (s : string) : string :=
  match n, s with
  | S n', String c s' => String c (sliceTo n' s')
  | _, _ => EmptyString
  end.

(** [path.posix.dirname] *)
Definition dirname (p : string) : string :=
  if String.eqb p "" then "."
  else
    let hasRoot := Js.startsWith p "/" in
    match directoryEnd 0 p with
    | None => if hasRoot then "/" else "."
    | Some e => if hasRoot && Nat.eqb e 1 then "//" else sliceTo e p
    end.

(** [path.posix.basename] *)
Definition basename (p : string) : string :=
  List.last (List.filter Semver.nonEmpty (Semver.splitOn "/" p)) "".

(** [path.posix.resolve(p)] in the working directory [cwd] *)
Definition resolve (cwd p : string) : string :=
  let absolute := if Js.startsWith p "/" then p else cwd +:+ "/" +:+ p in
  "/" +:+ joinWith "/" (normalizeSegments false [] (Semver.splitOn "/" absolute)).

Definition offline {A} (what : string) : M A :=
  throw ("network unavailable: " +:+ what).

(** The sort of the V8 engine on fewer than 64 elements: the leading
    run, reversed when it descends strictly, then binary insertion of
    the remaining elements.  [runEnd] counts the elements after the
    second one that continue the run. *)
Fixpoint runEnd (c : nat -> nat -> Z) (descending : bool) (previous : nat)
  (rest : list nat) : nat :=
  match rest with
  | [] => O
  | current :: rest' =>
      let order := c current previous in
      if (if descending then order <? 0 else 0 <=? order)
      then S (runEnd c descending current rest')
      else O
  end.

Fixpoint insertionPoint (c : nat -> nat -> Z) (pivot : nat) (sorted : list nat)
  (fuel left right : nat) : nat :=
  match fuel with
  | O => left
  | S fuel' =>
      if Nat.ltb left right then
        let mid := (left + Nat.div2 (right - left))%nat in
        if c pivot (nth mid sorted O) <? 0
        then insertionPoint c pivot sorted fuel' left mid
        else insertionPoint c pivot sorted fuel' (S mid) right
      else left
  end.

Fixpoint binaryInsertion (c : nat -> nat -> Z) (sorted rest : list nat) : list nat :=
  match rest with
  | [] => sorted
  | pivot :: rest' =>
      let position :=
        insertionPoint c pivot sorted (S (List.length sorted)) O (List.length sorted) in
      binaryInsertion c (take position sorted ++ pivot :: drop position sorted) rest'
  end.

Definition v8Order (n : nat) (c : nat -> nat -> Z) : list nat :=
  match seq 0 n with
  | first :: second :: rest =>
      let descending := c second first <? 0 in
      let run := (2 + runEnd c descending second rest)%nat in
      let head := take run (seq 0 n) in
      binaryInsertion c (if descending then rev head else head) (drop run (seq 0 n))
  | short => short
  end.

(** A Unix-like machine without network access. *)
Definition host (platform : string) (userShell : Outcome (option string))
  (replies : nat -> string -> ProcessReply) : Host :=
  {| path_normalize := normalize;
     path_join := join;
     path_dirname := dirname;
     path_basename := basename;
     path_resolve := resolve "/work";
     path_sep := "/";
     process_platform := platform;
     process_cwd := "/work";
     os_arch := "x64";
     os_tmpdir := "/tmp";
     os_userInfo := userShell;
     semver_otherRanges := fun _ => None;
     exec_reply := replies;
     subscription := Granted;
     tc_downloadTool := fun url => offline url;
     tc_extractZip := fun archive _ => offline archive;
     sort_unspecified := v8Order |}.

(** A distribution that cannot be reached. *)
Definition unreachableProvider : JdkProvider :=
  {| locateReleaseForVersion := fun _ range => offline range;
     fetchJdkArchive := fun _ release => offline (release_url release) |}.

Definition emptyWorld (f : gmap string Node) (e : list (string * string)) : World :=
  mkWorld f e [] [] [] [] [] [] None.

End Posix.

(* ===================================================================== *)
(** ** Vocabulary of the statements *)
(* ===================================================================== *)

(** [range] is an exact version that carries build metadata. *)
Definition exactWithBuild (range : string) : bool :=
  match Semver.parse range with
  | Some v => match Semver.build v with [] => false | _ :: _ => true end
  | None => false
  end.

(** The value [fetchInputValue] resolves for a key in a given
    environment. *)
Definition inputValueIn (e : list (string * string)) (inputKey : string) : string :=
  expandWith e (getInputIn e inputKey).

(** The key is on the allow-list of the operation. *)
Definition allowed (action inputKey : string) : Prop :=
  exists keys, COMMAND_PARAMETERS !! action = Some keys /\ In inputKey keys.

(** The candidate keys, in the order [assembleCommandString] visits them. *)
Definition candidateKeys : list string :=
  [INPUT_KEYS.USER; INPUT_KEYS.PASS; INPUT_KEYS.CRED_ID; INPUT_KEYS.TOTP;
   INPUT_KEYS.PROGRAM; INPUT_KEYS.FILE; INPUT_KEYS.DIR; INPUT_KEYS.OUTPUT;
   INPUT_KEYS.FORCE_OVERRIDE; INPUT_KEYS.MALWARE_CHECK].

Section Fragments.
Context `{Host}.

(** The flag fragment of a candidate key carrying the value [v]. *)
Definition fragmentOf (inputKey v : string) : string :=
  if String.eqb inputKey INPUT_KEYS.USER then quotedFlag "username" v
  else if String.eqb inputKey INPUT_KEYS.PASS then quotedFlag "password" v
  else if String.eqb inputKey INPUT_KEYS.CRED_ID then quotedFlag "credential_id" v
  else if String.eqb inputKey INPUT_KEYS.TOTP then quotedFlag "totp_secret" v
  else if String.eqb inputKey INPUT_KEYS.PROGRAM then quotedFlag "program_name" v
  else if String.eqb inputKey INPUT_KEYS.FILE then
    quotedFlag "input_file_path" (path_normalize v)
  else if String.eqb inputKey INPUT_KEYS.DIR then
    quotedFlag "input_dir_path" (path_normalize v)
  else if String.eqb inputKey INPUT_KEYS.OUTPUT then
    quotedFlag "output_dir_path" (path_normalize v)
  else if String.eqb inputKey INPUT_KEYS.MALWARE_CHECK then plainFlag "malware_block" v
  else if String.eqb inputKey INPUT_KEYS.FORCE_OVERRIDE then plainFlag "override" v
  else "".

(** The key has a value and is allowed: the builder emits its flag. *)
Definition emits (e : list (string * string)) (action inputKey : string) : bool :=
  Semver.nonEmpty (inputValueIn e inputKey) && supports action inputKey.

Definition fragmentIn (e : list (string * string)) (inputKey : string) : string :=
  fragmentOf inputKey (inputValueIn e inputKey).

(** What one builder step adds to the command. *)
Definition appended (e : list (string * string)) (action inputKey : string) : string :=
  if emits e action inputKey then fragmentIn e inputKey else "".

Fixpoint concatAll (pieces : list string) : string :=
  match pieces with
  | [] => ""
  | p :: rest => p +:+ concatAll rest
  end.

End Fragments.

Section ScanVocabulary.
Context `{Host}.

(** The world after the listed entries have been scanned one after the
    other: each scan writes its log line and spawns its command. *)
Fixpoint scanned (baseCommand scanCommand targetDirectory : string)
  (entries : list string) (w : World) : World :=
  match entries with
  | [] => w
  | entry :: rest =>
      scanned baseCommand scanCommand targetDirectory rest
        (addSpawned (completeScanCmd baseCommand scanCommand targetDirectory entry)
           (addInfo ("Scanning file for malware: " +:+ entry) w))
  end.

(** The scan sub-command of an operation in a given environment: the
    [scan_code] token and the flags of the four credential keys. *)
Definition scanCommandIn (e : list (string * string)) (operation : string) : string :=
  OPERATIONS.CODE_SCAN +:+ concatAll (map (appended e operation) scanParamKeys).

End ScanVocabulary.

(* ===================================================================== *)
(** ** Sample runs on the POSIX host *)
(* ===================================================================== *)

Module Scenario.

Definition toolRoot : string := "/work/codesign/CodeSignTool-v1.3.0".

(** A runner with the signing tool unpacked and three files to sign. *)
Definition disk : gmap string Node :=
  <["/" := Dir ["work"]]>
  (<["/work" := Dir ["codesign"; "in"]]>
  (<["/work/codesign" := Dir ["CodeSignTool-v1.3.0"]]>
  (<[toolRoot := Dir ["conf"; "CodeSignTool.sh"]]>
  (<[toolRoot +:+ "/conf" := Dir []]>
  (<[toolRoot +:+ "/CodeSignTool.sh" := File "java -jar code_sign_tool.jar $@"]>
  (<["/work/in" := Dir ["a.exe"; "b.exe"; "c.exe"]]>
  (<["/work/in/a.exe" := File "MZ-a"]>
  (<["/work/in/b.exe" := File "MZ-b"]>
  (<["/work/in/c.exe" := File "MZ-c"]> ∅))))))))).

Definition credentials : list (string * string) :=
  [("INPUT_USERNAME", "alice"); ("INPUT_PASSWORD", "${SECRET}");
   ("INPUT_CREDENTIAL_ID", "cred-1"); ("INPUT_TOTP_SECRET", "totp");
   ("INPUT_CLEAN_LOGS", "true"); ("SECRET", "s3cr3t");
   ("JAVA_HOME", "/opt/java"); ("JAVA_VERSION", "17")].

Definition signRun : World :=
  Posix.emptyWorld disk
    (("INPUT_COMMAND", "sign") :: ("INPUT_FILE_PATH", "/work/in/a.exe") :: credentials).

Definition batchRun : World :=
  Posix.emptyWorld disk
    (("INPUT_COMMAND", "batch_sign") :: ("INPUT_DIR_PATH", "/work/in")
       :: ("INPUT_MALWARE_BLOCK", "true") :: credentials).

Definition signed : ExecOutput := mkExecOutput 0 "Code signed successfully" "".
Definition clean : ExecOutput := mkExecOutput 0 "Scan result: clean" "".
Definition infected : ExecOutput :=
  mkExecOutput 0 "" "java.lang.Exception: malware detected".

Definition refused : ExecOutput := mkExecOutput 1 "Invalid credentials" "".

(** Every process reports success. *)
Definition quiet : Host :=
  Posix.host "linux" (Ok (Some "/bin/bash")) (fun _ _ => Exited signed).

(** The second process spawned reports an exception. *)
Definition secondFails : Host :=
  Posix.host "linux" (Ok (Some "/bin/bash"))
    (fun n _ => if Nat.eqb n 1 then Exited infected else Exited clean).

(** Every process ends with status 1 and an output free of markers. *)
Definition refusing : Host :=
  Posix.host "linux" (Ok (Some "/bin/bash")) (fun _ _ => Exited refused).

End Scenario.

(* ===================================================================== *)
(** ** Vocabulary for the JDK cache *)
(* ===================================================================== *)

Section CacheVocabulary.
Context `{Host}.

(** The directory names [tc.findAllVersions] reports for the installer;
    none when the call raises. *)
Definition listedVersions (this : Installer) (w : World) : list string :=
  match fst (tc_findAllVersions (cachedToolDirectory this) (systemArchitecture this) w) with
  | Ok names => names
  | _ => []
  end.

(** The entry [getCachedVersionsList] builds for one directory name. *)
Definition entryOf (this : Installer) (w : World) (versionStr : string) : CacheEntry :=
  let toolCacheRoot := nullish (lookupEnv "RUNNER_TOOL_CACHE" (env w)) "" in
  let fullPath :=
    join4 toolCacheRoot (cachedToolDirectory this) versionStr (systemArchitecture this) in
  mkCacheEntry (normalizeVersionString versionStr)
    (if existsIn (fs w) fullPath then fullPath else "")
    (negb (Js.includes versionStr "-ea")).

(** The cached versions whose stability matches the installer. *)
Definition cachedEntries (this : Installer) (w : World) : list CacheEntry :=
  List.filter (fun entry => Bool.eqb (entry_stable entry) (isStableRelease this))
    (map (entryOf this w) (listedVersions this w)).

(** Those of them that satisfy the requested range and have a path. *)
Definition candidates (this : Installer) (w : World) : list CacheEntry :=
  List.filter (fun entry => Semver.nonEmpty (entry_path entry))
    (List.filter
       (fun entry => Semver.satisfies semver_otherRanges (entry_version entry) (jdkVersion this))
       (cachedEntries this w)).

End CacheVocabulary.

(** [a] is not below [b] in build-aware order. *)
Definition notBelow (a b : string) : bool :=
  match Semver.compareBuild a b with
  | Some c => 0 <=? c
  | None => false
  end.

(** The number the comparator answers for [a] and [b]. *)
Definition answerOf {A} (comparator : A -> A -> option Z) (a b : A) : Z :=
  match comparator a b with Some c => c | None => 0 end.

(** [precedes comparator a b]: the comparator lets [a] stand before [b]. *)
Definition precedes {A} (comparator : A -> A -> option Z) (a b : A) : Prop :=
  exists c, comparator a b = Some c /\ c <= 0.

(** The head of the list precedes every element. *)
Definition headFirst {A} (comparator : A -> A -> option Z) (l : list A) : Prop :=
  match l with
  | [] => True
  | h :: _ => forall y, In y l -> precedes comparator h y
  end.

Module JdkScenario.

Definition toolCache : string := "/opt/hostedtoolcache".

Definition toolDirectory : string := toolCache +:+ "/Java_Corretto_jdk".

Definition cacheDir (name : string) : string :=
  toolDirectory +:+ "/" +:+ name +:+ "/x64".

(** What [tc.cacheDir] leaves for each version: the directory of the
    architecture and the marker file next to it. *)
Fixpoint installed (names : list string) : gmap string Node :=
  match names with
  | [] => ∅
  | name :: rest =>
      <[cacheDir name := Dir ["bin"]]>
      (<[cacheDir name +:+ ".complete" := File ""]>
      (<[toolDirectory +:+ "/" +:+ name := Dir ["x64"; "x64.complete"]]> (installed rest)))
  end.

(** A disk whose tool cache holds the given versions of Corretto. *)
Definition diskOf (names : list string) : gmap string Node :=
  <["/" := Dir ["opt"]]>
  (<["/opt" := Dir ["hostedtoolcache"]]>
  (<[toolCache := Dir ["Java_Corretto_jdk"]]>
  (<[toolDirectory := Dir names]> (installed names)))).

(** A Linux runner. *)
Definition runner : Host :=
  Posix.host "linux" (Ok (Some "/bin/bash")) (fun _ _ => NotStarted "no process").

Definition start (names : list string) : World :=
  Posix.emptyWorld (diskOf names) [("RUNNER_TOOL_CACHE", toolCache); ("JAVA_VERSION", "8")].

Definition corretto : Installer := mkInstaller "Corretto" "11" "x64" "jdk" true false.

End JdkScenario.
(* ===================================================================== *)
(** ** Vocabulary for interpolation (expandEnvironmentVars) *)
(* ===================================================================== *)

(** [pieces.join(sep)] *)
Fixpoint arrayJoin (sep : string) (pieces : list string) : string :=
  match pieces with
  | [] => ""
  | [p] => p
  | p :: rest => p +:+ sep +:+ arrayJoin sep rest
  end.

(** The marker [expandEnvironmentVars] looks for: [${NAME}]. *)
Definition markerOf (name : string) : string := "${" +:+ name +:+ "}".

(** A variable name without [$] and without a closing brace. *)
Definition plainName (name : string) : bool :=
  Nat.eqb (Js.count "$" name) 0 && Nat.eqb (Js.count "}" name) 0.

(* ===================================================================== *)
(** ** Hosts for sample runs *)
(* ===================================================================== *)

(** The host [h] with another answer of the subscription service. *)
Definition withSubscription (reply : SubscriptionReply) (h : Host) : Host :=
  {| path_normalize := @path_normalize h;
     path_join := @path_join h;
     path_dirname := @path_dirname h;
     path_basename := @path_basename h;
     path_resolve := @path_resolve h;
     path_sep := @path_sep h;
     process_platform := @process_platform h;
     process_cwd := @process_cwd h;
     os_arch := @os_arch h;
     os_tmpdir := @os_tmpdir h;
     os_userInfo := @os_userInfo h;
     semver_otherRanges := @semver_otherRanges h;
     exec_reply := @exec_reply h;
     subscription := reply;
     tc_downloadTool := @tc_downloadTool h;
     tc_extractZip := @tc_extractZip h;
     sort_unspecified := @sort_unspecified h |}.

(** The values [core.getBooleanInput] accepts. *)
Definition yamlTrue : list string := ["true"; "True"; "TRUE"].
Definition yamlFalse : list string := ["false"; "False"; "FALSE"].

(** The texts of [validateSubscription]. *)
Definition subscriptionDenied : string :=
  "Subscription is not valid. Reach out to support@stepsecurity.io".
Definition subscriptionSkipped : string :=
  "Timeout or API not reachable. Continuing to next step.".

(** The sample signing run with a [clean_logs] input that is no YAML
    boolean. *)
Definition signRunYes : World :=
  setEnv (assignEnv "INPUT_CLEAN_LOGS" "yes" (env Scenario.signRun)) Scenario.signRun.

Definition signRunTool : string :=
  "/bin/bash /work/codesign/CodeSignTool-v1.3.0/CodeSignTool.sh".

Definition signRunCommand : string :=
  signRunTool +:+ " sign"
    +:+ quotedFlag "username" "alice" +:+ quotedFlag "password" "s3cr3t"
    +:+ quotedFlag "credential_id" "cred-1" +:+ quotedFlag "totp_secret" "totp"
    +:+ quotedFlag "input_file_path" "/work/in/a.exe".

(** The three place holders of the command templates. *)
Definition JAVA_HOME_HOLDER : string := "${{ JAVA_HOME }}".
Definition TOOL_PATH_HOLDER : string := "${{ CODE_SIGN_TOOL_PATH }}".
Definition MEMORY_HOLDER : string := "${{ JVM_MAX_MEMORY }}".

(** The jar below the tool directory, as the templates spell it. *)
Definition jarBelow (platform : string) : string :=
  if String.eqb platform OS_PLATFORM.WIN_SYSTEM
  then "\jar\" +:+ JAR_FILE_PATH else "/jar/" +:+ JAR_FILE_PATH.

(* ===================================================================== *)
(** ** Frames: what a computation leaves alone *)
(* ===================================================================== *)

(** No release index was consulted and no archive fetched. *)
Definition noTraffic (w w' : World) : Prop := remote w' = remote w.

(** Moreover no process was spawned, no output published and the
    failure message is the same. *)
Definition sameTraffic (w w' : World) : Prop :=
  remote w' = remote w /\ spawned w' = spawned w
  /\ outputs w' = outputs w /\ failure w' = failure w.

(** Moreover the environment and the search path are the same and every
    path that existed still exists. *)
Definition settled `{Host} (w w' : World) : Prop :=
  sameTraffic w w' /\ env w' = env w /\ searchPath w' = searchPath w
  /\ forall q, existsIn (fs w) q = true -> existsIn (fs w') q = true.

(** Every run of [m], however it ends, takes a world to a world related
    by [R]. *)
Definition preserves {A} (R : World -> World -> Prop) (m : M A) : Prop :=
  forall w o w', m w = (o, w') -> R w w'.

(** The answer of [isJavaInstallationNeeded] in a given environment. *)
Definition javaNeededIn (e : list (string * string)) : bool :=
  match parseInt (nullish (lookupEnv "JAVA_VERSION" e) "0") with
  | Some v => v <? 11
  | None => false
  end.

Section ToolPath.
Context `{Host}.

(** Where [ensureToolDownloaded] expects the signing tool. *)
Definition toolPathIn (e : list (string * string)) : string :=
  nullish (lookupEnv "CODESIGNTOOL_PATH" e)
    (path_join (path_join process_cwd "codesign") SIGNING_TOOL_DIR).

End ToolPath.

(* ===================================================================== *)
(** ** setup-jdk-installer.ts: the Corretto distribution, and
       unpackJavaArchive of util.ts *)
(* ===================================================================== *)

(** A JavaScript object used as a dictionary: its own properties in the
    order in which [for ... in] visits them. *)
Definition JsObject (A : Type) : Type := list (string * A).

(** [o[name]]; [None] is [undefined]. *)
Fixpoint property {A} (name : string) (o : JsObject A) : option A :=
  match o with
  | [] => None
  | (k, v) :: rest => if String.eqb k name then Some v else property name rest
  end.

(** A leaf of the index of Corretto downloads. *)
Record CorrettoArchive := mkCorrettoArchive {
  archive_checksum : string;
  archive_checksum_sha256 : string;
  archive_resource : string
}.

(** [CorrettoVersionIndex['os']['arch']['imageType']]: version, then
    file type. *)
Definition CorrettoImages : Type := JsObject (JsObject CorrettoArchive).

(** Operating system, architecture, image type. *)
Definition CorrettoVersionIndex : Type := JsObject (JsObject (JsObject CorrettoImages)).

Record CorrettoVersionDetails := mkCorrettoVersionDetails {
  version : string;
  fileType : string;
  checksum : string;
  checksum_sha256 : string;
  resource : string;
  downloadLink : string;
  correttoVersion : string
}.

(** What the Corretto provider needs from outside: the HTTP client
    ([response.result], [None] for [null]), the debug switch, Node's
    [path.extname] and the unpacking and caching operations of the
    tool-cache package. *)
Class CorrettoRuntime := {
  http_getJson : string -> M (option CorrettoVersionIndex);
  core_isDebug : bool;
  path_extname : string -> string;
  tc_extractTar : string -> M string;
  tc_extractZipHere : string -> M string;
  tc_extract7z : string -> M string;
  tc_cacheDir : string -> string -> string -> string -> M string
}.

(** Line terminators, which the dot of a regular expression does not
    match. *)
Definition isLineTerminator (c : ascii) : bool :=
  Ascii.eqb c "010" || Ascii.eqb c "013".

(** The text up to the last [/] of the current line: what a greedy [.*]
    followed by [\/] consumes. *)
Fixpoint uptoLastSlash (s : string) : option string :=
  match s with
  | EmptyString => None
  | String c s' =>
      if isLineTerminator c then None
      else
        match uptoLastSlash s' with
        | Some t => Some (String c t)
        | None => if Ascii.eqb c "/" then Some EmptyString else None
        end
  end.

(** One attempt to match [/(\d+.+)\//] at the start of [s]; the result
    is the capture group: a digit, at least one more character, and
    everything up to the last [/] of the line. *)
Definition versionPatternAt (s : string) : option string :=
  match s with
  | String c (String c1 s2) =>
      if Semver.isDigit c && negb (isLineTerminator c1) then
        match uptoLastSlash s2 with
        | Some t => Some (String c (String c1 t))
        | None => None
        end
      else None
  | _ => None
  end.

(** [/(\d+.+)\//.exec(s)]: the leftmost position with a match. *)
Fixpoint versionPattern_exec (s : string) : option string :=
  match versionPatternAt s with
  | Some group => Some group
  | None =>
      match s with
      | EmptyString => None
      | String _ s' => versionPattern_exec s'
      end
  end.

Section UnpackJavaArchive.
Context `{Host} `{CorrettoRuntime}.

(** [unpackJavaArchive(toolPath, extension?)]; [None] and the empty
    text are the falsy values of [extension]. *)
Definition unpackJavaArchive (toolPath : string) (extension : option string) : M string :=
  let fileExtension :=
    if Semver.nonEmpty (nullish extension "") then nullish extension ""
    else
      let fileExtension :=
        if Js.endsWith toolPath ".tar.gz" then "tar.gz" else path_extname toolPath in
      if Js.startsWith fileExtension "." then Js.sliceFrom 1 fileExtension
      else fileExtension in
  if String.eqb fileExtension "tar.gz" || String.eqb fileExtension "tar"
  then tc_extractTar toolPath
  else if String.eqb fileExtension "zip" then tc_extractZipHere toolPath
  else tc_extract7z toolPath.

End UnpackJavaArchive.

Module CorrettoJdkProvider.

Definition findMatchingReleases (releases : list CorrettoVersionDetails)
  (targetVersion : string) : list JdkReleaseInfo :=
  map (fun release => mkJdkReleaseInfo (correttoVersion release) (downloadLink release))
    (List.filter (fun release => String.eqb (version release) targetVersion) releases).

Definition formatVersionList (releases : list CorrettoVersionDetails) : string :=
  arrayJoin ", " (map version releases).

Definition extractVersionFromPath (resourcePath : string) : Outcome string :=
  match versionPattern_exec resourcePath with
  | Some matched => Ok matched
  | None => Throw ("Could not parse corretto version from " +:+ resourcePath)
  end.

Definition versionIndexUrl : string :=
  "https://corretto.github.io/corretto-downloads/latest_links/indexmap_with_checksum.json".

Section WithHost.
Context `{Host} `{CorrettoRuntime}.

Definition determinePlatformName : string :=
  if String.eqb process_platform "darwin" then "macos"
  else if String.eqb process_platform "win32" then "windows"
  else process_platform.

(** The inner loop of [extractPlatformVersions]: the archives of one
    version. *)
Fixpoint collectArchives (versionKey : string) (versionEntry : JsObject CorrettoArchive)
  (versions : list CorrettoVersionDetails) : Outcome (list CorrettoVersionDetails) :=
  match versionEntry with
  | [] => Ok versions
  | (archiveType, releaseDetails) :: rest =>
      let expectedFormat := detectArchiveFormat in
      if negb (String.eqb archiveType expectedFormat) then
        collectArchives versionKey rest versions
      else
        match extractVersionFromPath (archive_resource releaseDetails) with
        | Ok extractedVersion =>
            collectArchives versionKey rest
              (versions ++
               [mkCorrettoVersionDetails versionKey archiveType
                  (archive_checksum releaseDetails) (archive_checksum_sha256 releaseDetails)
                  (archive_resource releaseDetails)
                  ("https://corretto.aws" +:+ archive_resource releaseDetails)
                  extractedVersion])
        | Throw e => Throw e
        | Exit c => Exit c
        end
  end.

(** The outer loop. *)
Fixpoint collectVersions (versionData : CorrettoImages)
  (versions : list CorrettoVersionDetails) : Outcome (list CorrettoVersionDetails) :=
  match versionData with
  | [] => Ok versions
  | (versionKey, versionEntry) :: rest =>
      match collectArchives versionKey versionEntry versions with
      | Ok versions => collectVersions rest versions
      | Throw e => Throw e
      | Exit c => Exit c
      end
  end.

Definition extractPlatformVersions (versionData : option CorrettoImages)
  : Outcome (list CorrettoVersionDetails) :=
  match versionData with
  | None => Ok []
  | Some versionData => collectVersions versionData []
  end.

(** The summary goes to the console, which is not recorded. *)
Definition logAvailableVersions (versions : list CorrettoVersionDetails) : M unit :=
  ret tt.

Definition fetchAvailableReleases (this : Installer) : M (list CorrettoVersionDetails) :=
  let osType := determinePlatformName in
  let architecture := translateArchitecture this in
  let packageType := distributionType this in
  let debugMode := core_isDebug in
  versionData <- http_getJson versionIndexUrl ;;
  match versionData with
  | None => throw ("Could not fetch latest corretto versions from " +:+ versionIndexUrl)
  | Some versionData =>
      let platformVersions :=
        match property osType versionData with
        | Some byArchitecture =>
            match property architecture byArchitecture with
            | Some byPackage => property packageType byPackage
            | None => None
            end
        | None => None
        end in
      processedVersions <- lift (extractPlatformVersions platformVersions) ;;
      (if debugMode then logAvailableVersions processedVersions else ret tt) ;;;
      ret processedVersions
  end.

Definition locateReleaseForVersion (this : Installer) (versionStr : string)
  : M JdkReleaseInfo :=
  if negb (isStableRelease this) then throw "Early access versions are not supported"
  else if Js.includes versionStr "." then throw "Only major versions are supported"
  else
    availableReleases <- fetchAvailableReleases this ;;
    let compatibleReleases := findMatchingReleases availableReleases versionStr in
    match compatibleReleases with
    | selectedRelease :: _ => ret selectedRelease
    | [] =>
        let versionList := formatVersionList availableReleases in
        let errorSuffix :=
          if Semver.nonEmpty versionList
          then newline +:+ "Available versions: " +:+ versionList else "" in
        throw ("Could not find satisfied version for SemVer '" +:+ versionStr +:+ "'. "
                 +:+ errorSuffix)
    end.

Definition fetchJdkArchive (this : Installer) (releaseInfo : JdkReleaseInfo)
  : M JdkSetupResult :=
  info ("Downloading JDK " +:+ release_version releaseInfo +:+ " from "
          +:+ release_url releaseInfo) ;;;
  downloadedArchive <- tc_downloadTool (release_url releaseInfo) ;;
  info "Extracting JDK archive" ;;;
  extractedDirectory <- unpackJavaArchive downloadedArchive (Some detectArchiveFormat) ;;
  directoryContents <- readdirSync extractedDirectory ;;
  match directoryContents with
  | first :: _ =>
      let jdkDirectory := path_join extractedDirectory first in
      let formattedVersion := formatCacheVersionName this (release_version releaseInfo) in
      cachedJdkPath <- tc_cacheDir jdkDirectory (cachedToolDirectory this) formattedVersion
                         (systemArchitecture this) ;;
      ret (mkJdkSetupResult (release_version releaseInfo) cachedJdkPath)
  | [] => throw pathArgumentUndefined
  end.

End WithHost.

End CorrettoJdkProvider.

(** [new CorrettoJdkProvider()] as an implementation of the two
    abstract methods. *)
Definition correttoProvider `{Host} `{CorrettoRuntime} : JdkProvider :=
  {| locateReleaseForVersion := CorrettoJdkProvider.locateReleaseForVersion;
     fetchJdkArchive := CorrettoJdkProvider.fetchJdkArchive |}.

Section Offered.
Context `{Host}.

(** The branch of the index [fetchAvailableReleases] reads: operating
    system, architecture, image type. *)
Definition platformBranch (this : Installer) (versionData : CorrettoVersionIndex)
  : option CorrettoImages :=
  match property CorrettoJdkProvider.determinePlatformName versionData with
  | Some byArchitecture =>
      match property (translateArchitecture this) byArchitecture with
      | Some byPackage => property (distributionType this) byPackage
      | None => None
      end
  | None => None
  end.

(** A release taken from the index: an archive of the platform's format,
    listed under the version of the release. *)
Definition offered (versionData : CorrettoImages) (d : CorrettoVersionDetails) : Prop :=
  fileType d = detectArchiveFormat
  /\ downloadLink d = "https://corretto.aws" +:+ resource d
  /\ CorrettoJdkProvider.extractVersionFromPath (resource d) = Ok (correttoVersion d)
  /\ exists versionEntry,
       In (version d, versionEntry) versionData
       /\ In (fileType d, mkCorrettoArchive (checksum d) (checksum_sha256 d) (resource d))
            versionEntry.

End Offered.

(** ** A sample index of Corretto downloads *)

Module CorrettoScenario.

Definition archive (versionNumber suffix : string) : CorrettoArchive :=
  mkCorrettoArchive "md5" "sha256"
    ("/downloads/resources/" +:+ versionNumber +:+ "/amazon-corretto-" +:+ versionNumber
       +:+ suffix).

Definition linuxImages : CorrettoImages :=
  [("8", [("rpm", archive "8.422.05.1" "-linux-x64.rpm");
          ("tar.gz", archive "8.422.05.1" "-linux-x64.tar.gz")]);
   ("11", [("deb", archive "11.0.24.8.1" "-linux-x64.deb");
           ("tar.gz", archive "11.0.24.8.1" "-linux-x64.tar.gz")]);
   ("17", [("tar.gz", archive "17.0.12.7.1" "-linux-x64.tar.gz")])].

Definition index : CorrettoVersionIndex :=
  [("linux", [("x64", [("jdk", linuxImages)])]);
   ("windows", [("x64", [("jdk", [("11", [("zip", archive "11.0.24.8.1" "-windows-x64.zip")])])])])].

(** The index is served; nothing can be unpacked or cached. *)
Definition runtime : CorrettoRuntime :=
  {| http_getJson := fun _ => ret (Some index);
     core_isDebug := false;
     path_extname := fun _ => "";
     tc_extractTar := fun archive => Posix.offline archive;
     tc_extractZipHere := fun archive => Posix.offline archive;
     tc_extract7z := fun archive => Posix.offline archive;
     tc_cacheDir := fun directory _ _ _ => Posix.offline directory |}.

(** A runner that can download, unpack and cache: the archive is
    unpacked into a directory that holds the JDK. *)
Definition extracted : string := "/tmp/jdk/extracted".

Definition downloading : Host :=
  {| path_normalize := Posix.normalize;
     path_join := Posix.join;
     path_dirname := Posix.dirname;
     path_basename := Posix.basename;
     path_resolve := Posix.resolve "/work";
     path_sep := "/";
     process_platform := "linux";
     process_cwd := "/work";
     os_arch := "x64";
     os_tmpdir := "/tmp";
     os_userInfo := Ok (Some "/bin/bash");
     semver_otherRanges := fun _ => None;
     exec_reply := fun _ _ => NotStarted "no process";
     subscription := Granted;
     tc_downloadTool := fun _ => ret "/tmp/jdk/archive";
     tc_extractZip := fun archive _ => Posix.offline archive;
     sort_unspecified := Posix.v8Order |}.

Definition unpacking : CorrettoRuntime :=
  {| http_getJson := fun _ => ret (Some index);
     core_isDebug := false;
     path_extname := fun _ => "";
     tc_extractTar := fun _ => ret extracted;
     tc_extractZipHere := fun archive => Posix.offline archive;
     tc_extract7z := fun archive => Posix.offline archive;
     tc_cacheDir := fun _ tool versionName arch =>
       ret (JdkScenario.toolCache +:+ "/" +:+ tool +:+ "/" +:+ versionName +:+ "/" +:+ arch) |}.

Definition unpacked : World :=
  Posix.emptyWorld (<[extracted := Dir ["amazon-corretto-11.0.24.8.1-linux-x64"]]> ∅) [].

End CorrettoScenario.

(** The two replacements [buildExecutableCommand] applies to the
    launcher script. *)
Definition JAVA_JAR : string := "java -jar".
Definition ALL_ARGUMENTS : string := "$@".
Definition quotedArguments : string := dquote +:+ ALL_ARGUMENTS +:+ dquote.


(* ===================================================================== *)
(** * Properties *)
(* ===================================================================== *)

(** ** The models at work on small inputs *)

Example replace_first_only : Js.replace "a-b-c" "-" "+" = "a+b-c".
Proof. reflexivity. Qed.

Example replace_dollar_amp : Js.replace "x${A}y" "${A}" "<$&|$$>" = "x<${A}|$>y".
Proof. reflexivity. Qed.

Example replaceAll_every : Js.replaceAll "java -jar a; java -jar b" "java -jar" "J" = "J a; J b".
Proof. reflexivity. Qed.

Example stripSuffix_end_only : Js.stripSuffix "11-ea-ea" "-ea" = "11-ea"
  /\ Js.stripSuffix "11-ea.1" "-ea" = "11-ea.1".
Proof. split; reflexivity. Qed.

Example trim_both : Js.trim "  /bin/sh run  " = "/bin/sh run".
Proof. reflexivity. Qed.

Example parse_build :
  Semver.parse "11.0.2+9" = Some (Semver.mkSemVer 11 0 2 [] ["9"]).
Proof. reflexivity. Qed.

Example parse_rejects :
  Semver.parse "11" = None /\ Semver.parse "11.0.20.9.1" = None
  /\ Semver.parse "11.0.1-01" = None /\ Semver.parse "01.0.0" = None.
Proof. repeat split; reflexivity. Qed.

Example parse_prerelease :
  Semver.parse "v11.0.1-ea.3+7.x" = Some (Semver.mkSemVer 11 0 1 ["ea"; "3"] ["7"; "x"]).
Proof. reflexivity. Qed.

Example compareBuild_examples :
  Semver.compareBuild "11.0.2+9" "11.0.2+10" = Some (-1)
  /\ Semver.compareBuild "11.0.9+1" "11.0.1+1" = Some 1
  /\ Semver.compareBuild "11.0.2+9" "11.0.2" = Some 1
  /\ Semver.compareBuild "11.0.2-rc.1" "11.0.2" = Some (-1)
  /\ Semver.compareBuild "11.0.2" "eleven" = None.
Proof. repeat split; reflexivity. Qed.

(** Numeric build identifiers that differ only by leading zeros end the
    comparison with a tie, whatever follows them. *)
Example compareBuild_leading_zero_tie :
  Semver.compareBuild "11.0.1+01.5" "11.0.1+1.7" = Some 0
  /\ Semver.compareBuild "11.0.1+1.7" "11.0.1+01.5" = Some 0
  /\ Semver.compareBuild "11.0.1+01.7" "11.0.1+01.5" = Some 1.
Proof. repeat split; reflexivity. Qed.

Example satisfies_examples :
  Semver.satisfies (fun _ => None) "11.5.0" "11" = true
  /\ Semver.satisfies (fun _ => None) "11.0.2+9" "11" = true
  /\ Semver.satisfies (fun _ => None) "12.0.0" "11" = false
  /\ Semver.satisfies (fun _ => None) "11.0.0-ea" "11" = false
  /\ Semver.satisfies (fun _ => None) "11.0.2+10" "11.0.2+9" = true.
Proof. repeat split; reflexivity. Qed.

Example posix_normalize :
  Posix.normalize "/work//a/./b/../c/" = "/work/a/c/"
  /\ Posix.normalize "a/../../b" = "../b"
  /\ Posix.normalize "./" = "./"
  /\ Posix.normalize "/.." = "/".
Proof. repeat split; reflexivity. Qed.

Example posix_dirname :
  Posix.dirname "/work/a/b" = "/work/a" /\ Posix.dirname "/work/a/b/" = "/work/a"
  /\ Posix.dirname "/work" = "/" /\ Posix.dirname "out" = "."
  /\ Posix.dirname "a//b" = "a/".
Proof. repeat split; reflexivity. Qed.

Example posix_join_basename :
  Posix.join "/work/in" "a.exe" = "/work/in/a.exe" /\ Posix.basename "/work/in/" = "in".
Proof. repeat split; reflexivity. Qed.

Example parseInt_examples :
  parseInt "17" = Some 17 /\ parseInt " 11.0.2" = Some 11 /\ parseInt "0x1f" = Some 31
  /\ parseInt "-8u" = Some (-8) /\ parseInt "java" = None /\ parseInt "" = None.
Proof. repeat split; reflexivity. Qed.

(* ===================================================================== *)
(** ** Strings: concatenation, occurrences and replacement *)
(* ===================================================================== *)

Lemma app_cons (c : ascii) (s t : string) : String c s +:+ t = String c (s +:+ t).
Proof. reflexivity. Qed.

Lemma app_empty_l (s : string) : "" +:+ s = s.
Proof. reflexivity. Qed.

Lemma app_empty_r (s : string) : s +:+ "" = s.
Proof. induction s as [|c s IH]; [reflexivity|]. rewrite app_cons, IH. reflexivity. Qed.

Lemma app_assoc_s (a b c : string) : (a +:+ b) +:+ c = a +:+ (b +:+ c).
Proof.
  induction a as [|x a IH]; [reflexivity|].
  rewrite !app_cons, IH. reflexivity.
Qed.

Lemma app_inv_head_s (a x y : string) : a +:+ x = a +:+ y -> x = y.
Proof.
  induction a as [|c a IH]; intros E; [exact E|].
  rewrite !app_cons in E. injection E as E. auto.
Qed.

Lemma count_app (c : ascii) (a b : string) :
  Js.count c (a +:+ b) = (Js.count c a + Js.count c b)%nat.
Proof.
  induction a as [|d a IH]; [reflexivity|].
  rewrite app_cons. simpl. rewrite IH. lia.
Qed.

Lemma count_cons_zero (c d : ascii) (s : string) :
  Js.count c (String d s) = 0%nat -> Ascii.eqb c d = false /\ Js.count c s = 0%nat.
Proof.
  simpl. destruct (Ascii.eqb c d); [discriminate|]. auto.
Qed.

(** A character that occurs can be split off at its first occurrence. *)
Lemma count_split (c : ascii) (s : string) :
  (1 <= Js.count c s)%nat ->
  exists a b, s = a +:+ String c b /\ Js.count c a = 0%nat.
Proof.
  induction s as [|d s IH]; simpl; intros Hc; [lia|].
  destruct (Ascii.eqb c d) eqn:E.
  - apply Ascii.eqb_eq in E. subst d. exists "", s. split; reflexivity.
  - destruct IH as (a & b & -> & Ha); [lia|].
    exists (String d a), b. split; [reflexivity|]. simpl. rewrite E. exact Ha.
Qed.

Lemma includes_absent (c : ascii) (p s : string) :
  Js.count c s = 0%nat -> Js.includes s (String c p) = false.
Proof.
  induction s as [|d s IH]; intros Hc; [reflexivity|].
  apply count_cons_zero in Hc as [E Hc].
  simpl. rewrite E. simpl. auto.
Qed.

Lemma includes_present (c : ascii) (a b : string) :
  Js.includes (a +:+ String c b) (Js.str1 c) = true.
Proof.
  induction a as [|d a IH].
  - simpl. rewrite Ascii.eqb_refl. reflexivity.
  - rewrite app_cons. simpl. rewrite IH. apply orb_true_r.
Qed.

Lemma includes_app_false (a t p : string) :
  Js.includes (a +:+ t) p = false -> Js.includes t p = false.
Proof.
  induction a as [|d a IH]; intros E; [exact E|].
  rewrite app_cons in E. simpl in E. apply orb_false_iff in E as [_ E]. auto.
Qed.

Lemma endsWith_app_false (a t p : string) :
  Js.endsWith (a +:+ t) p = false -> Js.endsWith t p = false.
Proof.
  induction a as [|d a IH]; intros E; [exact E|].
  rewrite app_cons in E. simpl in E. apply orb_false_iff in E as [_ E]. auto.
Qed.

(** Replacing a pattern whose first character does not occur. *)
Lemma replaceFrom_absent (c : ascii) (p rep s before : string) :
  Js.count c s = 0%nat ->
  Js.replaceFrom before s (String c p) rep = before +:+ s.
Proof.
  revert before. induction s as [|d s IH]; intros before Hc.
  - simpl. symmetry. apply app_empty_r.
  - apply count_cons_zero in Hc as [E Hc].
    simpl. rewrite E. simpl. rewrite IH by exact Hc.
    unfold Js.str1. rewrite app_assoc_s. reflexivity.
Qed.

Lemma replace_absent (c : ascii) (p rep s : string) :
  Js.count c s = 0%nat -> Js.replace s (String c p) rep = s.
Proof. intros Hc. unfold Js.replace. rewrite replaceFrom_absent by exact Hc. reflexivity. Qed.

(** The scan walks over a prefix free of the pattern's first character. *)
Lemma replaceFrom_skip (c : ascii) (p rep a t before : string) :
  Js.count c a = 0%nat ->
  Js.replaceFrom before (a +:+ t) (String c p) rep
  = Js.replaceFrom (before +:+ a) t (String c p) rep.
Proof.
  revert before. induction a as [|d a IH]; intros before Hc.
  - rewrite app_empty_l, app_empty_r. reflexivity.
  - apply count_cons_zero in Hc as [E Hc].
    rewrite app_cons.
    change (Js.replaceFrom before (String d (a +:+ t)) (String c p) rep)
      with (if Js.startsWith (String d (a +:+ t)) (String c p)
            then before +:+ Js.getSubstitution (String c p) before
                   (Js.sliceFrom (String.length (String c p)) (String d (a +:+ t))) rep
                   +:+ Js.sliceFrom (String.length (String c p)) (String d (a +:+ t))
            else Js.replaceFrom (before +:+ Js.str1 d) (a +:+ t) (String c p) rep).
    replace (Js.startsWith (String d (a +:+ t)) (String c p)) with false
      by (simpl; rewrite E; reflexivity).
    rewrite IH by exact Hc. unfold Js.str1. rewrite app_assoc_s. reflexivity.
Qed.

Lemma stripSuffix_absent (c : ascii) (p s : string) :
  Js.count c s = 0%nat -> Js.stripSuffix s (String c p) = s.
Proof.
  induction s as [|d s IH]; intros Hc; [reflexivity|].
  apply count_cons_zero in Hc as [E Hc].
  simpl. rewrite Ascii.eqb_sym, E. rewrite IH by exact Hc. reflexivity.
Qed.

Lemma stripSuffix_skip (c : ascii) (p a t : string) :
  Js.count c a = 0%nat ->
  Js.stripSuffix (a +:+ t) (String c p) = a +:+ Js.stripSuffix t (String c p).
Proof.
  induction a as [|d a IH]; intros Hc; [reflexivity|].
  apply count_cons_zero in Hc as [E Hc].
  rewrite !app_cons.
  change (Js.stripSuffix (String d (a +:+ t)) (String c p))
    with (if String.eqb (String d (a +:+ t)) (String c p) then EmptyString
          else String d (Js.stripSuffix (a +:+ t) (String c p))).
  replace (String.eqb (String d (a +:+ t)) (String c p)) with false
    by (simpl; rewrite Ascii.eqb_sym, E; reflexivity).
  rewrite IH by exact Hc. reflexivity.
Qed.

(* ===================================================================== *)
(** ** Cache names of JDK versions (formatCacheVersionName and
       normalizeVersionString) *)
(* ===================================================================== *)

Ltac norm_app := rewrite ?app_cons, ?app_empty_l.
Ltac norm_app_in E := rewrite ?app_cons, ?app_empty_l in E.

Lemma roundtrip_early_access_plain (v : string) :
  Js.count "-" v = 0%nat ->
  normalizeVersionString (v +:+ "-ea") = v.
Proof.
  intros Hd. unfold normalizeVersionString, Js.replace.
  rewrite (replaceFrom_skip "-" "ea." "+" v "-ea" "" Hd).
  rewrite app_empty_l. simpl. unfold Js.str1.
  rewrite !app_assoc_s. simpl.
  change (v +:+ "-" +:+ "e" +:+ "a") with (v +:+ "-ea").
  rewrite (stripSuffix_skip "-" "ea" v "-ea" Hd). simpl.
  rewrite app_empty_r. apply (replace_absent "-" "" "+" v Hd).
Qed.

Lemma roundtrip_early_access_build (a b : string) :
  Js.count "-" a = 0%nat -> Js.count "-" b = 0%nat ->
  normalizeVersionString (a +:+ "-ea." +:+ b) = a +:+ String "+" b.
Proof.
  intros Ha Hb. unfold normalizeVersionString, Js.replace.
  rewrite (replaceFrom_skip "-" "ea." "+" a ("-ea." +:+ b) "" Ha).
  norm_app. simpl. norm_app.
  assert (Hall : Js.count "-" (a +:+ String "+" b) = 0%nat).
  { rewrite !count_app. simpl. lia. }
  rewrite (stripSuffix_absent "-" "ea" _ Hall).
  apply (replace_absent "-" "" "+" _ Hall).
Qed.

Lemma roundtrip_stable_build (a b : string) :
  Js.count "-" a = 0%nat -> Js.count "-" b = 0%nat ->
  Js.startsWith b "ea." = false -> String.eqb b "ea" = false ->
  normalizeVersionString (a +:+ String "-" b) = a +:+ String "+" b.
Proof.
  intros Ha Hb Hpre Heq. unfold normalizeVersionString, Js.replace.
  rewrite (replaceFrom_skip "-" "ea." "+" a (String "-" b) "" Ha).
  rewrite app_empty_l.
  assert (E1 : Js.replaceFrom a (String "-" b) "-ea." "+" = a +:+ String "-" b).
  { change (Js.replaceFrom a (String "-" b) "-ea." "+")
      with (if Js.startsWith (String "-" b) "-ea."
            then a +:+ Js.getSubstitution "-ea." a (Js.sliceFrom 4 (String "-" b)) "+"
                   +:+ Js.sliceFrom 4 (String "-" b)
            else Js.replaceFrom (a +:+ Js.str1 "-") b "-ea." "+").
    replace (Js.startsWith (String "-" b) "-ea.") with false
      by (symmetry; exact Hpre).
    rewrite (replaceFrom_absent "-" "ea." "+" b _ Hb).
    unfold Js.str1. rewrite app_assoc_s. reflexivity. }
  rewrite E1.
  rewrite (stripSuffix_skip "-" "ea" a (String "-" b) Ha).
  assert (E2 : Js.stripSuffix (String "-" b) "-ea" = String "-" b).
  { change (Js.stripSuffix (String "-" b) "-ea")
      with (if String.eqb (String "-" b) "-ea" then EmptyString
            else String "-" (Js.stripSuffix b "-ea")).
    replace (String.eqb (String "-" b) "-ea") with false
      by (symmetry; exact Heq).
    rewrite (stripSuffix_absent "-" "ea" b Hb). reflexivity. }
  rewrite E2.
  rewrite (replaceFrom_skip "-" "" "+" a (String "-" b) "" Ha).
  rewrite app_empty_l. reflexivity.
Qed.

(** Normalizing the cache name gives the version back, for an
    early-access installer always and for a stable installer whenever
    the build metadata neither starts with [ea.] nor equals [ea]. *)
Lemma cache_name_roundtrip (this : Installer) (v : string) :
  Js.count "-" v = 0%nat ->
  (Js.count "+" v <= 1)%nat ->
  (isStableRelease this = true ->
   Js.includes v "+ea." = false /\ Js.endsWith v "+ea" = false) ->
  normalizeVersionString (formatCacheVersionName this v) = v.
Proof.
  intros Hd Hp Hea. unfold formatCacheVersionName.
  destruct (Nat.eq_dec (Js.count "+" v) 0%nat) as [H0|H1].
  - (* no build metadata *)
    rewrite (includes_absent "+" "" v H0).
    rewrite (replace_absent "+" "" _ v H0).
    destruct (isStableRelease this); simpl.
    + unfold normalizeVersionString.
      rewrite (replace_absent "-" "ea." _ v Hd).
      rewrite (stripSuffix_absent "-" "ea" v Hd).
      apply (replace_absent "-" "" _ v Hd).
    + apply roundtrip_early_access_plain. exact Hd.
  - (* exactly one plus sign *)
    destruct (count_split "+" v) as (a & b & -> & Ha); [lia|].
    rewrite count_app in Hd. simpl in Hd.
    assert (Hda : Js.count "-" a = 0%nat) by lia.
    assert (Hdb : Js.count "-" b = 0%nat) by lia.
    change (Js.includes (a +:+ String "+" b) "+")
      with (Js.includes (a +:+ String "+" b) (Js.str1 "+")).
    rewrite includes_present.
    unfold Js.replace.
    rewrite !(replaceFrom_skip "+" "" _ a (String "+" b) "" Ha).
    rewrite app_empty_l.
    destruct (isStableRelease this); simpl.
    + destruct (Hea eq_refl) as [Hinc Hend].
      apply includes_app_false in Hinc. apply endsWith_app_false in Hend.
      simpl in Hinc. apply orb_false_iff in Hinc as [Hinc _].
      simpl in Hend. apply orb_false_iff in Hend as [Hend _].
      apply roundtrip_stable_build; assumption.
    + apply roundtrip_early_access_build; assumption.
Qed.

(* ===================================================================== *)
(** ** Version compatibility (checkVersionCompatibility) *)
(* ===================================================================== *)

Lemma valid_iff_parse (v : string) :
  Semver.valid v = None <-> Semver.parse v = None.
Proof.
  unfold Semver.valid. destruct (Semver.parse v); split; intros E; congruence.
Qed.

Section Compatibility.
Context `{Host}.

Lemma compatibility_exact (range candidate : string) :
  exactWithBuild range = true ->
  checkVersionCompatibility range candidate =
    match Semver.compareBuild range candidate with
    | Some c => Ok (c =? 0)
    | None => Throw ("Invalid Version: " +:+ candidate)
    end.
Proof.
  unfold exactWithBuild, checkVersionCompatibility, Semver.valid.
  destruct (Semver.parse range) as [v|]; [|discriminate].
  destruct (Semver.build v); [discriminate|]. reflexivity.
Qed.

Lemma compatibility_range (range candidate : string) :
  exactWithBuild range = false ->
  checkVersionCompatibility range candidate =
    Ok (Semver.satisfies semver_otherRanges candidate range).
Proof.
  unfold exactWithBuild, checkVersionCompatibility, Semver.valid.
  destruct (Semver.parse range) as [v|]; [|reflexivity].
  destruct (Semver.build v); [reflexivity|discriminate].
Qed.

End Compatibility.

(** C6: when [range] is a valid exact version with build metadata,
    [checkVersionCompatibility range candidate] is true exactly when
    [compareBuild] finds the two equal; otherwise it is the answer of
    range satisfaction.  In particular 11.0.2+9 accepts 11.0.2+9 and
    rejects 11.0.2+10, and the range 11 accepts 11.5.0. *)
Theorem C6_compatible_version `{Host} :
  (forall range candidate,
     exactWithBuild range = true ->
     (checkVersionCompatibility range candidate = Ok true
      <-> Semver.compareBuild range candidate = Some 0))
  /\ (forall range candidate,
        exactWithBuild range = false ->
        (checkVersionCompatibility range candidate = Ok true
         <-> Semver.satisfies semver_otherRanges candidate range = true))
  /\ checkVersionCompatibility "11.0.2+9" "11.0.2+9" = Ok true
  /\ checkVersionCompatibility "11.0.2+9" "11.0.2+10" = Ok false
  /\ checkVersionCompatibility "11" "11.5.0" = Ok true.
Proof.
  split; [|split; [|split; [|split]]].
  - intros range candidate Hb. rewrite (compatibility_exact _ _ Hb).
    destruct (Semver.compareBuild range candidate) as [c|].
    + split; intros E.
      * injection E as E. apply Z.eqb_eq in E. congruence.
      * injection E as ->. reflexivity.
    + split; discriminate.
  - intros range candidate Hb. rewrite (compatibility_range _ _ Hb).
    split; intros E; congruence.
  - reflexivity.
  - reflexivity.
  - reflexivity.
Qed.

Lemma C6_compatible_version_witness :
  let H := Posix.host "linux" (Ok (Some "/bin/bash")) (fun _ _ => NotStarted "no process") in
  exactWithBuild "11.0.2+9" = true
  /\ (checkVersionCompatibility "11.0.2+9" "v11.0.2+9" = Ok true
      <-> Semver.compareBuild "11.0.2+9" "v11.0.2+9" = Some 0)
  /\ exactWithBuild "11.0" = false
  /\ (checkVersionCompatibility "11.0" "11.0.7" = Ok true
      <-> Semver.satisfies semver_otherRanges "11.0.7" "11.0" = true).
Proof.
  intros H. split; [reflexivity|]. split.
  - apply (proj1 (@C6_compatible_version H) "11.0.2+9" "v11.0.2+9"). reflexivity.
  - split; [reflexivity|].
    apply (proj1 (proj2 (@C6_compatible_version H)) "11.0" "11.0.7"). reflexivity.
Defined.

(* ===================================================================== *)
(** ** The monad *)
(* ===================================================================== *)

Lemma bind_ok {A B} (m : M A) (k : A -> M B) (w w' : World) (a : A) :
  m w = (Ok a, w') -> bind m k w = k a w'.
Proof. intros E. unfold bind. rewrite E. reflexivity. Qed.

Lemma bind_throw {A B} (m : M A) (k : A -> M B) (w w' : World) (e : string) :
  m w = (Throw e, w') -> bind m k w = (Throw e, w').
Proof. intros E. unfold bind. rewrite E. reflexivity. Qed.

Lemma bind_inv_ok {A B} (m : M A) (k : A -> M B) (w w' : World) (b : B) :
  bind m k w = (Ok b, w') ->
  exists a w1, m w = (Ok a, w1) /\ k a w1 = (Ok b, w').
Proof.
  unfold bind. destruct (m w) as [[a|e|c] w1]; intros E; try discriminate.
  exists a, w1. auto.
Qed.

(* ===================================================================== *)
(** ** The command parameter builder (appendParameter,
       assembleCommandString) *)
(* ===================================================================== *)

Lemma supports_allowed (action inputKey : string) :
  supports action inputKey = true <-> allowed action inputKey.
Proof.
  unfold supports, allowed.
  destruct (COMMAND_PARAMETERS !! action) as [keys|].
  - rewrite existsb_exists. split.
    + intros (k & Hin & E). apply String.eqb_eq in E. subst k. eauto.
    + intros (keys' & E & Hin). injection E as <-.
      exists inputKey. split; [exact Hin|apply String.eqb_refl].
  - split; [discriminate|]. intros (keys & E & _). discriminate.
Qed.

Lemma supports_not_allowed (action inputKey : string) :
  supports action inputKey = false <-> ~ allowed action inputKey.
Proof.
  rewrite <- supports_allowed. destruct (supports action inputKey); split; congruence.
Qed.

Section Builder.
Context `{Host}.

Lemma fetchInputValue_eq (inputKey : string) (w : World) :
  fetchInputValue inputKey w = (Ok (inputValueIn (env w) inputKey), w).
Proof. reflexivity. Qed.

(** A key without a value, or off the allow-list, leaves command and
    world as they are. *)
Lemma appendParameter_skip (inputKey command action : string) (w : World) :
  inputValueIn (env w) inputKey = "" \/ supports action inputKey = false ->
  appendParameter inputKey command action w = (Ok command, w).
Proof.
  intros Hs. unfold appendParameter.
  rewrite (bind_ok _ _ _ _ _ (fetchInputValue_eq inputKey w)).
  destruct (String.eqb (inputValueIn (env w) inputKey) "") eqn:E; [reflexivity|].
  destruct Hs as [Hs|Hs].
  - rewrite Hs in E. discriminate.
  - rewrite Hs. reflexivity.
Qed.

Lemma emits_false (e : list (string * string)) (action inputKey : string) :
  emits e action inputKey = false <->
  inputValueIn e inputKey = "" \/ supports action inputKey = false.
Proof.
  unfold emits, Semver.nonEmpty. rewrite andb_false_iff, negb_false_iff.
  rewrite String.eqb_eq. reflexivity.
Qed.

Lemma emits_true (e : list (string * string)) (action inputKey : string) :
  emits e action inputKey = true ->
  String.eqb (inputValueIn e inputKey) "" = false /\ supports action inputKey = true.
Proof.
  unfold emits, Semver.nonEmpty. rewrite andb_true_iff, negb_true_iff. auto.
Qed.

(** Every key but [output_path] is handled without touching the world. *)
Lemma appendParameter_pure (inputKey command action : string) (w : World) :
  inputKey <> INPUT_KEYS.OUTPUT ->
  appendParameter inputKey command action w
  = (Ok (command +:+ appended (env w) action inputKey), w).
Proof.
  intros Hne. unfold appended.
  destruct (emits (env w) action inputKey) eqn:Em.
  - apply emits_true in Em as [Ev Es].
    unfold appendParameter.
    rewrite (bind_ok _ _ _ _ _ (fetchInputValue_eq inputKey w)).
    rewrite Ev, Es. cbn [negb].
    unfold fragmentIn, fragmentOf.
    apply String.eqb_neq in Hne. rewrite Hne.
    repeat match goal with
           | |- context [String.eqb inputKey ?k] =>
               destruct (String.eqb inputKey k); [reflexivity|]
           end.
    rewrite app_empty_r. reflexivity.
  - apply emits_false in Em.
    rewrite (appendParameter_skip _ _ _ _ Em), app_empty_r. reflexivity.
Qed.

Lemma statAt_missing (f : gmap string Node) (p : string) :
  f !! path_resolve p = None -> statAt f p = NoEntry.
Proof. intros E. unfold statAt. rewrite E. destruct (String.eqb p ""); reflexivity. Qed.

Lemma statAt_directory (f : gmap string Node) (p : string) (entries : list string) :
  p <> "" -> f !! path_resolve p = Some (Dir entries) -> statAt f p = Entry (Dir entries).
Proof.
  intros Hp E. unfold statAt. apply String.eqb_neq in Hp. rewrite Hp, E. reflexivity.
Qed.

Lemma existsIn_missing (f : gmap string Node) (p : string) :
  f !! path_resolve p = None -> existsIn f p = false.
Proof. intros E. unfold existsIn. rewrite (statAt_missing _ _ E). reflexivity. Qed.

Lemma existsIn_directory (f : gmap string Node) (p : string) (entries : list string) :
  p <> "" -> f !! path_resolve p = Some (Dir entries) -> existsIn f p = true.
Proof. intros Hp E. unfold existsIn. rewrite (statAt_directory _ _ _ Hp E). reflexivity. Qed.

Lemma existsIn_present (f : gmap string Node) (p : string) :
  existsIn f p = true -> p <> "" /\ exists n, f !! path_resolve p = Some n.
Proof.
  unfold existsIn, statAt. destruct (String.eqb_spec p "") as [->|Hp]; [discriminate|].
  destruct (f !! path_resolve p) as [n|]; [eauto|discriminate].
Qed.

Lemma createEntry_env (syscall p : string) (n : Node) (w w' : World) (o : Outcome unit) :
  createEntry syscall p n w = (o, w') -> env w' = env w.
Proof.
  unfold createEntry. cbv zeta.
  destruct (fs w !! path_dirname (path_resolve p)) as [[c|es]|];
    intros E; injection E as <- <-; reflexivity.
Qed.

Lemma mkdirSync_env (p : string) (w w' : World) (o : Outcome unit) :
  mkdirSync p w = (o, w') -> env w' = env w.
Proof.
  unfold mkdirSync. destruct (String.eqb p "").
  - intros E. injection E as <- <-. reflexivity.
  - destruct (fs w !! path_resolve p).
    + intros E. injection E as <- <-. reflexivity.
    + apply createEntry_env.
Qed.

(** The [output_path] step, for a value that is present and allowed. *)
Lemma appendParameter_output (command action : string) (w : World) :
  let p := path_normalize (inputValueIn (env w) INPUT_KEYS.OUTPUT) in
  emits (env w) action INPUT_KEYS.OUTPUT = true ->
  appendParameter INPUT_KEYS.OUTPUT command action w
  = if existsIn (fs w) p then
      (Ok (command +:+ quotedFlag "output_dir_path" p),
       addInfo ("Output directory already exists: " +:+ p) w)
    else
      match mkdirSync p (addInfo ("Creating output directory: " +:+ p) w) with
      | (Ok _, w') => (Ok (command +:+ quotedFlag "output_dir_path" p), w')
      | (Throw e, w') => (Throw e, w')
      | (Exit c, w') => (Exit c, w')
      end.
Proof.
  intros p Em. apply emits_true in Em as [Ev Es].
  unfold appendParameter.
  rewrite (bind_ok _ _ _ _ _ (fetchInputValue_eq INPUT_KEYS.OUTPUT w)).
  rewrite Ev, Es. cbn [negb].
  change (String.eqb INPUT_KEYS.OUTPUT INPUT_KEYS.USER) with false.
  change (String.eqb INPUT_KEYS.OUTPUT INPUT_KEYS.PASS) with false.
  change (String.eqb INPUT_KEYS.OUTPUT INPUT_KEYS.CRED_ID) with false.
  change (String.eqb INPUT_KEYS.OUTPUT INPUT_KEYS.TOTP) with false.
  change (String.eqb INPUT_KEYS.OUTPUT INPUT_KEYS.PROGRAM) with false.
  change (String.eqb INPUT_KEYS.OUTPUT INPUT_KEYS.FILE) with false.
  change (String.eqb INPUT_KEYS.OUTPUT INPUT_KEYS.DIR) with false.
  change (String.eqb INPUT_KEYS.OUTPUT INPUT_KEYS.OUTPUT) with true.
  cbv iota. fold p.
  unfold bind at 1. unfold existsSync at 1.
  destruct (existsIn (fs w) p) eqn:Ex.
  - reflexivity.
  - unfold bind, info.
    destruct (mkdirSync p (addInfo ("Creating output directory: " +:+ p) w))
      as [[[]|e|c] w1]; reflexivity.
Qed.

(** Whatever the key, a step that returns has added exactly the key's
    contribution and has left the environment alone. *)
Lemma appendParameter_step (inputKey command action : string) (w w' : World) (r : string) :
  appendParameter inputKey command action w = (Ok r, w') ->
  r = command +:+ appended (env w) action inputKey /\ env w' = env w.
Proof.
  destruct (String.eqb inputKey INPUT_KEYS.OUTPUT) eqn:Ek.
  - apply String.eqb_eq in Ek. subst inputKey.
    unfold appended.
    destruct (emits (env w) action INPUT_KEYS.OUTPUT) eqn:Em.
    + rewrite (appendParameter_output command action w Em).
      destruct (existsIn (fs w) _).
      * intros E. injection E as <- <-. split; reflexivity.
      * destruct (mkdirSync _ _) as [[u|e|c] w1] eqn:Emk; intros E; try discriminate E.
        injection E as <- <-. apply mkdirSync_env in Emk.
        split; [reflexivity|exact Emk].
    + apply emits_false in Em.
      rewrite (appendParameter_skip _ _ _ _ Em). intros E. injection E as <- <-.
      rewrite app_empty_r. split; reflexivity.
  - apply String.eqb_neq in Ek.
    rewrite (appendParameter_pure _ _ _ _ Ek). intros E. injection E as <- <-.
    split; reflexivity.
Qed.

Lemma appendAll_steps (keys : list string) (command action : string) (w w' : World)
  (r : string) :
  appendAll keys command action w = (Ok r, w') ->
  r = command +:+ concatAll (map (appended (env w) action) keys) /\ env w' = env w.
Proof.
  revert command w. induction keys as [|k keys IH]; intros command w E.
  - injection E as <- <-. simpl. rewrite app_empty_r. split; reflexivity.
  - simpl in E. apply bind_inv_ok in E as (c1 & w1 & E1 & E2).
    apply appendParameter_step in E1 as [-> Ee].
    apply IH in E2 as [-> Ee']. rewrite Ee in *.
    simpl. rewrite app_assoc_s. split; [reflexivity|congruence].
Qed.

Lemma appendAll_skips (keys : list string) (command action : string) (w : World) :
  Forall (fun k => inputValueIn (env w) k = "" \/ supports action k = false) keys ->
  appendAll keys command action w = (Ok command, w).
Proof.
  induction 1 as [|k keys Hk _ IH]; [reflexivity|].
  simpl. rewrite (bind_ok _ _ _ _ _ (appendParameter_skip k command action w Hk)).
  exact IH.
Qed.

Lemma assembleCommandString_unfold (action : string) :
  assembleCommandString action
  = bind (getInput INPUT_KEYS.CMD) (fun cmd => appendAll candidateKeys cmd action).
Proof. reflexivity. Qed.

End Builder.

Lemma concatAll_filter (f : string -> bool) (g : string -> string) (keys : list string) :
  concatAll (map (fun k => if f k then g k else "") keys)
  = concatAll (map g (List.filter f keys)).
Proof.
  induction keys as [|k keys IH]; [reflexivity|].
  simpl. destruct (f k); simpl; rewrite IH; reflexivity.
Qed.

(** C1: a key that is not on the allow-list of the operation is skipped:
    the step returns the command it was given, raises nothing and leaves
    the world untouched, whatever value the key carries.  A command
    string that [assembleCommandString] produces is the base token
    followed by the fragments of the keys that emit, in visiting order,
    and every one of those keys is on the allow-list. *)
Theorem C1_allow_list_gates_flags `{Host} (action : string) :
  (forall inputKey command w,
     ~ allowed action inputKey ->
     appendParameter inputKey command action w = (Ok command, w))
  /\ (forall w w' cmd,
        assembleCommandString action w = (Ok cmd, w') ->
        cmd = getInputIn (env w) INPUT_KEYS.CMD
                +:+ concatAll (map (fragmentIn (env w))
                                 (List.filter (emits (env w) action) candidateKeys))
        /\ Forall (allowed action) (List.filter (emits (env w) action) candidateKeys)).
Proof.
  split.
  - intros inputKey command w Hn.
    apply appendParameter_skip. right. apply supports_not_allowed. exact Hn.
  - intros w w' cmd E.
    rewrite assembleCommandString_unfold in E.
    apply bind_inv_ok in E as (base & w1 & E1 & E2).
    injection E1 as <- <-.
    apply appendAll_steps in E2 as [-> _]. split.
    + f_equal. unfold appended. apply concatAll_filter.
    + apply Forall_forall. intros k Hk. apply list_elem_of_In in Hk.
      apply filter_In in Hk as [_ Hk].
      apply emits_true in Hk as [_ Hk]. apply supports_allowed. exact Hk.
Qed.

Lemma C1_allow_list_gates_flags_witness :
  let H := Posix.host "linux" (Ok (Some "/bin/bash")) (fun _ _ => NotStarted "no process") in
  let w := Posix.emptyWorld ∅ [("INPUT_COMMAND", "scan_code"); ("INPUT_FILE_PATH", "/work/a.exe")] in
  inputValueIn (env w) "file_path" = "/work/a.exe"
  /\ appendParameter "file_path" "scan_code" "scan_code" w = (Ok "scan_code", w).
Proof.
  intros H w. split; [reflexivity|].
  apply (proj1 (@C1_allow_list_gates_flags H "scan_code") "file_path" "scan_code" w).
  apply supports_not_allowed. reflexivity.
Defined.

(** C7: a key whose resolved value is empty adds nothing, whether or not
    the operation allows it; when every candidate key is empty or
    disallowed, the command is the base operation token alone. *)
Theorem C7_empty_values_emit_nothing `{Host} (action : string) (w : World) :
  (forall inputKey command,
     inputValueIn (env w) inputKey = "" ->
     appendParameter inputKey command action w = (Ok command, w))
  /\ (Forall (fun k => inputValueIn (env w) k = "" \/ ~ allowed action k) candidateKeys ->
      assembleCommandString action w = (Ok (getInputIn (env w) INPUT_KEYS.CMD), w)).
Proof.
  split.
  - intros inputKey command Hv. apply appendParameter_skip. left. exact Hv.
  - intros Hall. rewrite assembleCommandString_unfold.
    unfold bind, getInput. apply appendAll_skips.
    eapply Forall_impl; [exact Hall|].
    intros k [Hk|Hk]; [left; exact Hk|right; apply supports_not_allowed; exact Hk].
Qed.

Lemma C7_empty_values_emit_nothing_witness :
  let H := Posix.host "linux" (Ok (Some "/bin/bash")) (fun _ _ => NotStarted "no process") in
  let w := Posix.emptyWorld ∅
             [("INPUT_COMMAND", "scan_code"); ("INPUT_USERNAME", "  ");
              ("INPUT_FILE_PATH", "/work/a.exe"); ("INPUT_OVERRIDE", "true")] in
  appendParameter "username" "scan_code" "scan_code" w = (Ok "scan_code", w)
  /\ assembleCommandString "scan_code" w = (Ok "scan_code", w).
Proof.
  intros H w. split.
  - apply (proj1 (@C7_empty_values_emit_nothing H "scan_code" w) "username" "scan_code").
    reflexivity.
  - apply (proj2 (@C7_empty_values_emit_nothing H "scan_code" w)).
    unfold candidateKeys.
    repeat (constructor;
            [solve [ left; reflexivity
                   | right; apply supports_not_allowed; reflexivity ]|]).
    constructor.
Defined.

(* ===================================================================== *)
(** ** The output directory (appendParameter on output_path) *)
(* ===================================================================== *)

(** C4, counterexample: the output path [/work/out/signed] on a machine
    where only [/] and [/work] exist.  [fs.mkdirSync] is called without
    the [recursive] option, so the missing segment [/work/out] makes it
    raise ENOENT: nothing is created and no flag is emitted. *)
Lemma C4_missing_parent_raises :
  let H := Posix.host "linux" (Ok (Some "/bin/bash")) (fun _ _ => NotStarted "no process") in
  let w := Posix.emptyWorld (<["/work" := Dir []]> (<["/" := Dir ["work"]]> ∅))
             [("INPUT_COMMAND", "sign"); ("INPUT_OUTPUT_PATH", "/work/out/signed")] in
  path_normalize (inputValueIn (env w) "output_path") = "/work/out/signed"
  /\ fs w !! "/work/out/signed" = None
  /\ allowed "sign" "output_path"
  /\ appendParameter "output_path" "sign" "sign" w
     = (Throw "ENOENT: no such file or directory, mkdir '/work/out/signed'",
        addInfo "Creating output directory: /work/out/signed" w)
  /\ fs (snd (appendParameter "output_path" "sign" "sign" w)) !! "/work/out/signed" = None
  /\ fs (snd (appendParameter "output_path" "sign" "sign" w)) !! "/work/out" = None.
Proof.
  intros H w. split; [reflexivity|]. split; [reflexivity|].
  split; [apply supports_allowed; reflexivity|].
  split; [vm_compute; reflexivity|]. split; vm_compute; reflexivity.
Qed.

(** C4 (amended): for an [output_path] value that is present and allowed
    for the operation, with [p] its normalized form and [target] the
    entry [p] resolves to.  When nothing is there and the parent of the
    target is an existing directory, the step creates the target (and
    nothing else) as an empty directory and appends [-output_dir_path]
    with [p]; when the parent is missing too, the step raises ENOENT,
    creates nothing and appends nothing.  When the target is an existing
    directory the step only reports it and appends the flag.  No other
    key changes the world. *)
Theorem C4_output_directory `{Host} (command action : string) (w : World) :
  let p := path_normalize (inputValueIn (env w) INPUT_KEYS.OUTPUT) in
  let target := path_resolve p in
  let w1 := addInfo ("Creating output directory: " +:+ p) w in
  emits (env w) action INPUT_KEYS.OUTPUT = true ->
  (forall siblings,
     p <> "" ->
     fs w !! target = None ->
     fs w !! path_dirname target = Some (Dir siblings) ->
     exists w',
       appendParameter INPUT_KEYS.OUTPUT command action w
       = (Ok (command +:+ quotedFlag "output_dir_path" p), w')
       /\ fs w' !! target = Some (Dir [])
       /\ (forall q, q <> target -> q <> path_dirname target -> fs w' !! q = fs w !! q)
       /\ w' = setFs (<[target := Dir []]>
                       (<[path_dirname target := Dir (siblings ++ [path_basename target])]>
                          (fs w))) w1)
  /\ (fs w !! target = None ->
      fs w !! path_dirname target = None ->
      appendParameter INPUT_KEYS.OUTPUT command action w
      = (Throw ("ENOENT: no such file or directory, mkdir '" +:+ p +:+ "'"), w1))
  /\ (forall entries,
        p <> "" ->
        fs w !! target = Some (Dir entries) ->
        appendParameter INPUT_KEYS.OUTPUT command action w
        = (Ok (command +:+ quotedFlag "output_dir_path" p),
           addInfo ("Output directory already exists: " +:+ p) w))
  /\ (forall inputKey, inputKey <> INPUT_KEYS.OUTPUT ->
      exists cmd, appendParameter inputKey command action w = (Ok cmd, w)).
Proof.
  intros p target w1 Em.
  pose proof (appendParameter_output command action w Em) as E. cbv zeta in E.
  fold p in E. fold w1 in E.
  split; [|split; [|split]].
  - intros siblings Hne Hp Hd.
    rewrite (existsIn_missing _ _ Hp) in E.
    unfold mkdirSync, createEntry in E. cbv zeta in E. fold target in E.
    apply String.eqb_neq in Hne. rewrite Hne in E.
    change (fs w1) with (fs w) in E. rewrite Hp, Hd in E.
    eexists. split; [exact E|].
    split; [|split; [|reflexivity]].
    + cbn [fs setFs]. apply lookup_insert_eq.
    + intros q Hq Hq'. cbn [fs setFs].
      rewrite lookup_insert_ne by congruence.
      rewrite lookup_insert_ne by congruence. reflexivity.
  - intros Hp Hd.
    rewrite (existsIn_missing _ _ Hp) in E.
    unfold mkdirSync, createEntry in E. cbv zeta in E. fold target in E.
    change (fs w1) with (fs w) in E. rewrite Hp, Hd in E.
    destruct (String.eqb p ""); exact E.
  - intros entries Hne Hp. rewrite (existsIn_directory _ _ _ Hne Hp) in E. exact E.
  - intros inputKey Hne. eexists. apply appendParameter_pure. exact Hne.
Qed.

Lemma C4_output_directory_witness :
  let H := Posix.host "linux" (Ok (Some "/bin/bash")) (fun _ _ => NotStarted "no process") in
  let disk := <["/work/in" := Dir []]> (<["/work" := Dir ["in"]]> (<["/" := Dir ["work"]]> ∅)) in
  let w := Posix.emptyWorld disk
             [("INPUT_COMMAND", "sign"); ("INPUT_OUTPUT_PATH", "signed/")] in
  let v := Posix.emptyWorld disk
             [("INPUT_COMMAND", "sign"); ("INPUT_OUTPUT_PATH", "/work/in/")] in
  (exists w',
     appendParameter "output_path" "sign" "sign" w
     = (Ok ("sign" +:+ quotedFlag "output_dir_path" "signed/"), w')
     /\ fs w' !! "/work/signed" = Some (Dir [])
     /\ fs w' !! "/work" = Some (Dir ["in"; "signed"]))
  /\ appendParameter "output_path" "sign" "sign" v
     = (Ok ("sign" +:+ quotedFlag "output_dir_path" "/work/in/"),
        addInfo "Output directory already exists: /work/in/" v).
Proof.
  intros H disk w v. split.
  - destruct (proj1 (@C4_output_directory H "sign" "sign" w eq_refl) ["in"])
      as (w' & E & Hnew & _ & Hw'); [discriminate|reflexivity|reflexivity|].
    exists w'. split; [exact E|]. split; [exact Hnew|].
    rewrite Hw'. vm_compute. reflexivity.
  - apply (proj1 (proj2 (proj2 (@C4_output_directory H "sign" "sign" v eq_refl))) []).
    + discriminate.
    + reflexivity.
Defined.

(* ===================================================================== *)
(** ** The shell prefix (resolveUserShell) *)
(* ===================================================================== *)

(** C8: on Windows, or under signing method v2, the prefix is empty.
    Otherwise it is the login shell reported for the invoking user; when
    the user lookup fails, it is the SHELL variable if set, else
    [/bin/zsh] on macOS and [/bin/sh] on the other Unix platforms.  The
    world is never changed. *)
Theorem C8_shell_prefix `{Host} (signingMethod : string) (w : World) :
  (process_platform = "win32" \/ signingMethod = "v2" ->
   resolveUserShell signingMethod w = (Ok (Some ""), w))
  /\ (process_platform <> "win32" -> signingMethod <> "v2" ->
      forall shell, os_userInfo = Ok shell ->
      resolveUserShell signingMethod w = (Ok shell, w))
  /\ (process_platform <> "win32" -> signingMethod <> "v2" ->
      (forall shell, os_userInfo <> Ok shell) ->
      resolveUserShell signingMethod w
      = (Ok (Some (match lookupEnv "SHELL" (env w) with
                   | Some shell => shell
                   | None => if String.eqb process_platform "darwin"
                             then "/bin/zsh" else "/bin/sh"
                   end)), w)).
Proof.
  unfold resolveUserShell, identifyPlatform, SIGN_METHOD.VERSION_TWO,
    OS_PLATFORM.WIN_SYSTEM, OS_PLATFORM.MAC_OS_SYSTEM, OS_PLATFORM.UNIX_SYSTEM.
  split; [|split].
  - intros [Hp|Hm].
    + rewrite Hp. reflexivity.
    + rewrite Hm.
      destruct (String.eqb process_platform "darwin");
        [reflexivity|destruct (String.eqb process_platform "win32"); reflexivity].
  - intros Hp Hm shell Hu.
    apply String.eqb_neq in Hp, Hm. rewrite Hp, Hm, Hu.
    destruct (String.eqb process_platform "darwin"); reflexivity.
  - intros Hp Hm Hu.
    apply String.eqb_neq in Hp, Hm. rewrite Hp, Hm.
    destruct os_userInfo as [shell|e|c]; [destruct (Hu shell eq_refl)| |];
      destruct (String.eqb process_platform "darwin");
      destruct (lookupEnv "SHELL" (env w)); reflexivity.
Qed.

Lemma C8_shell_prefix_witness :
  let w := Posix.emptyWorld ∅ [("HOME", "/home/runner")] in
  @resolveUserShell
    (Posix.host "win32" (Ok None) (fun _ _ => NotStarted "no process")) "v1" w
  = (Ok (Some ""), w)
  /\ @resolveUserShell
       (Posix.host "linux" (Ok (Some "/bin/bash")) (fun _ _ => NotStarted "no process")) "v1" w
     = (Ok (Some "/bin/bash"), w)
  /\ @resolveUserShell
       (Posix.host "darwin" (Throw "ENOENT: no such user") (fun _ _ => NotStarted "no process"))
       "v1" w
     = (Ok (Some "/bin/zsh"), w).
Proof.
  intros w. split; [|split].
  - apply (proj1 (@C8_shell_prefix
      (Posix.host "win32" (Ok None) (fun _ _ => NotStarted "no process")) "v1" w)).
    left. reflexivity.
  - apply (proj1 (proj2 (@C8_shell_prefix
      (Posix.host "linux" (Ok (Some "/bin/bash")) (fun _ _ => NotStarted "no process"))
      "v1" w))); [discriminate|discriminate|reflexivity].
  - apply (proj2 (proj2 (@C8_shell_prefix
      (Posix.host "darwin" (Throw "ENOENT: no such user") (fun _ _ => NotStarted "no process"))
      "v1" w))); [discriminate|discriminate|intros shell; discriminate].
Defined.

(* ===================================================================== *)
(** ** The configuration file (writeConfiguration, initialize) *)
(* ===================================================================== *)

Lemma settings_differ : PROD_ENV_SETTINGS <> SANDBOX_ENV_SETTINGS.
Proof. vm_compute. discriminate. Qed.

Lemma configurationFor_production (environment : string) :
  configurationFor environment = PROD_ENV_SETTINGS <-> environment = "PROD".
Proof.
  unfold configurationFor, ENV_CONFIG.PRODUCTION.
  destruct (String.eqb_spec environment "PROD") as [E|E]; split; intros E'.
  - exact E.
  - reflexivity.
  - destruct settings_differ. symmetry. exact E'.
  - contradiction.
Qed.

Lemma orElse_empty (b : string) : Js.orElse "" b = b.
Proof. reflexivity. Qed.

Lemma orElse_nonempty (a b : string) : a <> "" -> Js.orElse a b = a.
Proof.
  intros Hne. unfold Js.orElse. apply String.eqb_neq in Hne. rewrite Hne. reflexivity.
Qed.

(* ===================================================================== *)
(** ** Classification of the execution output (detectExecutionErrors,
       main) *)
(* ===================================================================== *)

Lemma detectExecutionErrors_markers (o : ExecOutput) :
  detectExecutionErrors o = true <->
  exists marker, In marker errorPatterns
    /\ (Js.includes (stdout o) marker = true \/ Js.includes (stderr o) marker = true).
Proof.
  unfold detectExecutionErrors. fold errorPatterns.
  rewrite orb_true_iff, !existsb_exists. split.
  - intros [(m & Hin & Hm)|(m & Hin & Hm)]; exists m; auto.
  - intros (m & Hin & [Hm|Hm]); [left|right]; exists m; auto.
Qed.

Lemma hasExecutionError_detect (o : ExecOutput) :
  hasExecutionError o = detectExecutionErrors o.
Proof. reflexivity. Qed.

Section Classification.
Context `{Host} `{JdkProvider}.

Lemma getExecOutput_zero (cmd : string) (w : World) (out : ExecOutput) :
  exec_reply (List.length (spawned w)) cmd = Exited out ->
  exitCode out = 0 ->
  getExecOutput cmd w = (Ok out, addSpawned cmd w).
Proof.
  intros Hr Hz. unfold getExecOutput. rewrite Hr, Hz. reflexivity.
Qed.

Lemma getExecOutput_nonzero (cmd : string) (w : World) (out : ExecOutput) :
  exec_reply (List.length (spawned w)) cmd = Exited out ->
  exitCode out <> 0 ->
  getExecOutput cmd w = (Throw (exitError cmd (exitCode out)), addSpawned cmd w).
Proof.
  intros Hr Hz. unfold getExecOutput. rewrite Hr.
  apply Z.eqb_neq in Hz. rewrite Hz. reflexivity.
Qed.

Lemma signAndReport_classifies (full : string) (w w4 : World) (out : ExecOutput) :
  exec_reply (List.length (spawned w)) full = Exited out ->
  exitCode out = 0 ->
  performLogCleanup full (addSpawned full w) = (Ok tt, w4) ->
  signAndReport full w
  = (Ok tt, if detectExecutionErrors out
            then setFailure failureMessage (addInfo "" w4)
            else addOutput "CodeSigner" (OutExec out) w4).
Proof.
  intros Hexec Hz Hclean. unfold signAndReport.
  rewrite (bind_ok _ _ _ _ _ (getExecOutput_zero _ _ _ Hexec Hz)).
  rewrite (bind_ok _ _ _ _ _ Hclean).
  destruct (detectExecutionErrors out); reflexivity.
Qed.

Lemma signAndReport_rejected (full : string) (w : World) (out : ExecOutput) :
  exec_reply (List.length (spawned w)) full = Exited out ->
  exitCode out <> 0 ->
  signAndReport full w = (Throw (exitError full (exitCode out)), addSpawned full w).
Proof.
  intros Hexec Hz. unfold signAndReport.
  apply bind_throw. apply getExecOutput_nonzero; assumption.
Qed.

Lemma main_proceeds (w0 w1 w2 w3 : World) (op tool full : string) :
  validateSubscription w0 = (Ok tt, w1) ->
  prepare w1 = (Ok (op, tool, full), w2) ->
  scanGate op tool w2 = (Ok true, w3) ->
  main w0 = tryCatch (signAndReport full) (fun message => setFailed message) w3.
Proof.
  intros Hv Hp Hs. unfold main, tryCatch.
  rewrite (bind_ok _ _ _ _ _ Hv).
  rewrite (bind_ok _ _ _ _ _ Hp).
  rewrite (bind_ok _ _ _ _ _ Hs). reflexivity.
Qed.

Lemma main_stops (w0 w1 w2 w3 : World) (op tool full : string) :
  validateSubscription w0 = (Ok tt, w1) ->
  prepare w1 = (Ok (op, tool, full), w2) ->
  scanGate op tool w2 = (Ok false, w3) ->
  main w0 = (Ok tt, w3).
Proof.
  intros Hv Hp Hs. unfold main, tryCatch.
  rewrite (bind_ok _ _ _ _ _ Hv).
  rewrite (bind_ok _ _ _ _ _ Hp).
  rewrite (bind_ok _ _ _ _ _ Hs). reflexivity.
Qed.

Lemma main_scan_raises (w0 w1 w2 w3 : World) (op tool full message : string) :
  validateSubscription w0 = (Ok tt, w1) ->
  prepare w1 = (Ok (op, tool, full), w2) ->
  scanGate op tool w2 = (Throw message, w3) ->
  main w0 = (Ok tt, setFailure message w3).
Proof.
  intros Hv Hp Hs. unfold main, tryCatch.
  rewrite (bind_ok _ _ _ _ _ Hv).
  rewrite (bind_ok _ _ _ _ _ Hp).
  rewrite (bind_throw _ _ _ _ _ Hs). reflexivity.
Qed.

End Classification.

(** C2, counterexample: the signing command ends with status 1 after
    printing [Invalid credentials], a text without any of the five
    markers.  [exec.getExecOutput] is called without [ignoreReturnCode],
    so it raises; the run ends as failed with the message of that error
    and publishes no [CodeSigner] output, although the classifier finds
    nothing in the text. *)
Lemma C2_nonzero_exit_fails_without_marker :
  let w' := snd (@main Scenario.refusing Posix.unreachableProvider Scenario.signRun) in
  detectExecutionErrors Scenario.refused = false
  /\ exitCode Scenario.refused = 1
  /\ fst (@main Scenario.refusing Posix.unreachableProvider Scenario.signRun) = Ok tt
  /\ List.length (spawned w') = 1%nat
  /\ failure w' = Some "The process '/bin/bash' failed with exit code 1"
  /\ outputs w' = [].
Proof.
  cbv zeta. repeat split; vm_compute; reflexivity.
Qed.

(** C2 (amended): the classifier answers "failed" exactly when the
    standard output or the standard error contains one of the five
    markers, and never looks at the exit status.  For a signing command
    that ends with status zero the run is decided, once the log cleanup
    has completed, by that answer alone: it ends as failed when a marker
    is present and publishes the raw result as [CodeSigner] otherwise.
    A signing command that ends with a
    non-zero status makes the run fail with the error of the process
    runner, whatever its text; so an output with a marker fails the run
    for every exit status. *)
Theorem C2_text_classification `{Host} `{JdkProvider} :
  (forall o,
     detectExecutionErrors o = true <->
     exists marker,
       In marker ["Error"; "Exception"; "Missing required option";
                  "Unmatched arguments from"; "Unmatched argument"]
       /\ (Js.includes (stdout o) marker = true \/ Js.includes (stderr o) marker = true))
  /\ (forall status out err,
        Js.includes out "Missing required option" = true
        \/ Js.includes err "Missing required option" = true ->
        detectExecutionErrors (mkExecOutput status out err) = true)
  /\ (forall w0 w1 w2 w3 op tool full out,
        validateSubscription w0 = (Ok tt, w1) ->
        prepare w1 = (Ok (op, tool, full), w2) ->
        scanGate op tool w2 = (Ok true, w3) ->
        exec_reply (List.length (spawned w3)) full = Exited out ->
        (exitCode out <> 0 ->
         main w0 = (Ok tt, setFailure (exitError full (exitCode out)) (addSpawned full w3)))
        /\ (exitCode out = 0 ->
            forall w4,
              performLogCleanup full (addSpawned full w3) = (Ok tt, w4) ->
              exists w',
                main w0 = (Ok tt, w')
                /\ (detectExecutionErrors out = true ->
                    failure w' = Some failureMessage /\ outputs w' = outputs w4)
                /\ (detectExecutionErrors out = false ->
                    failure w' = failure w4
                    /\ outputs w' = outputs w4 ++ [("CodeSigner", OutExec out)]))).
Proof.
  split; [exact detectExecutionErrors_markers|]. split.
  - intros status out err Hm. apply detectExecutionErrors_markers.
    exists "Missing required option". split; [|exact Hm].
    unfold errorPatterns. simpl. auto.
  - intros w0 w1 w2 w3 op tool full out Hv Hp Hs Hexec.
    rewrite (main_proceeds _ _ _ _ _ _ _ Hv Hp Hs). unfold tryCatch. split.
    + intros Hnz. rewrite (signAndReport_rejected _ _ _ Hexec Hnz). reflexivity.
    + intros Hz w4 Hclean.
      rewrite (signAndReport_classifies _ _ _ _ Hexec Hz Hclean).
      eexists. split; [reflexivity|].
      split; intros Hd; rewrite Hd; split; reflexivity.
Qed.

Example sign_run_plan :
  @prepare Scenario.quiet Posix.unreachableProvider Scenario.signRun
  = (Ok ("sign",
         "/bin/bash /work/codesign/CodeSignTool-v1.3.0/CodeSignTool.sh",
         "/bin/bash /work/codesign/CodeSignTool-v1.3.0/CodeSignTool.sh sign"
           +:+ quotedFlag "username" "alice" +:+ quotedFlag "password" "s3cr3t"
           +:+ quotedFlag "credential_id" "cred-1" +:+ quotedFlag "totp_secret" "totp"
           +:+ quotedFlag "input_file_path" "/work/in/a.exe"),
     snd (@prepare Scenario.quiet Posix.unreachableProvider Scenario.signRun)).
Proof. vm_compute. reflexivity. Qed.

Example sign_run_script_patched :
  fs (snd (@prepare Scenario.quiet Posix.unreachableProvider Scenario.signRun))
    !! (Scenario.toolRoot +:+ "/CodeSignTool.sh")
  = Some (File ("java -Xmx2048M -jar code_sign_tool.jar " +:+ dquote +:+ "$@" +:+ dquote)).
Proof. vm_compute. reflexivity. Qed.

Lemma C2_text_classification_witness :
  detectExecutionErrors (mkExecOutput 0 "Error: Missing required option: '-username'" "") = true
  /\ exists w',
       @main Scenario.quiet Posix.unreachableProvider Scenario.signRun = (Ok tt, w')
       /\ failure w' = None
       /\ outputs w' = [("CodeSigner", OutExec Scenario.signed)].
Proof.
  pose proof (@C2_text_classification Scenario.quiet Posix.unreachableProvider)
    as (_ & Hmissing & Hrun).
  split.
  - apply Hmissing. left. reflexivity.
  - pose (w2 := snd (@prepare Scenario.quiet Posix.unreachableProvider Scenario.signRun)).
    pose (tool := "/bin/bash /work/codesign/CodeSignTool-v1.3.0/CodeSignTool.sh").
    pose (full := tool +:+ " sign"
           +:+ quotedFlag "username" "alice" +:+ quotedFlag "password" "s3cr3t"
           +:+ quotedFlag "credential_id" "cred-1" +:+ quotedFlag "totp_secret" "totp"
           +:+ quotedFlag "input_file_path" "/work/in/a.exe").
    pose (w3 := snd (@scanGate Scenario.quiet "sign" tool w2)).
    pose (w4 := snd (@performLogCleanup Scenario.quiet full (addSpawned full w3))).
    destruct (Hrun Scenario.signRun Scenario.signRun w2 w3 "sign" tool full Scenario.signed)
      as (_ & Hzero).
    + reflexivity.
    + vm_compute. reflexivity.
    + vm_compute. reflexivity.
    + reflexivity.
    + destruct (Hzero eq_refl w4) as (w' & Hmain & _ & Hok).
      * vm_compute. reflexivity.
      * exists w'. split; [exact Hmain|].
        destruct (Hok eq_refl) as [Hf Ho]. rewrite Hf, Ho. split; vm_compute; reflexivity.
Defined.

(* ===================================================================== *)
(** ** The malware pre-scan (performMalwareScan, main) *)
(* ===================================================================== *)

Section Scan.
Context `{Host} `{JdkProvider}.

Lemma appendAll_pure (keys : list string) (command action : string) (w : World) :
  Forall (fun k => k <> INPUT_KEYS.OUTPUT) keys ->
  appendAll keys command action w
  = (Ok (command +:+ concatAll (map (appended (env w) action) keys)), w).
Proof.
  intros Hk. revert command. induction Hk as [|k keys Hne _ IH]; intros command.
  - simpl. rewrite app_empty_r. reflexivity.
  - simpl. rewrite (bind_ok _ _ _ _ _ (appendParameter_pure k command action w Hne)).
    rewrite IH, app_assoc_s. reflexivity.
Qed.

Lemma buildScanCommand_eq (operation : string) (w : World) :
  buildScanCommand operation w = (Ok (scanCommandIn (env w) operation), w).
Proof.
  unfold buildScanCommand, scanCommandIn. apply appendAll_pure.
  unfold scanParamKeys. repeat (constructor; [discriminate|]). constructor.
Qed.

Lemma scanned_spawned (tool sc dir : string) (entries : list string) (w : World) :
  spawned (scanned tool sc dir entries w)
  = spawned w ++ map (completeScanCmd tool sc dir) entries.
Proof.
  revert w. induction entries as [|entry rest IH]; intros w; simpl.
  - rewrite app_nil_r. reflexivity.
  - rewrite IH. cbn [spawned addSpawned addInfo]. rewrite <- app_assoc. reflexivity.
Qed.

Lemma scanned_outputs (tool sc dir : string) (entries : list string) (w : World) :
  outputs (scanned tool sc dir entries w) = outputs w.
Proof.
  revert w. induction entries as [|entry rest IH]; intros w; simpl; [reflexivity|].
  rewrite IH. reflexivity.
Qed.

(** The first scan that reports a marker ends the loop: with the answer
    [false] when the process ended with status zero, with the error of
    the process runner otherwise. *)
Lemma scanEntries_stop (tool sc dir entry : string) (rest : list string) (w : World)
  (bad : ExecOutput) :
  exec_reply (List.length (spawned w)) (completeScanCmd tool sc dir entry) = Exited bad ->
  hasExecutionError bad = true ->
  scanEntries tool sc dir (entry :: rest) w
  = (if exitCode bad =? 0 then Ok false
     else Throw (exitError (completeScanCmd tool sc dir entry) (exitCode bad)),
     scanned tool sc dir [entry] w).
Proof.
  intros Ho Hbad. cbn [scanEntries scanned].
  unfold bind at 1. unfold info at 1.
  destruct (Z.eqb_spec (exitCode bad) 0) as [Hz|Hnz].
  - assert (E : getExecOutput (completeScanCmd tool sc dir entry)
                  (addInfo ("Scanning file for malware: " +:+ entry) w)
                = (Ok bad, addSpawned (completeScanCmd tool sc dir entry)
                             (addInfo ("Scanning file for malware: " +:+ entry) w)))
      by (apply getExecOutput_zero; assumption).
    rewrite (bind_ok _ _ _ _ _ E). rewrite Hbad. reflexivity.
  - apply bind_throw. apply getExecOutput_nonzero; assumption.
Qed.

(** Up to the first scan that reports a marker: the loop stops at that
    scan at the latest, and it stops with the answer [false] or with a
    raised error, never with [true]. *)
Lemma scanEntries_first_marker (tool sc dir : string) (before : list string)
  (failing : string) (after : list string) (w : World) (bad : ExecOutput) :
  (forall i entry o,
     before !! i = Some entry ->
     exec_reply (List.length (spawned w) + i) (completeScanCmd tool sc dir entry) = Exited o ->
     hasExecutionError o = false) ->
  exec_reply (List.length (spawned w) + List.length before)
    (completeScanCmd tool sc dir failing) = Exited bad ->
  hasExecutionError bad = true ->
  exists n r,
    (n <= List.length before)%nat
    /\ scanEntries tool sc dir (before ++ failing :: after) w
       = (r, scanned tool sc dir (take (S n) (before ++ [failing])) w)
    /\ (r = Ok false \/ exists message, r = Throw message)
    /\ ((forall i entry,
           before !! i = Some entry ->
           exists o,
             exec_reply (List.length (spawned w) + i) (completeScanCmd tool sc dir entry)
             = Exited o /\ exitCode o = 0) ->
        n = List.length before
        /\ r = if exitCode bad =? 0 then Ok false
               else Throw (exitError (completeScanCmd tool sc dir failing) (exitCode bad))).
Proof.
  revert w. induction before as [|entry before IH]; intros w Hclean Hbad Hmark.
  - rewrite Nat.add_0_r in Hbad.
    exists 0%nat. eexists. split; [reflexivity|].
    split; [apply (scanEntries_stop _ _ _ _ _ _ _ Hbad Hmark)|].
    split; [|intros _; split; reflexivity].
    destruct (exitCode bad =? 0); [left; reflexivity|right; eexists; reflexivity].
  - set (cmd := completeScanCmd tool sc dir entry).
    set (w1 := addSpawned cmd (addInfo ("Scanning file for malware: " +:+ entry) w)).
    assert (Estep : forall r,
              getExecOutput cmd (addInfo ("Scanning file for malware: " +:+ entry) w)
              = (r, w1) ->
              scanEntries tool sc dir ((entry :: before) ++ failing :: after) w
              = match r with
                | Ok execResult =>
                    if hasExecutionError execResult then (Ok false, w1)
                    else scanEntries tool sc dir (before ++ failing :: after) w1
                | Throw message => (Throw message, w1)
                | Exit c => (Exit c, w1)
                end).
    { intros r Er. cbn [app scanEntries]. unfold bind at 1. unfold info at 1.
      unfold bind at 1. fold cmd. rewrite Er.
      destruct r as [a|m|c]; [destruct (hasExecutionError a)| |]; reflexivity. }
    assert (Estop : forall message,
              getExecOutput cmd (addInfo ("Scanning file for malware: " +:+ entry) w)
              = (Throw message, w1) ->
              exists n r,
                (n <= List.length (entry :: before))%nat
                /\ scanEntries tool sc dir ((entry :: before) ++ failing :: after) w
                   = (r, scanned tool sc dir (take (S n) ((entry :: before) ++ [failing])) w)
                /\ (r = Ok false \/ exists message, r = Throw message)
                /\ ((forall i e,
                       (entry :: before) !! i = Some e ->
                       exists o,
                         exec_reply (List.length (spawned w) + i)
                           (completeScanCmd tool sc dir e) = Exited o /\ exitCode o = 0) ->
                    n = List.length (entry :: before)
                    /\ r = if exitCode bad =? 0 then Ok false
                           else Throw (exitError (completeScanCmd tool sc dir failing)
                                         (exitCode bad)))).
    { intros message Er. exists 0%nat, (Throw message).
      split; [simpl; lia|]. split; [rewrite (Estep _ Er); reflexivity|].
      split; [right; eexists; reflexivity|].
      intros Hzero. destruct (Hzero 0%nat entry eq_refl) as (o & Ho & Hz).
      rewrite Nat.add_0_r in Ho. fold cmd in Ho.
      unfold getExecOutput in Er. cbn [spawned addInfo] in Er.
      rewrite Ho, Hz in Er. discriminate Er. }
    destruct (exec_reply (List.length (spawned w)) cmd) as [o|message] eqn:Er.
    + destruct (Z.eqb_spec (exitCode o) 0) as [Hz|Hnz].
      * assert (Hno : hasExecutionError o = false).
        { apply (Hclean 0%nat entry o eq_refl). rewrite Nat.add_0_r. exact Er. }
        assert (Eg : getExecOutput cmd (addInfo ("Scanning file for malware: " +:+ entry) w)
                     = (Ok o, w1)) by (apply getExecOutput_zero; assumption).
        destruct (IH w1) as (n & r & Hn & Es & Hr & Hfull).
        { intros i e o' Hi Ho'. apply (Hclean (S i) e o' Hi).
          rewrite <- Ho'. unfold w1. cbn [spawned addSpawned addInfo].
          rewrite length_app. simpl. f_equal. lia. }
        { rewrite <- Hbad. unfold w1. cbn [spawned addSpawned addInfo].
          rewrite length_app. simpl. f_equal. lia. }
        { exact Hmark. }
        exists (S n), r. split; [simpl; lia|].
        split; [rewrite (Estep _ Eg), Hno; exact Es|]. split; [exact Hr|].
        intros Hzero. destruct Hfull as [-> ->].
        { intros i e Hi. destruct (Hzero (S i) e Hi) as (o' & Ho' & Hz').
          exists o'. split; [|exact Hz'].
          rewrite <- Ho'. unfold w1. cbn [spawned addSpawned addInfo].
          rewrite length_app. simpl. f_equal. lia. }
        split; reflexivity.
      * apply (Estop (exitError cmd (exitCode o))).
        apply getExecOutput_nonzero; assumption.
    + apply (Estop message).
      unfold getExecOutput. cbn [spawned addInfo]. rewrite Er. reflexivity.
Qed.

(** The full command consists of the tool invocation, a space, and a
    parameter string that starts with the operation. *)
Lemma prepare_commands (w1 w2 : World) (op tool full : string) :
  prepare w1 = (Ok (op, tool, full), w2) ->
  exists rest, full = tool +:+ " " +:+ op +:+ rest.
Proof.
  unfold prepare. intros E.
  apply bind_inv_ok in E as (op' & wa & E1 & E).
  injection E1 as <- <-.
  apply bind_inv_ok in E as (params & wb & Ea & E).
  apply bind_inv_ok in E as ([] & wc & _ & E).
  apply bind_inv_ok in E as (javaPath & wd & _ & E).
  apply bind_inv_ok in E as (tc & we & _ & E).
  apply bind_inv_ok in E as ([] & wf & _ & E).
  injection E as Eop Etool Efull _.
  rewrite assembleCommandString_unfold in Ea.
  apply bind_inv_ok in Ea as (base & wg & Eb & Ea).
  injection Eb as <- <-.
  apply appendAll_steps in Ea as [-> _].
  eexists. rewrite <- Efull, <- Etool, <- Eop. reflexivity.
Qed.

Lemma scan_is_not_signing (tool dir entry rest : string) (e : list (string * string)) :
  completeScanCmd tool (scanCommandIn e "batch_sign") dir entry
  <> tool +:+ " " +:+ "batch_sign" +:+ rest.
Proof.
  unfold completeScanCmd, scanCommandIn, OPERATIONS.CODE_SCAN. intros E.
  apply app_inv_head_s in E. rewrite !app_assoc_s in E. norm_app_in E.
  discriminate E.
Qed.

End Scan.

(** C3: in a [batch_sign] run with malware scanning enabled, the entries
    of the input directory are scanned one at a time in the order in
    which [fs.readdirSync] lists them;
    every scan command is the tool invocation followed by [scan_code],
    the flags of username, password, credential id and program name, and
    the path of that one entry.  When [failing] is the first entry whose
    scan output contains an error marker, the run ends as failed and the
    processes it has spawned are the scans of an initial segment of the
    listing that ends at [failing] at the latest: the signing command has
    not been run, no entry after [failing] has been scanned, and no
    output is published.  When the scans before it ended with status
    zero, the segment is all of [before] followed by [failing]. *)
Theorem C3_malware_scan_short_circuit `{Host} `{JdkProvider}
  (w0 w1 w2 : World) (tool full : string)
  (before : list string) (failing : string) (after : list string) (bad : ExecOutput) :
  let e := env w2 in
  let targetDirectory := path_normalize (inputValueIn e INPUT_KEYS.DIR) in
  let scanCommand :=
    "scan_code" +:+ appended e "batch_sign" "username"
      +:+ appended e "batch_sign" "password"
      +:+ appended e "batch_sign" "credential_id"
      +:+ appended e "batch_sign" "program_name" in
  let scanOf := fun entry =>
    tool +:+ " " +:+ scanCommand +:+ " -input_file_path=" +:+ dquote
      +:+ path_join targetDirectory entry +:+ dquote in
  validateSubscription w0 = (Ok tt, w1) ->
  prepare w1 = (Ok ("batch_sign", tool, full), w2) ->
  Js.toUpperCase (getInputIn e "malware_block") = "TRUE" ->
  readdirSync targetDirectory w2 = (Ok (before ++ failing :: after), w2) ->
  (forall i entry o,
     before !! i = Some entry ->
     exec_reply (List.length (spawned w2) + i) (scanOf entry) = Exited o ->
     hasExecutionError o = false) ->
  exec_reply (List.length (spawned w2) + List.length before) (scanOf failing) = Exited bad ->
  hasExecutionError bad = true ->
  exists w' n message,
    main w0 = (Ok tt, w')
    /\ failure w' = Some message
    /\ (n <= List.length before)%nat
    /\ spawned w' = spawned w2 ++ map scanOf (take (S n) (before ++ [failing]))
    /\ ~ In full (map scanOf (before ++ [failing]))
    /\ outputs w' = outputs w2
    /\ ((forall i entry,
           before !! i = Some entry ->
           exists o,
             exec_reply (List.length (spawned w2) + i) (scanOf entry) = Exited o
             /\ exitCode o = 0) ->
        spawned w' = spawned w2 ++ map scanOf before ++ [scanOf failing]
        /\ message = if exitCode bad =? 0 then failureMessage
                     else exitError (scanOf failing) (exitCode bad)).
Proof.
  intros e targetDirectory scanCommand scanOf Hv Hp Hscan Hdir Hclean Hbad Hmark.
  assert (Esc : scanCommand = scanCommandIn e "batch_sign").
  { unfold scanCommand, scanCommandIn, scanParamKeys, OPERATIONS.CODE_SCAN.
    simpl. rewrite app_empty_r. reflexivity. }
  assert (Eof : forall entry,
            scanOf entry
            = completeScanCmd tool (scanCommandIn e "batch_sign") targetDirectory entry).
  { intros entry. unfold scanOf, completeScanCmd. rewrite Esc. reflexivity. }
  set (wa := addInfo "Malware scanning: enabled" w2).
  set (sc := scanCommandIn e "batch_sign") in *.
  destruct (scanEntries_first_marker tool sc targetDirectory before failing after wa bad)
    as (n & r & Hn & Eloop & Hr & Hfull).
  { intros i entry o Hi Ho. apply (Hclean i entry o Hi).
    rewrite Eof. exact Ho. }
  { rewrite <- Eof. exact Hbad. }
  { exact Hmark. }
  set (wf := scanned tool sc targetDirectory (take (S n) (before ++ [failing])) wa) in *.
  assert (Escan : performMalwareScan tool "batch_sign" wa = (r, wf)).
  { unfold performMalwareScan.
    rewrite (bind_ok _ _ _ _ _ (buildScanCommand_eq "batch_sign" wa)).
    rewrite (bind_ok _ _ _ _ _ (fetchInputValue_eq INPUT_KEYS.DIR wa)).
    change (env wa) with e. fold targetDirectory. fold sc.
    assert (Erd : readdirSync targetDirectory wa = (Ok (before ++ failing :: after), wa)).
    { unfold readdirSync in Hdir |- *. change (fs wa) with (fs w2).
      destruct (statAt (fs w2) targetDirectory) as [| |[content|entries]];
        try discriminate Hdir.
      injection Hdir as ->. reflexivity. }
    rewrite (bind_ok _ _ _ _ _ Erd). exact Eloop. }
  assert (Etrace : spawned wf = spawned w2 ++ map scanOf (take (S n) (before ++ [failing]))).
  { unfold wf. rewrite scanned_spawned. change (spawned wa) with (spawned w2).
    f_equal. apply map_ext. intros entry. symmetry. apply Eof. }
  assert (Eout : outputs wf = outputs w2).
  { unfold wf. rewrite scanned_outputs. reflexivity. }
  assert (Egate : scanGate "batch_sign" tool w2
                  = match r with
                    | Ok false => (Ok false, setFailure failureMessage (addInfo "" wf))
                    | Ok true => (Ok true, wf)
                    | Throw message => (Throw message, wf)
                    | Exit c => (Exit c, wf)
                    end).
  { unfold scanGate, bind at 1. unfold getInput at 1. fold e.
    change (getInputIn e INPUT_KEYS.MALWARE_CHECK) with (getInputIn e "malware_block").
    rewrite Hscan.
    change (String.eqb "TRUE" "TRUE") with true.
    change (String.eqb "batch_sign" OPERATIONS.BULK_SIGN) with true. cbn [andb].
    unfold bind at 1. unfold info at 1.
    change ("Malware scanning: " +:+ "enabled") with "Malware scanning: enabled".
    fold wa. unfold bind at 1. rewrite Escan.
    destruct r as [[|]|message|c]; reflexivity. }
  assert (Enot : ~ In full (map scanOf (before ++ [failing]))).
  { destruct (prepare_commands _ _ _ _ _ Hp) as [rest ->].
    intros Hin. apply in_map_iff in Hin as (entry & Hin & _).
    rewrite Eof in Hin. exact (scan_is_not_signing _ _ _ _ _ Hin). }
  assert (Hall : (forall i entry,
             before !! i = Some entry ->
             exists o,
               exec_reply (List.length (spawned w2) + i) (scanOf entry) = Exited o
               /\ exitCode o = 0) ->
            take (S n) (before ++ [failing]) = before ++ [failing]
            /\ r = if exitCode bad =? 0 then Ok false
                   else Throw (exitError (scanOf failing) (exitCode bad))).
  { intros Hzero. destruct Hfull as [-> ->].
    - intros i entry Hi. destruct (Hzero i entry Hi) as (o & Ho & Hz).
      exists o. split; [|exact Hz]. rewrite <- Eof. exact Ho.
    - split; [|rewrite Eof; reflexivity].
      apply firstn_all2. rewrite length_app. simpl. lia. }
  destruct Hr as [->|[message ->]].
  - exists (setFailure failureMessage (addInfo "" wf)), n, failureMessage.
    split; [exact (main_stops _ _ _ _ _ _ _ Hv Hp Egate)|].
    split; [reflexivity|]. split; [exact Hn|].
    cbn [spawned outputs setFailure addInfo].
    split; [exact Etrace|]. split; [exact Enot|]. split; [exact Eout|].
    intros Hzero. destruct (Hall Hzero) as [Etake Er].
    split.
    + rewrite Etrace, Etake, map_app. reflexivity.
    + destruct (exitCode bad =? 0); [reflexivity|discriminate Er].
  - exists (setFailure message wf), n, message.
    split; [exact (main_scan_raises _ _ _ _ _ _ _ _ Hv Hp Egate)|].
    split; [reflexivity|]. split; [exact Hn|].
    cbn [spawned outputs setFailure].
    split; [exact Etrace|]. split; [exact Enot|]. split; [exact Eout|].
    intros Hzero. destruct (Hall Hzero) as [Etake Er].
    split.
    + rewrite Etrace, Etake, map_app. reflexivity.
    + destruct (exitCode bad =? 0); [discriminate Er|].
      injection Er as ->. reflexivity.
Qed.

Lemma C3_malware_scan_short_circuit_witness :
  let tool := "/bin/bash /work/codesign/CodeSignTool-v1.3.0/CodeSignTool.sh" in
  let scan := fun file =>
    tool +:+ " scan_code" +:+ quotedFlag "username" "alice"
      +:+ quotedFlag "password" "s3cr3t" +:+ quotedFlag "credential_id" "cred-1"
      +:+ quotedFlag "input_file_path" file in
  exists w',
    @main Scenario.secondFails Posix.unreachableProvider Scenario.batchRun = (Ok tt, w')
    /\ failure w' = Some failureMessage
    /\ spawned w' = [scan "/work/in/a.exe"; scan "/work/in/b.exe"]
    /\ outputs w' = [].
Proof.
  intros tool scan.
  pose (w2 := snd (@prepare Scenario.secondFails Posix.unreachableProvider Scenario.batchRun)).
  pose (full := tool +:+ " batch_sign" +:+ quotedFlag "username" "alice"
          +:+ quotedFlag "password" "s3cr3t" +:+ quotedFlag "credential_id" "cred-1"
          +:+ quotedFlag "totp_secret" "totp" +:+ quotedFlag "input_dir_path" "/work/in").
  destruct (@C3_malware_scan_short_circuit Scenario.secondFails Posix.unreachableProvider
              Scenario.batchRun Scenario.batchRun w2 tool full
              ["a.exe"] "b.exe" ["c.exe"] Scenario.infected)
    as (w' & n & message & Hmain & Hfail & _ & _ & _ & Hout & Hexact).
  - reflexivity.
  - vm_compute. reflexivity.
  - vm_compute. reflexivity.
  - vm_compute. reflexivity.
  - intros [|i] entry o Hi Ho; [|discriminate Hi].
    injection Ho as <-. reflexivity.
  - reflexivity.
  - reflexivity.
  - destruct Hexact as [Htrace Hmessage].
    { intros [|i] entry Hi; [|discriminate Hi].
      exists Scenario.clean. split; reflexivity. }
    exists w'. split; [exact Hmain|]. split; [rewrite Hfail, Hmessage; reflexivity|]. split.
    + rewrite Htrace. vm_compute. reflexivity.
    + rewrite Hout. vm_compute. reflexivity.
Defined.

(* ===================================================================== *)
(** ** The JDK cache (searchToolCache, performSetup) *)
(* ===================================================================== *)

Example corretto_is_constructed :
  @newInstaller JdkScenario.runner "Corretto" = Ok JdkScenario.corretto.
Proof. reflexivity. Qed.

Example cache_listing :
  fst (@tc_findAllVersions JdkScenario.runner "Java_Corretto_jdk" "x64"
         (JdkScenario.start ["17.0.1-12"; "11.0.9-1"; "11.0.24.8.1"; "11.0.10-3"]))
  = Ok ["11.0.10-3"; "11.0.9-1"; "17.0.1-12"]
  /\ fst (@tc_findAllVersions JdkScenario.runner "Java_Corretto_jdk" "x64"
            (Posix.emptyWorld (JdkScenario.diskOf ["11.0.9-1"]) []))
     = Throw "Expected RUNNER_TOOL_CACHE to be defined".
Proof. split; vm_compute; reflexivity. Qed.

Example cache_pick_examples :
  fst (@performSetup JdkScenario.runner Posix.unreachableProvider
         JdkScenario.corretto (JdkScenario.start ["11.0.1-1"; "11.0.9-1"]))
  = Ok (mkJdkSetupResult "11.0.9+1" (JdkScenario.cacheDir "11.0.9-1"))
  /\ fst (@performSetup JdkScenario.runner Posix.unreachableProvider
         JdkScenario.corretto (JdkScenario.start ["11.0.9-1"; "11.0.10-3"]))
  = Ok (mkJdkSetupResult "11.0.10+3" (JdkScenario.cacheDir "11.0.10-3")).
Proof. repeat split; vm_compute; reflexivity. Qed.

(** Build identifiers that are equal as numbers and differ as text
    ([01] and [1]) end the comparison with a tie, and the comparator is
    no longer consistent.  A directory name carries them only behind a
    [+]: behind a [-] they make the name no explicit version, and the
    directory is not listed.  On the listing in name order the engine
    still arrives at the highest build. *)
Example cache_pick_with_ties :
  let plus := JdkScenario.start ["11.0.1+01.5"; "11.0.1+1.5"; "11.0.1+01.7"] in
  let minus := JdkScenario.start ["11.0.1-01.5"; "11.0.1-1.5"; "11.0.1-01.7"] in
  @listedVersions JdkScenario.runner JdkScenario.corretto plus
  = ["11.0.1+01.5"; "11.0.1+01.7"; "11.0.1+1.5"]
  /\ consistent descendingBuild (@candidates JdkScenario.runner JdkScenario.corretto plus)
     = false
  /\ fst (@performSetup JdkScenario.runner Posix.unreachableProvider
            JdkScenario.corretto plus)
     = Ok (mkJdkSetupResult "11.0.1+01.7" (JdkScenario.cacheDir "11.0.1+01.7"))
  /\ @listedVersions JdkScenario.runner JdkScenario.corretto minus = ["11.0.1-1.5"]
  /\ fst (@performSetup JdkScenario.runner Posix.unreachableProvider
            JdkScenario.corretto minus)
     = Ok (mkJdkSetupResult "11.0.1+1.5" (JdkScenario.cacheDir "11.0.1-1.5")).
Proof. repeat split; vm_compute; reflexivity. Qed.

(** *** Sorting with a comparator that is consistent on the elements *)

Section SortHead.
Context {A : Type} (comparator : A -> A -> option Z) (universe : list A).

Hypothesis comparable :
  forall a b, In a universe -> In b universe ->
  exists c, comparator a b = Some c /\ (0 < c -> precedes comparator b a).
Hypothesis transitive :
  forall a b c, In a universe -> In b universe -> In c universe ->
  precedes comparator a b -> precedes comparator b c -> precedes comparator a c.

Lemma precedes_refl (a : A) : In a universe -> precedes comparator a a.
Proof.
  intros Ha. destruct (comparable a a Ha Ha) as (c & Ec & Hc).
  destruct (Z_le_gt_dec c 0) as [Hle|Hgt].
  - exists c. auto.
  - apply Hc. lia.
Qed.

Lemma insertSorted_defined (x : A) (l : list A) :
  In x universe -> incl l universe ->
  exists l', insertSorted comparator x l = Some l'
    /\ (forall y, In y l' <-> In y (x :: l)).
Proof.
  intros Hx. induction l as [|y rest IH]; intros Hl.
  - exists [x]. split; [reflexivity|]. intros z. reflexivity.
  - assert (Hy : In y universe) by (apply Hl; left; reflexivity).
    assert (Hrest : incl rest universe) by (intros z Hz; apply Hl; right; exact Hz).
    destruct (comparable x y Hx Hy) as (c & Ec & _).
    simpl. rewrite Ec. destruct (c <=? 0).
    + eexists. split; [reflexivity|]. intros z. reflexivity.
    + destruct (IH Hrest) as (l' & El & Hin). rewrite El.
      eexists. split; [reflexivity|]. intros z. simpl. rewrite Hin. simpl. tauto.
Qed.

Lemma insertSorted_head (x : A) (l : list A) :
  In x universe -> incl l universe -> headFirst comparator l ->
  exists l', insertSorted comparator x l = Some l'
    /\ (forall y, In y l' <-> In y (x :: l))
    /\ headFirst comparator l'.
Proof.
  intros Hx Hl Hh. destruct l as [|y rest].
  - exists [x]. split; [reflexivity|]. split; [intros z; reflexivity|].
    intros z [<-|[]]. apply precedes_refl. exact Hx.
  - assert (Hy : In y universe) by (apply Hl; left; reflexivity).
    assert (Hrest : incl rest universe) by (intros z Hz; apply Hl; right; exact Hz).
    destruct (comparable x y Hx Hy) as (c & Ec & Hc).
    simpl. rewrite Ec. destruct (Z.leb_spec c 0) as [Hle|Hgt].
    + eexists. split; [reflexivity|]. split; [intros z; reflexivity|].
      intros z [<-|Hz]; [apply precedes_refl; exact Hx|].
      apply (transitive x y z Hx Hy (Hl z Hz)); [exists c; auto|apply Hh; exact Hz].
    + destruct (insertSorted_defined x rest Hx Hrest) as (l' & El & Hin).
      rewrite El. eexists. split; [reflexivity|].
      split; [intros z; simpl; rewrite Hin; simpl; tauto|].
      intros z [<-|Hz]; [apply precedes_refl; exact Hy|].
      apply Hin in Hz as [<-|Hz]; [apply Hc; exact Hgt|].
      apply Hh. right. exact Hz.
Qed.

Lemma stableSort_head (l : list A) :
  incl l universe ->
  exists sorted, stableSort comparator l = Some sorted
    /\ (forall y, In y sorted <-> In y l)
    /\ headFirst comparator sorted.
Proof.
  induction l as [|x rest IH]; intros Hl.
  - exists []. split; [reflexivity|]. split; [intros y; reflexivity|exact I].
  - assert (Hx : In x universe) by (apply Hl; left; reflexivity).
    assert (Hrest : incl rest universe) by (intros z Hz; apply Hl; right; exact Hz).
    destruct (IH Hrest) as (sorted & Es & Hin & Hh).
    simpl. rewrite Es.
    destruct (insertSorted_head x sorted Hx) as (l' & El & Hin' & Hh').
    + intros z Hz. apply Hrest, Hin. exact Hz.
    + exact Hh.
    + exists l'. split; [exact El|]. split; [|exact Hh'].
      intros z. rewrite Hin'. simpl. rewrite Hin. reflexivity.
Qed.

End SortHead.

(** What the conditions of the language say about three elements. *)
Lemma consistent_spec {A} (comparator : A -> A -> option Z) (l : list A) :
  consistent comparator l = true ->
  forall a b c, In a l -> In b l -> In c l ->
  let answer := answerOf comparator in
  comparator a b = Some (answer a b)
  /\ answer a a = 0
  /\ (answer a b = 0 -> answer b a = 0)
  /\ (answer a b = 0 -> answer b c = 0 -> answer a c = 0)
  /\ (answer a b < 0 -> answer b c < 0 -> answer a c < 0)
  /\ (0 < answer a b -> 0 < answer b c -> 0 < answer a c).
Proof.
  unfold consistent. intros Hc a b c Ha Hb Hcin.
  rewrite forallb_forall in Hc. specialize (Hc a Ha).
  rewrite forallb_forall in Hc. specialize (Hc b Hb).
  rewrite forallb_forall in Hc. specialize (Hc c Hcin).
  unfold consistentAt in Hc. cbv zeta. unfold answerOf.
  destruct (comparator a a) as [aa|]; [|discriminate Hc].
  destruct (comparator a b) as [ab|]; [|discriminate Hc].
  destruct (comparator b a) as [ba|]; [|discriminate Hc].
  destruct (comparator b c) as [bc|]; [|discriminate Hc].
  destruct (comparator a c) as [ac|]; [|discriminate Hc].
  apply andb_true_iff in Hc as [Hc H5]. apply andb_true_iff in Hc as [Hc H4].
  apply andb_true_iff in Hc as [Hc H3]. apply andb_true_iff in Hc as [H1 H2].
  apply Z.eqb_eq in H1.
  split; [reflexivity|]. split; [exact H1|].
  split; [|split; [|split]].
  - intros E. apply Z.eqb_eq in E. rewrite E in H2. apply Z.eqb_eq. exact H2.
  - intros E1 E2. apply Z.eqb_eq in E1, E2. rewrite E1, E2 in H3.
    apply Z.eqb_eq. exact H3.
  - intros E1 E2. apply Z.ltb_lt in E1, E2. rewrite E1, E2 in H4.
    apply Z.ltb_lt. exact H4.
  - intros E1 E2. apply Z.ltb_lt in E1, E2. rewrite E1, E2 in H5.
    apply Z.ltb_lt. exact H5.
Qed.

Lemma precedes_answer {A} (comparator : A -> A -> option Z) (a b : A) :
  comparator a b = Some (answerOf comparator a b) ->
  precedes comparator a b <-> answerOf comparator a b <= 0.
Proof.
  intros E. unfold precedes. split.
  - intros (c & Ec & Hc). rewrite E in Ec. injection Ec as <-. exact Hc.
  - intros Hle. eexists. split; [exact E|exact Hle].
Qed.

(** A consistent comparator is an ordering of the elements. *)
Lemma consistent_ordering {A} (comparator : A -> A -> option Z) (l : list A) :
  consistent comparator l = true ->
  (forall a b, In a l -> In b l ->
     exists c, comparator a b = Some c /\ (0 < c -> precedes comparator b a))
  /\ (forall a b c, In a l -> In b l -> In c l ->
        precedes comparator a b -> precedes comparator b c -> precedes comparator a c).
Proof.
  intros Hc. pose proof (consistent_spec comparator l Hc) as F. cbv zeta in F. split.
  - intros a b Ha Hb.
    destruct (F a b a Ha Hb Ha) as (Eab & Haa & _ & _ & _ & Hgt).
    destruct (F b a b Hb Ha Hb) as (Eba & _).
    eexists. split; [exact Eab|]. intros Hpos.
    apply (precedes_answer _ _ _ Eba). lia.
  - intros a b c Ha Hb Hcin Hab Hbc.
    destruct (F a b c Ha Hb Hcin) as (Eab & _ & Sab & Teq & Tlt & _).
    destruct (F b c a Hb Hcin Ha) as (Ebc & _ & Sbc & _ & Tlt' & _).
    destruct (F a c a Ha Hcin Ha) as (Eac & Haa & _ & _ & _ & Tgt).
    destruct (F c a b Hcin Ha Hb) as (Eca & _ & Sca & _ & Tlt'' & _).
    apply (precedes_answer _ _ _ Eab) in Hab.
    apply (precedes_answer _ _ _ Ebc) in Hbc.
    apply (precedes_answer _ _ _ Eac).
    destruct (Z_le_gt_dec (answerOf comparator a c) 0) as [Hle|Hgt]; [exact Hle|].
    exfalso.
    assert (Hca : answerOf comparator c a < 0) by lia.
    lia.
Qed.

Lemma sortBy_consistent `{Host} {A} (comparator : A -> A -> option Z) (l : list A) :
  consistent comparator l = true -> sortBy comparator l = stableSort comparator l.
Proof. intros Hc. unfold sortBy. rewrite Hc. reflexivity. Qed.

(** With a consistent comparator the sort succeeds, rearranges, and
    leaves at the head an element that precedes all others. *)
Lemma sortBy_head `{Host} {A} (comparator : A -> A -> option Z) (l : list A) :
  consistent comparator l = true ->
  exists sorted, sortBy comparator l = Some sorted
    /\ (forall y, In y sorted <-> In y l)
    /\ headFirst comparator sorted.
Proof.
  intros Hc. rewrite (sortBy_consistent _ _ Hc).
  destruct (consistent_ordering _ _ Hc) as [Hcomp Htrans].
  exact (stableSort_head comparator l Hcomp Htrans l (incl_refl _)).
Qed.

(** A list of one element is returned as it is. *)
Lemma isArrangement_one (order : list nat) :
  isArrangement 1 order = true -> order = [0%nat].
Proof.
  unfold isArrangement. destruct order as [|i [|j rest]]; try discriminate.
  simpl. destruct i; [reflexivity|discriminate].
Qed.

Lemma sortBy_one `{Host} {A} (comparator : A -> A -> option Z) (x : A) :
  sortBy comparator [x] = Some [x].
Proof.
  unfold sortBy. destruct (consistent comparator [x]); [reflexivity|].
  change (answers comparator [x]) with true. cbv iota.
  destruct (isArrangement (List.length [x]) _) eqn:E; [|reflexivity].
  apply isArrangement_one in E. rewrite E. reflexivity.
Qed.

(** *** The cache listing and the choice of the best entry *)

Lemma filterO_total {A} (p : A -> Outcome bool) (q : A -> bool) (l : list A) :
  (forall x, p x = Ok (q x)) -> filterO p l = Ok (List.filter q l).
Proof.
  intros Hp. induction l as [|x rest IH]; [reflexivity|].
  simpl. rewrite Hp, IH. destruct (q x); reflexivity.
Qed.

Lemma notBelow_spec (a b : string) :
  notBelow a b = true <-> exists c, Semver.compareBuild a b = Some c /\ 0 <= c.
Proof.
  unfold notBelow. destruct (Semver.compareBuild a b) as [c|].
  - rewrite Z.leb_le. split; [intros Hc; exists c; auto|].
    intros (c' & E & Hc). injection E as <-. exact Hc.
  - split; [discriminate|]. intros (c & E & _). discriminate E.
Qed.

Lemma precedes_descending (a b : CacheEntry) :
  precedes descendingBuild a b <-> notBelow (entry_version a) (entry_version b) = true.
Proof.
  rewrite notBelow_spec. unfold precedes, descendingBuild.
  destruct (Semver.compareBuild (entry_version a) (entry_version b)) as [c|].
  - split.
    + intros (d & E & Hd). injection E as <-. exists c. split; [reflexivity|lia].
    + intros (c' & E & Hc). injection E as <-. exists (- c). split; [reflexivity|lia].
  - split; intros (c & E & _); discriminate E.
Qed.

Section Cache.
Context `{Host} `{JdkProvider}.

Lemma findCachedTool_eq (toolName version architecture : string) (w : World) :
  findCachedTool toolName version architecture w
  = (Ok (let fullPath :=
           join4 (nullish (lookupEnv "RUNNER_TOOL_CACHE" (env w)) "") toolName version
             architecture in
         if existsIn (fs w) fullPath then Some fullPath else None), w).
Proof.
  unfold findCachedTool. cbv zeta. destruct (existsIn (fs w) _); reflexivity.
Qed.

Lemma mapM_entries (this : Installer) (names : list string) (w : World) :
  mapM (fun versionStr =>
          bind (findCachedTool (cachedToolDirectory this) versionStr (systemArchitecture this))
            (fun found =>
               ret (mkCacheEntry (normalizeVersionString versionStr) (nullish found "")
                      (negb (Js.includes versionStr "-ea")))))
       names w
  = (Ok (map (entryOf this w) names), w).
Proof.
  induction names as [|name rest IH]; [reflexivity|].
  cbn [mapM map]. unfold bind at 1. unfold bind at 1.
  rewrite findCachedTool_eq. cbv zeta. unfold ret at 1.
  unfold bind at 1. rewrite IH. unfold ret. f_equal. f_equal. f_equal.
  unfold entryOf. cbv zeta. destruct (existsIn (fs w) _); reflexivity.
Qed.

(** The listing reads the disk and leaves the world as it is. *)
Lemma completeVersions_world (toolPath arch : string) (children : list string) (w : World) :
  exists names, completeVersions toolPath arch children w = (Ok names, w).
Proof.
  induction children as [|child rest IH]; [eexists; reflexivity|].
  destruct IH as (names & IH). cbn [completeVersions].
  destruct (isExplicitVersion child); [|eexists; exact IH].
  unfold bind at 1. unfold existsSync at 1.
  unfold bind at 1. unfold existsSync at 1.
  unfold bind at 1. rewrite IH. eexists. reflexivity.
Qed.

Lemma tc_findAllVersions_world (toolName arch : string) (w : World) :
  snd (tc_findAllVersions toolName arch w) = w.
Proof.
  unfold tc_findAllVersions. cbv zeta. unfold bind at 1.
  unfold _getCacheDirectory. cbv zeta.
  destruct (String.eqb _ ""); [reflexivity|].
  unfold bind at 1. unfold existsSync at 1.
  destruct (existsIn (fs w) _); [|reflexivity].
  unfold bind at 1. unfold readdirSync.
  destruct (statAt (fs w) _) as [| |[content|entries]]; try reflexivity.
  destruct (completeVersions_world
              (path_join (Js.orElse (nullish (lookupEnv "RUNNER_TOOL_CACHE" (env w)) "") "")
                 toolName)
              (Js.orElse arch os_arch) (sortNames entries) w) as (names & E).
  rewrite E. reflexivity.
Qed.

Lemma listedVersions_ok (this : Installer) (w : World) (name : string) :
  In name (listedVersions this w) ->
  tc_findAllVersions (cachedToolDirectory this) (systemArchitecture this) w
  = (Ok (listedVersions this w), w).
Proof.
  unfold listedVersions. intros Hin.
  pose proof (tc_findAllVersions_world (cachedToolDirectory this) (systemArchitecture this) w)
    as Ew.
  destruct (tc_findAllVersions (cachedToolDirectory this) (systemArchitecture this) w)
    as [[names|e|c] w1]; cbn [fst snd] in *; try contradiction.
  rewrite Ew. reflexivity.
Qed.

Lemma listedVersions_eq (this : Installer) (w : World) (names : list string) :
  tc_findAllVersions (cachedToolDirectory this) (systemArchitecture this) w = (Ok names, w) ->
  listedVersions this w = names.
Proof. intros E. unfold listedVersions. rewrite E. reflexivity. Qed.

Lemma getCachedVersionsList_eq (this : Installer) (w : World) (names : list string) :
  tc_findAllVersions (cachedToolDirectory this) (systemArchitecture this) w = (Ok names, w) ->
  getCachedVersionsList this w = (Ok (cachedEntries this w), w).
Proof.
  intros E. unfold getCachedVersionsList, cachedEntries.
  rewrite (listedVersions_eq _ _ _ E).
  rewrite (bind_ok _ _ _ _ _ E).
  rewrite (bind_ok _ _ _ _ _ (mapM_entries this names w)). reflexivity.
Qed.

Lemma candidates_listed (this : Installer) (w : World) :
  candidates this w <> [] ->
  tc_findAllVersions (cachedToolDirectory this) (systemArchitecture this) w
  = (Ok (listedVersions this w), w).
Proof.
  intros Hne. destruct (listedVersions this w) as [|name rest] eqn:El.
  - destruct Hne. unfold candidates, cachedEntries. rewrite El. reflexivity.
  - rewrite <- El. apply (listedVersions_ok this w name). rewrite El. left. reflexivity.
Qed.

(** The search for a request that is a range: the head of the sorted
    candidates. *)
Lemma searchToolCache_candidates (this : Installer) (w : World) (names : list string) :
  exactWithBuild (jdkVersion this) = false ->
  tc_findAllVersions (cachedToolDirectory this) (systemArchitecture this) w = (Ok names, w) ->
  searchToolCache this w
  = match sortBy descendingBuild (candidates this w) with
    | Some [] => (Ok None, w)
    | Some (bestMatch :: _) =>
        (Ok (Some (mkJdkSetupResult (entry_version bestMatch) (entry_path bestMatch))), w)
    | None => (Throw "Invalid Version", w)
    end.
Proof.
  intros Hrange El. unfold searchToolCache.
  rewrite (bind_ok _ _ _ _ _ (getCachedVersionsList_eq this w names El)).
  unfold filterAndSortVersions.
  rewrite (filterO_total _
             (fun entry => Semver.satisfies semver_otherRanges (entry_version entry)
                             (jdkVersion this)))
    by (intros x; apply compatibility_range; exact Hrange).
  fold (candidates this w).
  destruct (sortBy descendingBuild (candidates this w)) as [[|best rest]|]; reflexivity.
Qed.

(** The cache search returns the head of the sorted candidates, and that
    head is not below any candidate. *)
Lemma searchToolCache_best (this : Installer) (w : World) :
  exactWithBuild (jdkVersion this) = false ->
  candidates this w <> [] ->
  consistent descendingBuild (candidates this w) = true ->
  exists best,
    searchToolCache this w
    = (Ok (Some (mkJdkSetupResult (entry_version best) (entry_path best))), w)
    /\ In best (candidates this w)
    /\ forall other, In other (candidates this w) ->
         notBelow (entry_version best) (entry_version other) = true.
Proof.
  intros Hrange Hne Hcons.
  destruct (sortBy_head descendingBuild (candidates this w) Hcons)
    as (sorted & Es & Hin & Hhead).
  destruct sorted as [|best rest].
  - destruct (candidates this w) as [|x l]; [contradiction|].
    destruct (proj2 (Hin x) (or_introl eq_refl)).
  - exists best. split; [|split].
    + rewrite (searchToolCache_candidates this w _ Hrange (candidates_listed this w Hne)).
      rewrite Es. reflexivity.
    + apply Hin. left. reflexivity.
    + intros other Ho. apply precedes_descending. apply Hhead, Hin, Ho.
Qed.

(** With a cache hit and no request for the latest release, the setup
    never touches the network or the disk. *)
Lemma performSetup_cached (this : Installer) (w : World) (found : JdkSetupResult) :
  searchToolCache this w = (Ok (Some found), w) ->
  shouldCheckLatest this = false ->
  exists w',
    performSetup this w
    = (Ok (if String.eqb process_platform "darwin"
              && existsIn (fs w) (path_join (jdk_path found) JAVA_MAC_PATH_SUFFIX)
           then mkJdkSetupResult (jdk_version found)
                  (path_join (jdk_path found) JAVA_MAC_PATH_SUFFIX)
           else found), w')
    /\ remote w' = remote w
    /\ fs w' = fs w.
Proof.
  intros Es Hl. unfold performSetup.
  rewrite (bind_ok _ _ _ _ _ Es). rewrite Hl. cbn [negb].
  unfold bind at 1. unfold bind at 1. unfold info at 1. unfold ret at 1.
  unfold adjustForMacOS. unfold bind at 1. unfold bind at 1. unfold existsSync at 1.
  cbn [fs addInfo].
  destruct (String.eqb process_platform "darwin"
            && existsIn (fs w) (path_join (jdk_path found) JAVA_MAC_PATH_SUFFIX));
    eexists; (split; [reflexivity|split; reflexivity]).
Qed.

End Cache.


(* ===================================================================== *)
(** ** Interpolation of environment variables (expandEnvironmentVars) *)
(* ===================================================================== *)

Lemma getSubstitution_plain (matched before after rep : string) :
  Js.count "$" rep = 0%nat -> Js.getSubstitution matched before after rep = rep.
Proof.
  induction rep as [|c r IH]; intros Hc; [reflexivity|].
  apply count_cons_zero in Hc as [E Hc].
  simpl. rewrite Ascii.eqb_sym, E. rewrite IH by exact Hc. reflexivity.
Qed.

Lemma getSubstitution_skip (matched before after x r : string) :
  Js.count "$" x = 0%nat ->
  Js.getSubstitution matched before after (x +:+ r)
  = x +:+ Js.getSubstitution matched before after r.
Proof.
  induction x as [|c x IH]; intros Hc; [reflexivity|].
  apply count_cons_zero in Hc as [E Hc].
  rewrite !app_cons. simpl. rewrite Ascii.eqb_sym, E. rewrite IH by exact Hc. reflexivity.
Qed.

Lemma startsWith_app (p t : string) : Js.startsWith (p +:+ t) p = true.
Proof.
  induction p as [|c p IH]; [reflexivity|].
  rewrite app_cons. simpl. rewrite Ascii.eqb_refl. exact IH.
Qed.

Lemma sliceFrom_app (p t : string) : Js.sliceFrom (String.length p) (p +:+ t) = t.
Proof. induction p as [|c p IH]; [reflexivity|]. rewrite app_cons. simpl. exact IH. Qed.

(** A pattern that does not occur is not replaced. *)
Lemma replaceFrom_not_included (s p rep before : string) :
  Js.includes s p = false -> Js.replaceFrom before s p rep = before +:+ s.
Proof.
  destruct p as [|c p]; [destruct s; discriminate|].
  revert before. induction s as [|d s IH]; intros before E.
  - simpl. symmetry. apply app_empty_r.
  - simpl in E. apply orb_false_iff in E as [E1 E2].
    simpl. rewrite E1.
    rewrite IH by exact E2. unfold Js.str1. rewrite app_assoc_s. reflexivity.
Qed.

Lemma replace_not_included (s p rep : string) :
  Js.includes s p = false -> Js.replace s p rep = s.
Proof. intros E. unfold Js.replace. rewrite replaceFrom_not_included by exact E. reflexivity. Qed.

(** The first occurrence, after a prefix free of the pattern's first
    character, is the one replaced. *)
Lemma replace_at (c : ascii) (p rep a t : string) :
  Js.count c a = 0%nat ->
  Js.replace (a +:+ String c p +:+ t) (String c p) rep
  = a +:+ Js.getSubstitution (String c p) a t rep +:+ t.
Proof.
  intros Hc. unfold Js.replace. rewrite replaceFrom_skip by exact Hc.
  rewrite app_empty_l.
  destruct (String c p +:+ t) as [|x y] eqn:Ex; [discriminate|].
  rewrite <- Ex.
  assert (Es : Js.replaceFrom a (String c p +:+ t) (String c p) rep
               = if Js.startsWith (String c p +:+ t) (String c p)
                 then a +:+ Js.getSubstitution (String c p) a
                        (Js.sliceFrom (String.length (String c p)) (String c p +:+ t)) rep
                        +:+ Js.sliceFrom (String.length (String c p)) (String c p +:+ t)
                 else Js.replaceFrom (a +:+ Js.str1 x) y (String c p) rep).
  { rewrite Ex. reflexivity. }
  rewrite Es, startsWith_app, sliceFrom_app. reflexivity.
Qed.

Lemma includes_skip (c : ascii) (p a t : string) :
  Js.count c a = 0%nat ->
  Js.includes (a +:+ t) (String c p) = Js.includes t (String c p).
Proof.
  induction a as [|d a IH]; intros Hc; [reflexivity|].
  apply count_cons_zero in Hc as [E Hc].
  rewrite app_cons. simpl. rewrite E. simpl. auto.
Qed.

Lemma includes_empty (c : ascii) (p : string) : Js.includes "" (String c p) = false.
Proof. reflexivity. Qed.

(** Two names without a closing brace whose markers match at the same
    place are the same name. *)
Lemma startsWith_names (k k' t : string) :
  Js.count "}" k = 0%nat -> Js.count "}" k' = 0%nat ->
  Js.startsWith (k +:+ "}" +:+ t) (k' +:+ "}") = true -> k = k'.
Proof.
  revert k. induction k' as [|c' k' IH]; intros k Hk Hk' E.
  - destruct k as [|c k]; [reflexivity|].
    apply count_cons_zero in Hk as [Hc _].
    rewrite app_cons, app_empty_l in E. cbn [Js.startsWith] in E.
    rewrite Hc in E. discriminate.
  - apply count_cons_zero in Hk' as [Hc' Hk'].
    destruct k as [|c k].
    + rewrite app_empty_l, !app_cons in E. cbn [Js.startsWith] in E.
      rewrite Ascii.eqb_sym, Hc' in E. discriminate.
    + apply count_cons_zero in Hk as [Hc Hk].
      rewrite !app_cons in E. cbn [Js.startsWith] in E.
      apply andb_true_iff in E as [E1 E2].
      apply Ascii.eqb_eq in E1. subst c'. f_equal. eapply IH; eauto.
Qed.

Lemma plainName_spec (name : string) :
  plainName name = true <-> Js.count "$" name = 0%nat /\ Js.count "}" name = 0%nat.
Proof.
  unfold plainName. rewrite andb_true_iff, !Nat.eqb_eq. reflexivity.
Qed.

Lemma markerOf_cons (name : string) :
  markerOf name = String "$" (String "{" (name +:+ "}")).
Proof. reflexivity. Qed.

Lemma replace_marker (k rep a t : string) :
  Js.count "$" a = 0%nat ->
  Js.replace (a +:+ markerOf k +:+ t) (markerOf k) rep
  = a +:+ Js.getSubstitution (markerOf k) a t rep +:+ t.
Proof. rewrite markerOf_cons. apply replace_at. Qed.

(** The marker of another name does not occur where the marker of [k]
    stands. *)
Lemma includes_marker_step (k k' t : string) :
  plainName k = true -> plainName k' = true -> k <> k' ->
  Js.includes (markerOf k +:+ t) (markerOf k') = Js.includes t (markerOf k').
Proof.
  intros Hk Hk' Hne.
  apply plainName_spec in Hk as [Hk1 Hk2]. apply plainName_spec in Hk' as [Hk1' Hk2'].
  rewrite !markerOf_cons, !app_cons.
  change (Js.includes (String "$" (String "{" ((k +:+ "}") +:+ t)))
            (String "$" (String "{" (k' +:+ "}"))))
    with (Js.startsWith (String "$" (String "{" ((k +:+ "}") +:+ t)))
            (String "$" (String "{" (k' +:+ "}")))
          || Js.includes (String "{" ((k +:+ "}") +:+ t)) (String "$" (String "{" (k' +:+ "}")))).
  assert (E1 : Js.startsWith (String "$" (String "{" ((k +:+ "}") +:+ t)))
                 (String "$" (String "{" (k' +:+ "}"))) = false).
  { destruct (Js.startsWith _ _) eqn:E; [|reflexivity].
    simpl in E. rewrite app_assoc_s in E.
    apply startsWith_names in E; [contradiction|assumption|assumption]. }
  rewrite E1. cbn [orb].
  change (String "{" ((k +:+ "}") +:+ t)) with ((String "{" (k +:+ "}")) +:+ t).
  apply includes_skip.
  rewrite <- app_cons, count_app. simpl. rewrite Hk1. reflexivity.
Qed.

(** A text whose only markers are those of [k] holds no marker of
    another name. *)
Lemma includes_marked (k k' : string) (pieces : list string) :
  plainName k = true -> plainName k' = true -> k <> k' ->
  Forall (fun p => Js.count "$" p = 0%nat) pieces ->
  Js.includes (arrayJoin (markerOf k) pieces) (markerOf k') = false.
Proof.
  intros Hk Hk' Hne Hp. induction Hp as [|p rest Hp Hrest IH]; [reflexivity|].
  destruct rest as [|q rest].
  - simpl. rewrite markerOf_cons. apply includes_absent. exact Hp.
  - change (arrayJoin (markerOf k) (p :: q :: rest))
      with (p +:+ markerOf k +:+ arrayJoin (markerOf k) (q :: rest)).
    rewrite (markerOf_cons k') at 1. rewrite includes_skip by exact Hp.
    rewrite <- markerOf_cons. rewrite includes_marker_step by assumption. exact IH.
Qed.

Lemma expandWith_not_included (e : list (string * string)) (text : string) :
  Forall (fun kv => Js.includes text (markerOf (fst kv)) = false) e ->
  expandWith e text = text.
Proof.
  induction 1 as [|[k v] e Hk _ IH]; [reflexivity|].
  simpl. fold (markerOf k). rewrite replace_not_included by exact Hk. exact IH.
Qed.

Lemma expandWith_plain (e : list (string * string)) (text : string) :
  Js.count "$" text = 0%nat -> expandWith e text = text.
Proof.
  intros Hc. apply expandWith_not_included.
  apply Forall_forall. intros kv _. rewrite markerOf_cons. apply includes_absent. exact Hc.
Qed.

Lemma lookupEnv_None (k : string) (e : list (string * string)) :
  lookupEnv k e = None <-> ~ In k (map fst e).
Proof.
  induction e as [|[k' v'] e IH]; simpl.
  - split; [tauto|reflexivity].
  - destruct (String.eqb k' k) eqn:E.
    + apply String.eqb_eq in E. split; [discriminate|]. intros Hn. exfalso. auto.
    + apply String.eqb_neq in E. rewrite IH. tauto.
Qed.

Lemma lookupEnv_In (k v : string) (e : list (string * string)) :
  lookupEnv k e = Some v -> In (k, v) e.
Proof.
  induction e as [|[k' v'] e IH]; simpl; [discriminate|].
  destruct (String.eqb k' k) eqn:E.
  - apply String.eqb_eq in E. intros [= ->]. left. congruence.
  - auto.
Qed.

(** Variables other than [k] leave a text alone whose only markers are
    those of [k]. *)
Lemma expandWith_others (e : list (string * string)) (k : string) (pieces : list string) :
  Forall (fun kv => plainName (fst kv) = true) e ->
  plainName k = true ->
  ~ In k (map fst e) ->
  Forall (fun p => Js.count "$" p = 0%nat) pieces ->
  expandWith e (arrayJoin (markerOf k) pieces) = arrayJoin (markerOf k) pieces.
Proof.
  intros He Hk Hn Hp. apply expandWith_not_included.
  apply Forall_forall. intros [k' v'] Hin. apply list_elem_of_In in Hin.
  rewrite Forall_forall in He.
  apply includes_marked; try assumption.
  - apply (He (k', v')). apply list_elem_of_In. exact Hin.
  - intros ->. apply Hn. apply in_map_iff. exists (k', v'). auto.
Qed.

Lemma expandWith_first (e : list (string * string)) (k v a : string) (pieces : list string) :
  NoDup (map fst e) ->
  Forall (fun kv => plainName (fst kv) = true) e ->
  lookupEnv k e = Some v ->
  Js.count "$" v = 0%nat ->
  Forall (fun p => Js.count "$" p = 0%nat) (a :: pieces) ->
  pieces <> [] ->
  expandWith e (arrayJoin (markerOf k) (a :: pieces))
  = a +:+ v +:+ arrayJoin (markerOf k) pieces.
Proof.
  intros Hnd He Hl Hv Hp Hne.
  assert (Hk : plainName k = true).
  { apply lookupEnv_In in Hl. rewrite Forall_forall in He.
    apply (He (k, v)). apply list_elem_of_In. exact Hl. }
  destruct pieces as [|q rest]; [contradiction|]. clear Hne.
  apply Forall_cons in Hp as [Ha Hp].
  induction e as [|[k' v'] e IH]; [discriminate|].
  simpl in Hnd. apply NoDup_cons in Hnd as [Hnot Hnd].
  apply Forall_cons in He as [Hk' He]. simpl in Hk'.
  simpl in Hl. cbn [expandWith]. fold (markerOf k').
  destruct (String.eqb k' k) eqn:E.
  - apply String.eqb_eq in E. subst k'. injection Hl as ->.
    change (arrayJoin (markerOf k) (a :: q :: rest))
      with (a +:+ markerOf k +:+ arrayJoin (markerOf k) (q :: rest)).
    rewrite replace_marker by exact Ha.
    rewrite getSubstitution_plain by exact Hv.
    assert (Ej : a +:+ v +:+ arrayJoin (markerOf k) (q :: rest)
                 = arrayJoin (markerOf k) ((a +:+ v +:+ q) :: rest)).
    { destruct rest as [|r rest]; simpl; rewrite ?app_assoc_s; reflexivity. }
    rewrite Ej. apply expandWith_others; try assumption.
    + intros Hin. apply Hnot. apply list_elem_of_In. exact Hin.
    + apply Forall_cons in Hp as [Hq Hrest]. constructor; [|exact Hrest].
      rewrite !count_app, Ha, Hv, Hq. reflexivity.
  - apply String.eqb_neq in E.
    rewrite replace_not_included.
    + apply IH; assumption.
    + apply includes_marked; try assumption; [congruence|].
      constructor; assumption.
Qed.

(** X1 (expandEnvironmentVars, fetchInputValue): a text without a dollar
    sign is returned as it is, whatever the environment holds; so an
    input whose trimmed value has no dollar sign is passed on
    unchanged. *)
Theorem expandEnvironmentVars_plain_text (w : World) :
  (forall input,
     Js.count "$" input = 0%nat -> expandEnvironmentVars input w = (Ok input, w))
  /\ (forall inputKey,
        Js.count "$" (getInputIn (env w) inputKey) = 0%nat ->
        fetchInputValue inputKey w = (Ok (getInputIn (env w) inputKey), w)).
Proof.
  split.
  - intros input Hc. unfold expandEnvironmentVars. rewrite expandWith_plain by exact Hc.
    reflexivity.
  - intros inputKey Hc. rewrite fetchInputValue_eq. unfold inputValueIn.
    rewrite expandWith_plain by exact Hc. reflexivity.
Qed.

Lemma expandEnvironmentVars_plain_text_witness :
  let w := Posix.emptyWorld ∅ [("INPUT_FILE_PATH", " /work/a.exe "); ("HOME", "/root")] in
  getInputIn (env w) "file_path" = "/work/a.exe"
  /\ fetchInputValue "file_path" w = (Ok "/work/a.exe", w).
Proof.
  intros w. split; [reflexivity|].
  apply (proj2 (expandEnvironmentVars_plain_text w) "file_path"). reflexivity.
Defined.

(** X2 (expandEnvironmentVars): in a text whose only dollar signs are
    markers [${k}] of one variable, the first marker is replaced by the
    value of the variable and every later marker of the same variable
    stays in the text.  The names of the environment are distinct and
    free of [$] and [}], and the value is free of [$]. *)
Theorem expandEnvironmentVars_first_marker_only
  (k v a : string) (pieces : list string) (w : World) :
  NoDup (map fst (env w)) ->
  Forall (fun kv => plainName (fst kv) = true) (env w) ->
  lookupEnv k (env w) = Some v ->
  Js.count "$" v = 0%nat ->
  Forall (fun p => Js.count "$" p = 0%nat) (a :: pieces) ->
  pieces <> [] ->
  expandEnvironmentVars (arrayJoin (markerOf k) (a :: pieces)) w
  = (Ok (a +:+ v +:+ arrayJoin (markerOf k) pieces), w).
Proof.
  intros Hnd He Hl Hv Hp Hne. unfold expandEnvironmentVars.
  rewrite (expandWith_first _ _ _ _ _ Hnd He Hl Hv Hp Hne). reflexivity.
Qed.

Lemma expandEnvironmentVars_first_marker_only_witness :
  let w := Posix.emptyWorld ∅
             [("INPUT_PASSWORD", "${SECRET}"); ("SECRET", "s3cr3t"); ("HOME", "/root")] in
  expandEnvironmentVars "--${SECRET}/${SECRET}!" w = (Ok "--s3cr3t/${SECRET}!", w).
Proof.
  intros w.
  apply (expandEnvironmentVars_first_marker_only "SECRET" "s3cr3t" "--" ["/"; "!"] w).
  - apply (bool_decide_unpack _). vm_compute. reflexivity.
  - repeat constructor.
  - reflexivity.
  - reflexivity.
  - repeat constructor.
  - discriminate.
Defined.

Lemma startsWith_cons (a b : ascii) (s p : string) :
  Js.startsWith (String b s) (String a p) = Ascii.eqb a b && Js.startsWith s p.
Proof. reflexivity. Qed.

Lemma startsWith_first (s p : string) (c : ascii) :
  Js.startsWith s (String c "") = false -> Js.startsWith s (String c p) = false.
Proof.
  destruct s as [|d s]; [reflexivity|]. simpl.
  destruct (Ascii.eqb c d); [discriminate|reflexivity].
Qed.

(** A single dollar sign that no brace follows starts no marker. *)
Lemma includes_lone_dollar (a t name : string) :
  Js.count "$" a = 0%nat -> Js.count "$" t = 0%nat ->
  Js.startsWith t "{" = false ->
  Js.includes (a +:+ String "$" t) (markerOf name) = false.
Proof.
  intros Ha Ht Hb. rewrite markerOf_cons, includes_skip by exact Ha.
  change (Js.includes (String "$" t) (String "$" (String "{" (name +:+ "}"))))
    with (Js.startsWith (String "$" t) (String "$" (String "{" (name +:+ "}")))
          || Js.includes t (String "$" (String "{" (name +:+ "}")))).
  rewrite includes_absent by exact Ht.
  rewrite startsWith_cons, (startsWith_first _ _ _ Hb). reflexivity.
Qed.

Lemma expandWith_dollar_pair (e : list (string * string)) (k x y a b : string) :
  NoDup (map fst e) ->
  Forall (fun kv => plainName (fst kv) = true) e ->
  lookupEnv k e = Some (x +:+ "$$" +:+ y) ->
  Js.count "$" x = 0%nat -> Js.count "$" y = 0%nat ->
  Js.count "$" a = 0%nat -> Js.count "$" b = 0%nat ->
  Js.startsWith (y +:+ b) "{" = false ->
  expandWith e (a +:+ markerOf k +:+ b) = a +:+ x +:+ "$" +:+ y +:+ b.
Proof.
  intros Hnd He Hl Hx Hy Ha Hb Hbrace.
  assert (Hk : plainName k = true).
  { apply lookupEnv_In in Hl. rewrite Forall_forall in He.
    apply (He (k, x +:+ "$$" +:+ y)). apply list_elem_of_In. exact Hl. }
  induction e as [|[k' v'] e IH]; [discriminate|].
  simpl in Hnd. apply NoDup_cons in Hnd as [Hnot Hnd].
  apply Forall_cons in He as [Hk' He]. simpl in Hk'.
  simpl in Hl. cbn [expandWith]. fold (markerOf k').
  destruct (String.eqb k' k) eqn:E.
  - apply String.eqb_eq in E. subst k'. injection Hl as ->.
    rewrite replace_marker by exact Ha.
    rewrite getSubstitution_skip by exact Hx.
    assert (Eg : Js.getSubstitution (markerOf k) a b ("$$" +:+ y) = String "$" y).
    { rewrite !app_cons, app_empty_l. cbn [Js.getSubstitution].
      change (Ascii.eqb "$" "$") with true. cbv iota.
      rewrite getSubstitution_plain by exact Hy. reflexivity. }
    rewrite Eg.
    assert (Et : a +:+ (x +:+ String "$" y) +:+ b = (a +:+ x) +:+ String "$" (y +:+ b)).
    { rewrite !app_assoc_s, app_cons. reflexivity. }
    rewrite Et. rewrite expandWith_not_included.
    + rewrite !app_assoc_s. reflexivity.
    + apply Forall_forall. intros kv _. apply includes_lone_dollar.
      * rewrite count_app, Ha, Hx. reflexivity.
      * rewrite count_app, Hy, Hb. reflexivity.
      * exact Hbrace.
  - apply String.eqb_neq in E.
    rewrite replace_not_included.
    + apply IH; assumption.
    + change (a +:+ markerOf k +:+ b) with (arrayJoin (markerOf k) [a; b]).
      apply includes_marked; try assumption; [congruence|].
      repeat constructor; assumption.
Qed.

(** X3 (expandEnvironmentVars): the value of a variable is handed to
    [String.prototype.replace] as the replacement text, where [$$]
    stands for one dollar sign: a value [x$$y] is inserted as [x$y]. *)
Theorem expandEnvironmentVars_dollar_pair (k x y a b : string) (w : World) :
  NoDup (map fst (env w)) ->
  Forall (fun kv => plainName (fst kv) = true) (env w) ->
  lookupEnv k (env w) = Some (x +:+ "$$" +:+ y) ->
  Js.count "$" x = 0%nat -> Js.count "$" y = 0%nat ->
  Js.count "$" a = 0%nat -> Js.count "$" b = 0%nat ->
  Js.startsWith (y +:+ b) "{" = false ->
  expandEnvironmentVars (a +:+ markerOf k +:+ b) w
  = (Ok (a +:+ x +:+ "$" +:+ y +:+ b), w).
Proof.
  intros Hnd He Hl Hx Hy Ha Hb Hbrace. unfold expandEnvironmentVars.
  rewrite (expandWith_dollar_pair _ _ _ _ _ _ Hnd He Hl Hx Hy Ha Hb Hbrace). reflexivity.
Qed.

Lemma expandEnvironmentVars_dollar_pair_witness :
  let w := Posix.emptyWorld ∅ [("INPUT_PASSWORD", "${SECRET}"); ("SECRET", "pa$$word")] in
  fetchInputValue "password" w = (Ok "pa$word", w).
Proof.
  intros w.
  apply (expandEnvironmentVars_dollar_pair "SECRET" "pa" "word" "" "" w).
  - apply (bool_decide_unpack _). vm_compute. reflexivity.
  - repeat constructor.
  - reflexivity.
  - reflexivity.
  - reflexivity.
  - reflexivity.
  - reflexivity.
  - reflexivity.
Defined.

(* ===================================================================== *)
(** ** The classifier and the text around a marker *)
(* ===================================================================== *)

Lemma startsWith_app_r (s p b : string) :
  Js.startsWith s p = true -> Js.startsWith (s +:+ b) p = true.
Proof.
  revert s. induction p as [|c p IH]; intros s E; [reflexivity|].
  destruct s as [|d s]; [discriminate|].
  rewrite app_cons, startsWith_cons in *.
  apply andb_true_iff in E as [E1 E2]. rewrite E1, (IH _ E2). reflexivity.
Qed.

Lemma startsWith_prefix (s p q : string) :
  Js.startsWith s (p +:+ q) = true -> Js.startsWith s p = true.
Proof.
  revert s. induction p as [|c p IH]; intros s E; [reflexivity|].
  destruct s as [|d s]; [discriminate|].
  rewrite app_cons, startsWith_cons in E. rewrite startsWith_cons.
  apply andb_true_iff in E as [E1 E2]. rewrite E1, (IH _ E2). reflexivity.
Qed.

Lemma includes_app_r (s p b : string) :
  Js.includes s p = true -> Js.includes (s +:+ b) p = true.
Proof.
  induction s as [|d s IH]; intros E.
  - simpl in E. rewrite orb_false_r in E.
    destruct p as [|c p]; [|discriminate].
    destruct b; reflexivity.
  - rewrite app_cons. simpl in E. apply orb_true_iff in E as [E|E].
    + apply (startsWith_app_r _ _ b) in E. rewrite app_cons in E.
      simpl. rewrite E. reflexivity.
    + simpl. rewrite (IH E). apply orb_true_r.
Qed.

Lemma includes_app_l (a s p : string) :
  Js.includes s p = true -> Js.includes (a +:+ s) p = true.
Proof.
  intros E. induction a as [|d a IH]; [exact E|].
  rewrite app_cons. simpl. rewrite IH. apply orb_true_r.
Qed.

Lemma includes_prefix (s p q : string) :
  Js.includes s (p +:+ q) = true -> Js.includes s p = true.
Proof.
  induction s as [|d s IH]; intros E.
  - simpl in *. rewrite orb_false_r in *. exact (startsWith_prefix _ _ _ E).
  - simpl in E. apply orb_true_iff in E as [E|E].
    + apply startsWith_prefix in E. simpl. rewrite E. reflexivity.
    + simpl. rewrite (IH E). apply orb_true_r.
Qed.

Lemma checkStream_surrounded (pre s post : string) :
  checkStream s = true -> checkStream (pre +:+ s +:+ post) = true.
Proof.
  unfold checkStream. rewrite !existsb_exists.
  intros (m & Hin & Hm). exists m. split; [exact Hin|].
  apply includes_app_l, includes_app_r. exact Hm.
Qed.

(** X4 (detectExecutionErrors, hasExecutionError): the verdict "failed"
    survives any text written before or after the output on either
    stream and any change of the exit status. *)
Theorem detectExecutionErrors_monotone
  (status status' : Z) (out err pre post pre' post' : string) :
  detectExecutionErrors (mkExecOutput status out err) = true ->
  detectExecutionErrors
    (mkExecOutput status' (pre +:+ out +:+ post) (pre' +:+ err +:+ post')) = true
  /\ hasExecutionError
       (mkExecOutput status' (pre +:+ out +:+ post) (pre' +:+ err +:+ post')) = true.
Proof.
  intros E.
  assert (E' : detectExecutionErrors
                 (mkExecOutput status' (pre +:+ out +:+ post) (pre' +:+ err +:+ post'))
               = true); [|split; exact E'].
  change (checkStream out || checkStream err = true) in E.
  change (checkStream (pre +:+ out +:+ post) || checkStream (pre' +:+ err +:+ post') = true).
  apply orb_true_iff in E as [E|E]; apply orb_true_iff; [left|right];
    apply checkStream_surrounded; exact E.
Qed.

Lemma detectExecutionErrors_monotone_witness :
  detectExecutionErrors
    (mkExecOutput 1 "[INFO] 0 Errors found" "warning: Exception handler installed; ok")
  = true.
Proof.
  apply (detectExecutionErrors_monotone 0 1 "Error" "Exception" "[INFO] 0 " "s found"
           "warning: " " handler installed; ok").
  reflexivity.
Defined.

(** X5 (detectExecutionErrors, hasExecutionError): the marker
    [Unmatched arguments from] never decides, since every text that
    holds it holds [Unmatched argument]; the verdict is that of the
    other four markers. *)
Theorem detectExecutionErrors_four_markers (o : ExecOutput) :
  let four := ["Error"; "Exception"; "Missing required option"; "Unmatched argument"] in
  let verdict := existsb (fun m => Js.includes (stdout o) m) four
                 || existsb (fun m => Js.includes (stderr o) m) four in
  detectExecutionErrors o = verdict /\ hasExecutionError o = verdict.
Proof.
  intros four verdict.
  assert (Hs : forall s,
             existsb (fun m => Js.includes s m) errorPatterns
             = existsb (fun m => Js.includes s m) four).
  { intros s. unfold errorPatterns, four. cbn [existsb]. rewrite !orb_false_r.
    destruct (Js.includes s "Unmatched arguments from") eqn:E.
    - change "Unmatched arguments from" with ("Unmatched argument" +:+ "s from") in E.
      apply includes_prefix in E. rewrite E. reflexivity.
    - reflexivity. }
  assert (E : detectExecutionErrors o = verdict).
  { unfold detectExecutionErrors. fold errorPatterns. rewrite !Hs. reflexivity. }
  split; [exact E|]. rewrite hasExecutionError_detect. exact E.
Qed.


(* ===================================================================== *)
(** ** Cache names and the later cache search (formatCacheVersionName,
       normalizeVersionString, getCachedVersionsList, searchToolCache) *)
(* ===================================================================== *)

Example cache_names_on_disk :
  let stable := JdkScenario.corretto in
  (* the name of 11.0.2+9 is listed, read back and found *)
  fst (@searchToolCache JdkScenario.runner stable (JdkScenario.start ["11.0.2-9"]))
  = Ok (Some (mkJdkSetupResult "11.0.2+9" (JdkScenario.cacheDir "11.0.2-9")))
  (* the name of 11.0.2+ea.1 reads as an early-access build of another version *)
  /\ fst (@searchToolCache JdkScenario.runner stable (JdkScenario.start ["11.0.2-ea.1"]))
     = Ok None
  (* the name of 11.0.2+each reads back as stored, but counts as early access *)
  /\ normalizeVersionString (formatCacheVersionName stable "11.0.2+each") = "11.0.2+each"
  /\ fst (@searchToolCache JdkScenario.runner stable (JdkScenario.start ["11.0.2-each"]))
     = Ok None.
Proof. cbv zeta. repeat split; vm_compute; reflexivity. Qed.

Lemma includes_at_marker (c : ascii) (p b : string) :
  Js.includes (String c b) (String c p) = Js.startsWith b p || Js.includes b (String c p).
Proof. cbn [Js.includes Js.startsWith]. rewrite Ascii.eqb_refl. reflexivity. Qed.

(** The stability the cache listing reads off a name is that of the
    installer that wrote it, unless a stable installer stored build
    metadata that starts with [ea]. *)
Lemma cache_name_stability (this : Installer) (v : string) :
  Js.count "-" v = 0%nat ->
  (Js.count "+" v <= 1)%nat ->
  (isStableRelease this = true -> Js.includes v "+ea" = false) ->
  negb (Js.includes (formatCacheVersionName this v) "-ea") = isStableRelease this.
Proof.
  intros Hd Hp Hea. unfold formatCacheVersionName.
  destruct (Nat.eq_dec (Js.count "+" v) 0%nat) as [H0|H1].
  - rewrite (includes_absent "+" "" v H0).
    rewrite (replace_absent "+" "" _ v H0).
    destruct (isStableRelease this); simpl.
    + rewrite (includes_absent "-" "ea" v Hd). reflexivity.
    + rewrite (includes_app_l v "-ea" "-ea" eq_refl). reflexivity.
  - destruct (count_split "+" v) as (a & b & -> & Ha); [lia|].
    rewrite count_app in Hd. simpl in Hd.
    assert (Hda : Js.count "-" a = 0%nat) by lia.
    assert (Hdb : Js.count "-" b = 0%nat) by lia.
    change (Js.includes (a +:+ String "+" b) "+")
      with (Js.includes (a +:+ String "+" b) (Js.str1 "+")).
    rewrite includes_present.
    unfold Js.replace.
    rewrite !(replaceFrom_skip "+" "" _ a (String "+" b) "" Ha).
    rewrite app_empty_l.
    destruct (isStableRelease this) eqn:Es; simpl.
    + specialize (Hea eq_refl).
      rewrite (includes_skip "+" "ea" a (String "+" b) Ha) in Hea.
      rewrite includes_at_marker in Hea.
      apply orb_false_iff in Hea as [Hstart _].
      norm_app.
      rewrite (includes_skip "-" "ea" a (String "-" b) Hda).
      rewrite includes_at_marker, Hstart.
      rewrite (includes_absent "-" "ea" b Hdb). reflexivity.
    + rewrite (includes_app_l a _ "-ea" (includes_app_r "-ea." "-ea" b eq_refl)).
      reflexivity.
Qed.



(* ===================================================================== *)
(** ** The subscription check and the top-level handler (main) *)
(* ===================================================================== *)

Section TopLevel.
Context `{Host} `{JdkProvider}.

Lemma validateSubscription_denied (w : World) :
  subscription = HttpStatus 403 ->
  validateSubscription w = (Exit 1, addError subscriptionDenied w).
Proof. intros E. unfold validateSubscription. rewrite E. reflexivity. Qed.

Lemma validateSubscription_continues (w : World) :
  subscription <> HttpStatus 403 ->
  validateSubscription w
  = (Ok tt, match subscription with Granted => w | _ => addInfo subscriptionSkipped w end).
Proof.
  intros Hne. unfold validateSubscription.
  destruct subscription as [|status|]; try reflexivity.
  destruct (status =? 403) eqn:E; [|reflexivity].
  apply Z.eqb_eq in E. subst status. contradiction.
Qed.

Lemma main_raises_never (w : World) (e : string) (w' : World) : main w <> (Throw e, w').
Proof.
  unfold main, tryCatch.
  match goal with |- context [match ?b w with _ => _ end] => destruct (b w) as [[[]|m|c] w1] end;
    unfold setFailed; discriminate.
Qed.

Lemma main_prepare_raises (w0 w1 w2 : World) (message : string) :
  validateSubscription w0 = (Ok tt, w1) ->
  prepare w1 = (Throw message, w2) ->
  main w0 = (Ok tt, setFailure message w2).
Proof.
  intros Hv Hp. unfold main, tryCatch.
  rewrite (bind_ok _ _ _ _ _ Hv).
  rewrite (bind_throw _ _ _ _ _ Hp). reflexivity.
Qed.

End TopLevel.

(** X6 (validateSubscription, main): when the subscription service
    answers with status 403 the run ends with [process.exit(1)] after
    one line on the error channel: no failure message is set, no process
    is spawned, nothing is written or published.  Every other answer
    lets the run go on, with at most one info line added. *)
Theorem subscription_denied_stops_run `{Host} `{JdkProvider} (w : World) :
  (subscription = HttpStatus 403 ->
   main w = (Exit 1, addError subscriptionDenied w))
  /\ (subscription <> HttpStatus 403 ->
      exists w1, validateSubscription w = (Ok tt, w1)
                 /\ (w1 = w \/ w1 = addInfo subscriptionSkipped w)).
Proof.
  split.
  - intros E. unfold main, tryCatch.
    unfold bind at 1. rewrite (validateSubscription_denied w E). reflexivity.
  - intros Hne. rewrite (validateSubscription_continues w Hne).
    eexists. split; [reflexivity|].
    destruct subscription; auto.
Qed.

Lemma subscription_denied_stops_run_witness :
  let H := withSubscription (HttpStatus 403) Scenario.quiet in
  let r := @main H Posix.unreachableProvider Scenario.signRun in
  fst r = Exit 1
  /\ errorLog (snd r) = [subscriptionDenied]
  /\ spawned (snd r) = [] /\ failure (snd r) = None /\ fs (snd r) = fs Scenario.signRun.
Proof.
  intros H r.
  assert (E : r = (Exit 1, addError subscriptionDenied Scenario.signRun)).
  { apply (proj1 (@subscription_denied_stops_run H Posix.unreachableProvider Scenario.signRun)).
    reflexivity. }
  rewrite E. repeat split.
Defined.

(** X7 (main): no exception leaves [main].  An error raised while the
    commands are prepared (inputs, JDK, signing tool) is turned into the
    failure message of the run, and the run ends there. *)
Theorem main_reports_errors `{Host} `{JdkProvider} (w0 : World) :
  (forall e w', main w0 <> (Throw e, w'))
  /\ (forall w1 w2 message,
        validateSubscription w0 = (Ok tt, w1) ->
        prepare w1 = (Throw message, w2) ->
        main w0 = (Ok tt, setFailure message w2)).
Proof.
  split.
  - intros e w'. apply main_raises_never.
  - intros w1 w2 message. apply main_prepare_raises.
Qed.

Lemma main_reports_errors_witness :
  let w := Posix.emptyWorld ∅ [("INPUT_COMMAND", "sign"); ("JAVA_VERSION", "17")] in
  let r := @main Scenario.quiet Posix.unreachableProvider w in
  fst r = Ok tt
  /\ failure (snd r) = Some "ENOENT: no such file or directory, scandir '/work'"
  /\ spawned (snd r) = [].
Proof.
  intros w r.
  assert (E : r = (Ok tt,
                   setFailure "ENOENT: no such file or directory, scandir '/work'"
                     (snd (@prepare Scenario.quiet Posix.unreachableProvider w)))).
  { apply (proj2 (@main_reports_errors Scenario.quiet Posix.unreachableProvider w) w);
      vm_compute; reflexivity. }
  rewrite E. repeat split.
Defined.

(* ===================================================================== *)
(** ** Log cleanup (performLogCleanup) *)
(* ===================================================================== *)

Lemma getBooleanInput_true (name : string) (w : World) :
  In (getInputIn (env w) name) yamlTrue -> getBooleanInput name w = (Ok true, w).
Proof.
  unfold getBooleanInput, bind, getInput.
  intros [E|[E|[E|[]]]]; rewrite <- E; reflexivity.
Qed.

Lemma getBooleanInput_false (name : string) (w : World) :
  In (getInputIn (env w) name) yamlFalse -> getBooleanInput name w = (Ok false, w).
Proof.
  unfold getBooleanInput, bind, getInput.
  intros [E|[E|[E|[]]]]; rewrite <- E; reflexivity.
Qed.

Lemma getBooleanInput_invalid (name : string) (w : World) :
  ~ In (getInputIn (env w) name) (yamlTrue ++ yamlFalse) ->
  getBooleanInput name w = (Throw (notBoolean name), w).
Proof.
  intros Hn. unfold getBooleanInput, bind, getInput.
  repeat match goal with
         | |- context [String.eqb ?v ?k] =>
             let E := fresh "E" in
             destruct (String.eqb v k) eqn:E;
             [apply String.eqb_eq in E; exfalso; apply Hn; rewrite E; simpl; tauto|]
         end.
  reflexivity.
Qed.

Section LogCleanup.
Context `{Host}.

Lemma rmSync_removed (p q : string) (w : World) :
  isUnder (path_resolve p) q = true -> fs (snd (rmSync p w)) !! q = None.
Proof.
  intros Hu. cbn [rmSync snd fs setFs].
  assert (Hf : filter (fun kv : string * Node => isUnder (path_resolve p) (fst kv) = false)
                 (fs w) !! q = None).
  { apply map_lookup_filter_None. destruct (fs w !! q) as [n|] eqn:E; [right|left; reflexivity].
    intros x _. cbn [fst]. rewrite Hu. discriminate. }
  destruct (decide (path_dirname (path_resolve p) = q)) as [<-|Hne].
  - rewrite lookup_alter_eq, Hf. reflexivity.
  - rewrite lookup_alter_ne by exact Hne. exact Hf.
Qed.

Lemma rmSync_kept (p q : string) (w : World) :
  isUnder (path_resolve p) q = false -> q <> path_dirname (path_resolve p) ->
  fs (snd (rmSync p w)) !! q = fs w !! q.
Proof.
  intros Hu Hne. cbn [rmSync snd fs setFs].
  rewrite lookup_alter_ne by congruence.
  destruct (fs w !! q) as [n|] eqn:E.
  - apply map_lookup_filter_Some. split; [exact E|exact Hu].
  - apply map_lookup_filter_None. left. exact E.
Qed.

(** Whatever its outcome, the cleanup spawns nothing, publishes nothing
    and leaves the environment and the failure message alone. *)
Lemma performLogCleanup_frame (commandPath : string) (w w' : World) (o : Outcome unit) :
  performLogCleanup commandPath w = (o, w') ->
  env w' = env w /\ spawned w' = spawned w /\ outputs w' = outputs w
  /\ failure w' = failure w /\ remote w' = remote w.
Proof.
  unfold performLogCleanup, getBooleanInput, getInput, rmSync, info, ret, throw, bind.
  cbv beta zeta.
  repeat match goal with
         | |- context [if ?b then _ else _] => destruct b
         end;
    cbv beta iota zeta; intros E; injection E as <- <-; repeat split.
Qed.

End LogCleanup.

(** X8 (performLogCleanup): with [clean_logs] false the world is left as
    it is; with [clean_logs] true the directory [logs] beside the path
    it is given, and every entry below it, no longer exist, while every
    other entry but the parent directory is kept as it was; a value that
    is no YAML boolean (also the empty one) raises an error and changes
    nothing. *)
Theorem performLogCleanup_cases `{Host} (commandPath : string) (w : World) :
  let v := getInputIn (env w) INPUT_KEYS.LOG_CLEANUP in
  let logs := path_join (path_dirname commandPath) "logs" in
  let target := path_resolve logs in
  (In v yamlFalse -> performLogCleanup commandPath w = (Ok tt, w))
  /\ (In v yamlTrue ->
      exists w',
        performLogCleanup commandPath w = (Ok tt, w')
        /\ (forall q, isUnder target q = true -> fs w' !! q = None)
        /\ (forall q, isUnder target q = false -> q <> path_dirname target ->
                      fs w' !! q = fs w !! q)
        /\ infoLog w' = infoLog w ++ ["Log directory cleaned: " +:+ logs])
  /\ (~ In v (yamlTrue ++ yamlFalse) ->
      performLogCleanup commandPath w = (Throw (notBoolean "clean_logs"), w)).
Proof.
  intros v logs target. split; [|split].
  - intros Hv. unfold performLogCleanup.
    rewrite (bind_ok _ _ _ _ _ (getBooleanInput_false _ w Hv)). reflexivity.
  - intros Hv. unfold performLogCleanup.
    rewrite (bind_ok _ _ _ _ _ (getBooleanInput_true _ w Hv)).
    fold logs. eexists. split; [reflexivity|].
    split; [|split].
    + intros q Hq. exact (rmSync_removed logs q w Hq).
    + intros q Hq Hne. exact (rmSync_kept logs q w Hq Hne).
    + reflexivity.
  - intros Hv. unfold performLogCleanup.
    rewrite (bind_throw _ _ _ _ _ (getBooleanInput_invalid _ w Hv)). reflexivity.
Qed.

Lemma performLogCleanup_cases_witness :
  let command := Scenario.toolRoot +:+ "/CodeSignTool.sh" in
  let logs := Scenario.toolRoot +:+ "/logs" in
  let w := setFs (<[logs +:+ "/run.log" := File "signed a.exe"]>
                    (<[logs := Dir ["run.log"]]> Scenario.disk)) Scenario.signRun in
  exists w',
    @performLogCleanup Scenario.quiet command w = (Ok tt, w')
    /\ fs w' !! logs = None
    /\ fs w' !! (logs +:+ "/run.log") = None
    /\ fs w' !! "/work/in/a.exe" = Some (File "MZ-a").
Proof.
  intros command logs w.
  destruct (proj1 (proj2 (@performLogCleanup_cases Scenario.quiet command w)))
    as (w' & E & Hgone & Hkept & _).
  { vm_compute. auto. }
  exists w'. split; [exact E|].
  split; [apply Hgone; vm_compute; reflexivity|].
  split; [apply Hgone; vm_compute; reflexivity|].
  rewrite Hkept; [vm_compute; reflexivity|vm_compute; reflexivity|vm_compute; discriminate].
Defined.

Section AfterPreparation.
Context `{Host} `{JdkProvider}.

Lemma scanGate_skipped (op tool : string) (w : World) :
  op <> OPERATIONS.BULK_SIGN \/ shouldScanIn (env w) = false ->
  scanGate op tool w
  = (Ok true,
     addInfo ("Malware scanning: "
                +:+ (if shouldScanIn (env w) then "enabled" else "disabled")) w).
Proof.
  intros Hs. unfold scanGate, bind, getInput, info.
  fold (shouldScanIn (env w)).
  destruct Hs as [Hs|Hs].
  - apply String.eqb_neq in Hs. rewrite Hs. reflexivity.
  - rewrite Hs, andb_false_r. reflexivity.
Qed.

Lemma getExecOutput_spawned (cmd : string) (w w' : World) (o : Outcome ExecOutput) :
  getExecOutput cmd w = (o, w') -> w' = addSpawned cmd w.
Proof. unfold getExecOutput. intros E. injection E as _ <-. reflexivity. Qed.

(** The signing step spawns the signing command and nothing else,
    however it ends. *)
Lemma signAndReport_spawned (full : string) (w : World) :
  exists o w',
    tryCatch (signAndReport full) (fun message => setFailed message) w = (o, w')
    /\ spawned w' = spawned w ++ [full].
Proof.
  unfold tryCatch, signAndReport.
  unfold bind at 1.
  destruct (getExecOutput full w) as [[out|e|c] w1] eqn:Ex;
    apply getExecOutput_spawned in Ex; subst w1.
  - unfold bind at 1.
    destruct (performLogCleanup full (addSpawned full w)) as [[[]|e|c] w2] eqn:Ec;
      apply performLogCleanup_frame in Ec as (_ & Es & _).
    + destruct (detectExecutionErrors out); eexists _, _; (split; [reflexivity|exact Es]).
    + eexists _, _. split; [reflexivity|exact Es].
    + eexists _, _. split; [reflexivity|exact Es].
  - eexists _, _. split; reflexivity.
  - eexists _, _. split; reflexivity.
Qed.

End AfterPreparation.

(** X9 (main, performLogCleanup): the cleanup runs between the signing
    command and the classification of its output.  When [clean_logs] is
    no YAML boolean, a signing command that has ended with status zero
    still leaves the run failed, with the message of
    [core.getBooleanInput], and no [CodeSigner] output is published,
    whatever the command printed. *)
Theorem invalid_clean_logs_fails_run `{Host} `{JdkProvider}
  (w0 w1 w2 w3 : World) (op tool full : string) (out : ExecOutput) :
  validateSubscription w0 = (Ok tt, w1) ->
  prepare w1 = (Ok (op, tool, full), w2) ->
  scanGate op tool w2 = (Ok true, w3) ->
  exec_reply (List.length (spawned w3)) full = Exited out ->
  exitCode out = 0 ->
  ~ In (getInputIn (env w3) INPUT_KEYS.LOG_CLEANUP) (yamlTrue ++ yamlFalse) ->
  main w0 = (Ok tt, setFailure (notBoolean "clean_logs") (addSpawned full w3)).
Proof.
  intros Hv Hp Hs Hexec Hz Hc.
  rewrite (main_proceeds _ _ _ _ _ _ _ Hv Hp Hs). unfold tryCatch, signAndReport.
  rewrite (bind_ok _ _ _ _ _ (getExecOutput_zero _ _ _ Hexec Hz)).
  assert (Ec : performLogCleanup full (addSpawned full w3)
               = (Throw (notBoolean "clean_logs"), addSpawned full w3)).
  { unfold performLogCleanup. apply bind_throw. apply getBooleanInput_invalid. exact Hc. }
  rewrite (bind_throw _ _ _ _ _ Ec). reflexivity.
Qed.

(** X10 (main): unless the operation is [batch_sign] and [malware_block]
    reads TRUE, the only process the run spawns once the commands are
    prepared is the signing command, whether it succeeds, fails or
    cannot be started. *)
Theorem signing_command_is_the_only_process `{Host} `{JdkProvider}
  (w0 w1 w2 : World) (op tool full : string) :
  validateSubscription w0 = (Ok tt, w1) ->
  prepare w1 = (Ok (op, tool, full), w2) ->
  op <> OPERATIONS.BULK_SIGN \/ shouldScanIn (env w2) = false ->
  exists o w', main w0 = (o, w') /\ spawned w' = spawned w2 ++ [full].
Proof.
  intros Hv Hp Hs.
  rewrite (main_proceeds _ _ _ _ _ _ _ Hv Hp (scanGate_skipped op tool w2 Hs)).
  destruct (signAndReport_spawned full
              (addInfo ("Malware scanning: "
                          +:+ (if shouldScanIn (env w2) then "enabled" else "disabled")) w2))
    as (o & w' & E & Es).
  exists o, w'. split; [exact E|exact Es].
Qed.

Lemma invalid_clean_logs_fails_run_witness :
  let r := @main Scenario.quiet Posix.unreachableProvider signRunYes in
  detectExecutionErrors Scenario.signed = false
  /\ fst r = Ok tt
  /\ failure (snd r)
     = Some ("Input does not meet YAML 1.2 " +:+ dquote +:+ "Core Schema" +:+ dquote
               +:+ " specification: clean_logs" +:+ newline
               +:+ "Support boolean input list: `true | True | TRUE | false | False | FALSE`")
  /\ spawned (snd r) = [signRunCommand]
  /\ outputs (snd r) = [].
Proof.
  intros r.
  pose (w2 := snd (@prepare Scenario.quiet Posix.unreachableProvider signRunYes)).
  pose (w3 := snd (@scanGate Scenario.quiet "sign" signRunTool w2)).
  assert (E : r = (Ok tt, setFailure (notBoolean "clean_logs") (addSpawned signRunCommand w3))).
  { apply (@invalid_clean_logs_fails_run Scenario.quiet Posix.unreachableProvider
             signRunYes signRunYes w2 w3 "sign" signRunTool signRunCommand Scenario.signed).
    - reflexivity.
    - vm_compute. reflexivity.
    - vm_compute. reflexivity.
    - reflexivity.
    - reflexivity.
    - vm_compute. intuition discriminate. }
  rewrite E. repeat split.
Defined.

Lemma signing_command_is_the_only_process_witness :
  exists o w',
    @main Scenario.refusing Posix.unreachableProvider Scenario.signRun = (o, w')
    /\ spawned w' = [signRunCommand].
Proof.
  pose (w2 := snd (@prepare Scenario.refusing Posix.unreachableProvider Scenario.signRun)).
  destruct (@signing_command_is_the_only_process Scenario.refusing Posix.unreachableProvider
              Scenario.signRun Scenario.signRun w2 "sign" signRunTool signRunCommand)
    as (o & w' & E & Es).
  - reflexivity.
  - vm_compute. reflexivity.
  - left. discriminate.
  - exists o, w'. split; [exact E|]. rewrite Es. vm_compute. reflexivity.
Defined.

(* ===================================================================== *)
(** ** The Java environment (configureJavaEnvironment, performSetup,
       setupJavaEnvironment) *)
(* ===================================================================== *)

Lemma lookupEnv_assign_eq (k v : string) (e : list (string * string)) :
  lookupEnv k (assignEnv k v e) = Some v.
Proof.
  induction e as [|[k' v'] e IH]; simpl.
  - rewrite String.eqb_refl. reflexivity.
  - destruct (String.eqb k' k) eqn:E; simpl; rewrite E; [reflexivity|exact IH].
Qed.

Lemma lookupEnv_assign_ne (k k' v : string) (e : list (string * string)) :
  k <> k' -> lookupEnv k (assignEnv k' v e) = lookupEnv k e.
Proof.
  intros Hne. induction e as [|[k0 v0] e IH]; simpl.
  - destruct (String.eqb k' k) eqn:E; [|reflexivity].
    apply String.eqb_eq in E. congruence.
  - destruct (String.eqb k0 k') eqn:E; simpl.
    + apply String.eqb_eq in E. subst k0.
      destruct (String.eqb k' k) eqn:E'; [|reflexivity].
      apply String.eqb_eq in E'. congruence.
    + rewrite IH. reflexivity.
Qed.

Section JavaEnvironment.
Context `{Host} `{JdkProvider}.

Lemma configureJavaEnvironment_eq (this : Installer) (versionStr installPath : string)
  (w : World) :
  let name := "JAVA_HOME_" +:+ majorOf versionStr +:+ "_"
                +:+ Js.toUpperCase (systemArchitecture this) in
  configureJavaEnvironment this versionStr installPath w
  = (Ok tt,
     mkWorld (fs w)
       (assignEnv "JAVA_VERSION" (majorOf versionStr)
          (assignEnv name installPath (assignEnv "JAVA_HOME" installPath (env w))))
       (path_join installPath "bin" :: searchPath w)
       (infoLog w) (errorLog w) (spawned w) (remote w)
       (outputs w ++ [("distribution", OutText (distributionName this));
                      ("path", OutText installPath);
                      ("version", OutText versionStr)])
       (failure w)).
Proof.
  intros name. unfold configureJavaEnvironment, bind, exportVariable, addPath, setOutput.
  unfold setEnv, addSearchPath, addOutput.
  cbn [env fs searchPath infoLog errorLog spawned remote outputs failure].
  rewrite <- !app_assoc. reflexivity.
Qed.

(** What a successful setup leaves in the environment, on the search
    path and among the outputs. *)
Lemma performSetup_configured (this : Installer) (w w' : World) (r : JdkSetupResult) :
  performSetup this w = (Ok r, w') ->
  exists w1,
    configureJavaEnvironment this (jdk_version r) (jdk_path r) w1 = (Ok tt, w').
Proof.
  unfold performSetup. intros E.
  apply bind_inv_ok in E as (cached & wa & _ & E).
  apply bind_inv_ok in E as (inst & wb & _ & E).
  apply bind_inv_ok in E as (adj & wc & _ & E).
  apply bind_inv_ok in E as ([] & wd & _ & E).
  apply bind_inv_ok in E as ([] & we & Ec & E).
  injection E as <- <-. exists wd. exact Ec.
Qed.

End JavaEnvironment.

(** After a successful setup [JAVA_HOME] is the path of the
    installation. *)
Lemma performSetup_java_home `{Host} `{JdkProvider}
  (this : Installer) (w w' : World) (r : JdkSetupResult) :
  performSetup this w = (Ok r, w') ->
  lookupEnv "JAVA_HOME" (env w') = Some (jdk_path r).
Proof.
  intros E. apply performSetup_configured in E as (w1 & E).
  rewrite configureJavaEnvironment_eq in E. cbv zeta in E. injection E as <-.
  cbn [env].
  rewrite lookupEnv_assign_ne by discriminate.
  rewrite lookupEnv_assign_ne
    by (intros E; norm_app_in E; discriminate E).
  apply lookupEnv_assign_eq.
Qed.

(** X11 (performSetup, configureJavaEnvironment): whenever the setup
    returns an installation, by whatever route, the process environment
    holds its path as [JAVA_HOME] and as [JAVA_HOME_<major>_<ARCH>] and
    the text before the first dot of its version as [JAVA_VERSION]; the
    [bin] directory below the path is the newest entry of the search
    path, and the outputs end with [distribution], [path] and
    [version]. *)
Theorem performSetup_exports `{Host} `{JdkProvider}
  (this : Installer) (w w' : World) (r : JdkSetupResult) :
  performSetup this w = (Ok r, w') ->
  lookupEnv "JAVA_HOME" (env w') = Some (jdk_path r)
  /\ lookupEnv "JAVA_VERSION" (env w') = Some (majorOf (jdk_version r))
  /\ lookupEnv ("JAVA_HOME_" +:+ majorOf (jdk_version r) +:+ "_"
                  +:+ Js.toUpperCase (systemArchitecture this)) (env w')
     = Some (jdk_path r)
  /\ head (searchPath w') = Some (path_join (jdk_path r) "bin")
  /\ exists earlier,
       outputs w' = earlier ++ [("distribution", OutText (distributionName this));
                                ("path", OutText (jdk_path r));
                                ("version", OutText (jdk_version r))].
Proof.
  intros E. apply performSetup_configured in E as (w1 & E).
  rewrite configureJavaEnvironment_eq in E. cbv zeta in E. injection E as <-.
  cbn [env searchPath outputs].
  split; [|split; [|split; [|split]]].
  - rewrite lookupEnv_assign_ne by discriminate.
    rewrite lookupEnv_assign_ne
      by (intros E; norm_app_in E; discriminate E).
    apply lookupEnv_assign_eq.
  - apply lookupEnv_assign_eq.
  - rewrite lookupEnv_assign_ne
      by (intros E; norm_app_in E; discriminate E).
    apply lookupEnv_assign_eq.
  - reflexivity.
  - eexists. reflexivity.
Qed.

Lemma performSetup_exports_witness :
  let w' := snd (@performSetup JdkScenario.runner Posix.unreachableProvider
                   JdkScenario.corretto (JdkScenario.start ["11.0.9-1"])) in
  lookupEnv "JAVA_HOME" (env w') = Some (JdkScenario.cacheDir "11.0.9-1")
  /\ lookupEnv "JAVA_VERSION" (env w') = Some "11"
  /\ lookupEnv "JAVA_HOME_11_X64" (env w') = Some (JdkScenario.cacheDir "11.0.9-1")
  /\ head (searchPath w') = Some (JdkScenario.cacheDir "11.0.9-1" +:+ "/bin").
Proof.
  intros w'.
  destruct (@performSetup_exports JdkScenario.runner Posix.unreachableProvider
              JdkScenario.corretto (JdkScenario.start ["11.0.9-1"]) w'
              (mkJdkSetupResult "11.0.9+1" (JdkScenario.cacheDir "11.0.9-1")))
    as (Hhome & Hversion & Hname & Hpath & _).
  { vm_compute. reflexivity. }
  split; [exact Hhome|]. split; [exact Hversion|]. split; [exact Hname|exact Hpath].
Defined.

Section JavaSetup.
Context `{Host} `{JdkProvider}.

Lemma newInstaller_corretto (name : string) :
  newInstaller name = Ok (mkInstaller name "11" os_arch "jdk" true false).
Proof. reflexivity. Qed.

Lemma setupJavaEnvironment_unfold (w : World) :
  let home := nullish (lookupEnv "JAVA_HOME" (env w)) "" in
  let current := parseInt (nullish (lookupEnv "JAVA_VERSION" (env w)) "0") in
  let w1 := addInfo ("Java version: " +:+ showNumber current)
              (addInfo ("Java home directory: " +:+ home) w) in
  setupJavaEnvironment w
  = if match current with Some v => v <? 11 | None => false end
    then bind (performSetup (mkInstaller "Corretto" "11" os_arch "jdk" true false))
           (fun _ => readJavaHome) w1
    else (Ok home, addInfo ("Java already installed at: " +:+ home) w1).
Proof.
  intros home current w1. unfold setupJavaEnvironment.
  unfold bind at 1. unfold readJavaHome at 1. fold home.
  unfold bind at 1. fold current.
  unfold bind at 1. unfold info at 1.
  unfold bind at 1. unfold info at 1. fold w1.
  unfold bind at 1. unfold isJavaInstallationNeeded.
  change (env w1) with (env w). fold current.
  destruct (match current with Some v => v <? 11 | None => false end).
  - rewrite newInstaller_corretto. reflexivity.
  - reflexivity.
Qed.

End JavaSetup.

(** X12 (isJavaInstallationNeeded, setupJavaEnvironment): when
    [JAVA_VERSION] reads as a number that is at least 11, and also when
    it does not start with a number at all ([parseInt] gives NaN, and
    [NaN < 11] is false), no JDK is looked up or installed: the function
    returns [JAVA_HOME] as it stands (the empty text when unset) and
    only writes three log lines. *)
Theorem setupJavaEnvironment_skips `{Host} `{JdkProvider} (w : World) :
  let home := nullish (lookupEnv "JAVA_HOME" (env w)) "" in
  let current := parseInt (nullish (lookupEnv "JAVA_VERSION" (env w)) "0") in
  (current = None \/ exists v, current = Some v /\ 11 <= v) ->
  setupJavaEnvironment w
  = (Ok home,
     addInfo ("Java already installed at: " +:+ home)
       (addInfo ("Java version: " +:+ showNumber current)
          (addInfo ("Java home directory: " +:+ home) w))).
Proof.
  intros home current Hc. rewrite setupJavaEnvironment_unfold. cbv zeta.
  fold home. fold current.
  destruct Hc as [Hc|(v & Hc & Hv)]; rewrite Hc; [reflexivity|].
  apply Z.ltb_ge in Hv. rewrite Hv. reflexivity.
Qed.

Lemma setupJavaEnvironment_skips_witness :
  let w := Posix.emptyWorld ∅ [("JAVA_VERSION", "openjdk-17")] in
  parseInt "openjdk-17" = None
  /\ fst (@setupJavaEnvironment Scenario.quiet Posix.unreachableProvider w) = Ok ""
  /\ remote (snd (@setupJavaEnvironment Scenario.quiet Posix.unreachableProvider w)) = [].
Proof.
  intros w. split; [reflexivity|].
  rewrite (@setupJavaEnvironment_skips Scenario.quiet Posix.unreachableProvider w).
  - split; reflexivity.
  - left. reflexivity.
Defined.

(** X13 (setupJavaEnvironment, performSetup): when [JAVA_VERSION] is
    unset or reads as a number below 11, the Corretto installer is run
    for version 11; if it returns an installation, the function returns
    the path of that installation, which is the value [JAVA_HOME] then
    has; if it raises, so does the function. *)
Theorem setupJavaEnvironment_installs `{Host} `{JdkProvider} (w : World) (v : Z) :
  let home := nullish (lookupEnv "JAVA_HOME" (env w)) "" in
  let w1 := addInfo ("Java version: " +:+ showNumber (Some v))
              (addInfo ("Java home directory: " +:+ home) w) in
  let corretto := mkInstaller "Corretto" "11" os_arch "jdk" true false in
  parseInt (nullish (lookupEnv "JAVA_VERSION" (env w)) "0") = Some v ->
  v < 11 ->
  (forall r w', performSetup corretto w1 = (Ok r, w') ->
                setupJavaEnvironment w = (Ok (jdk_path r), w')
                /\ lookupEnv "JAVA_HOME" (env w') = Some (jdk_path r))
  /\ (forall e w', performSetup corretto w1 = (Throw e, w') ->
                   setupJavaEnvironment w = (Throw e, w')).
Proof.
  intros home w1 corretto Hc Hv.
  pose proof (setupJavaEnvironment_unfold w) as E. cbv zeta in E.
  rewrite Hc in E. apply Z.ltb_lt in Hv. rewrite Hv in E.
  fold home in E. fold w1 in E. fold corretto in E.
  split.
  - intros r w' Hs. pose proof (performSetup_java_home _ _ _ _ Hs) as Hhome.
    split; [|exact Hhome].
    rewrite E, (bind_ok _ _ _ _ _ Hs). unfold readJavaHome. rewrite Hhome. reflexivity.
  - intros e w' Hs. rewrite E. apply bind_throw. exact Hs.
Qed.

Lemma setupJavaEnvironment_installs_witness :
  let r := @setupJavaEnvironment JdkScenario.runner Posix.unreachableProvider
             (JdkScenario.start ["11.0.9-1"]) in
  fst r = Ok (JdkScenario.cacheDir "11.0.9-1")
  /\ lookupEnv "JAVA_HOME" (env (snd r)) = Some (JdkScenario.cacheDir "11.0.9-1").
Proof.
  intros r.
  pose (w1 := addInfo "Java version: 8"
                (addInfo "Java home directory: " (JdkScenario.start ["11.0.9-1"]))).
  pose (w' := snd (@performSetup JdkScenario.runner Posix.unreachableProvider
                     JdkScenario.corretto w1)).
  destruct (proj1 (@setupJavaEnvironment_installs JdkScenario.runner
                     Posix.unreachableProvider (JdkScenario.start ["11.0.9-1"]) 8
                     eq_refl eq_refl)
              (mkJdkSetupResult "11.0.9+1" (JdkScenario.cacheDir "11.0.9-1")) w')
    as [E Hhome].
  { vm_compute. reflexivity. }
  unfold r. rewrite E. split; [reflexivity|exact Hhome].
Defined.

(* ===================================================================== *)
(** ** The direct invocation of the tool (buildExecutableCommand, main) *)
(* ===================================================================== *)

Lemma replaceAllFrom_plain (c : ascii) (p rep s before : string) :
  Js.count c s = 0%nat -> Js.replaceAllFrom 0 before s (String c p) rep = s.
Proof.
  revert before. induction s as [|d s IH]; intros before Hc; [reflexivity|].
  apply count_cons_zero in Hc as [E Hc].
  cbn [Js.replaceAllFrom]. rewrite startsWith_cons, E. cbn [andb].
  rewrite IH by exact Hc. reflexivity.
Qed.

Lemma replaceAllFrom_skip_plain (c : ascii) (p rep a t before : string) :
  Js.count c a = 0%nat ->
  Js.replaceAllFrom 0 before (a +:+ t) (String c p) rep
  = a +:+ Js.replaceAllFrom 0 (before +:+ a) t (String c p) rep.
Proof.
  revert before. induction a as [|d a IH]; intros before Hc.
  - rewrite !app_empty_l, app_empty_r. reflexivity.
  - apply count_cons_zero in Hc as [E Hc].
    rewrite !app_cons. cbn [Js.replaceAllFrom]. rewrite startsWith_cons, E. cbn [andb].
    rewrite IH by exact Hc. unfold Js.str1. rewrite app_assoc_s. reflexivity.
Qed.

Lemma replaceAllFrom_drop (x t pat rep before : string) :
  Js.replaceAllFrom (String.length x) before (x +:+ t) pat rep
  = Js.replaceAllFrom 0 (before +:+ x) t pat rep.
Proof.
  revert before. induction x as [|d x IH]; intros before.
  - rewrite app_empty_l, app_empty_r. reflexivity.
  - rewrite app_cons. cbn [String.length Js.replaceAllFrom].
    rewrite IH. unfold Js.str1. rewrite app_assoc_s. reflexivity.
Qed.

Lemma replaceAllFrom_match (c : ascii) (p rep t before : string) :
  Js.replaceAllFrom 0 before (String c p +:+ t) (String c p) rep
  = Js.getSubstitution (String c p) before t rep
      +:+ Js.replaceAllFrom 0 (before +:+ String c p) t (String c p) rep.
Proof.
  rewrite app_cons.
  change (Js.replaceAllFrom 0 before (String c (p +:+ t)) (String c p) rep)
    with (if Js.startsWith (String c (p +:+ t)) (String c p)
          then Js.getSubstitution (String c p) before
                 (Js.sliceFrom (String.length (String c p)) (String c (p +:+ t))) rep
               +:+ Js.replaceAllFrom (Nat.pred (String.length (String c p)))
                     (before +:+ Js.str1 c) (p +:+ t) (String c p) rep
          else String c (Js.replaceAllFrom 0 (before +:+ Js.str1 c) (p +:+ t) (String c p) rep)).
  rewrite <- app_cons, startsWith_app, sliceFrom_app.
  cbn [String.length Nat.pred]. rewrite replaceAllFrom_drop.
  unfold Js.str1. rewrite app_assoc_s. reflexivity.
Qed.

Lemma trimEnd_app (s t : string) :
  Js.trimEnd t = t -> t <> "" -> Js.trimEnd (s +:+ t) = s +:+ t.
Proof.
  intros Et Hne. induction s as [|c s IH]; [exact Et|].
  rewrite app_cons. cbn [Js.trimEnd]. rewrite IH.
  destruct (s +:+ t) as [|d u] eqn:E; [|reflexivity].
  destruct s; [rewrite app_empty_l in E; contradiction|discriminate E].
Qed.

Lemma replaceAllFrom_mismatch (c d : ascii) (p rep s before : string) :
  Js.startsWith (String d s) (String c p) = false ->
  Js.replaceAllFrom 0 before (String d s) (String c p) rep
  = String d (Js.replaceAllFrom 0 (before +:+ Js.str1 d) s (String c p) rep).
Proof. intros E. cbn [Js.replaceAllFrom]. rewrite E. reflexivity. Qed.

Lemma template_parts (platform : string) :
  (if String.eqb platform OS_PLATFORM.WIN_SYSTEM
   then JAVA_EXEC_TEMPLATES.windows else JAVA_EXEC_TEMPLATES.unix)
  = String "$" ("{{ JAVA_HOME }} -Xmx"
      +:+ String "$" ("{{ JVM_MAX_MEMORY }} -jar "
      +:+ (TOOL_PATH_HOLDER +:+ jarBelow platform))).
Proof. unfold jarBelow. destruct (String.eqb platform OS_PLATFORM.WIN_SYSTEM); reflexivity. Qed.

Lemma jarBelow_plain (platform : string) : Js.count "$" (jarBelow platform) = 0%nat.
Proof. unfold jarBelow. destruct (String.eqb platform OS_PLATFORM.WIN_SYSTEM); reflexivity. Qed.

Lemma jarBelow_trimmed (platform : string) :
  Js.trimEnd (jarBelow platform) = jarBelow platform /\ jarBelow platform <> "".
Proof.
  unfold jarBelow. destruct (String.eqb platform OS_PLATFORM.WIN_SYSTEM);
    split; [reflexivity|discriminate|reflexivity|discriminate].
Qed.

(** The tool path takes the place of its holder. *)
Lemma template_tool_path (platform toolPath : string) :
  Js.count "$" toolPath = 0%nat ->
  Js.replaceAll
    (if String.eqb platform OS_PLATFORM.WIN_SYSTEM
     then JAVA_EXEC_TEMPLATES.windows else JAVA_EXEC_TEMPLATES.unix)
    TOOL_PATH_HOLDER toolPath
  = String "$" ("{{ JAVA_HOME }} -Xmx"
      +:+ (MEMORY_HOLDER +:+ (" -jar " +:+ toolPath +:+ jarBelow platform))).
Proof.
  intros Ht. rewrite template_parts. unfold Js.replaceAll.
  unfold TOOL_PATH_HOLDER at 2.
  rewrite replaceAllFrom_mismatch by reflexivity.
  rewrite replaceAllFrom_skip_plain by reflexivity.
  rewrite replaceAllFrom_mismatch by reflexivity.
  rewrite replaceAllFrom_skip_plain by reflexivity.
  unfold TOOL_PATH_HOLDER. rewrite replaceAllFrom_match.
  rewrite getSubstitution_plain by exact Ht.
  rewrite replaceAllFrom_plain by apply jarBelow_plain.
  reflexivity.
Qed.

(** The memory limit takes the place of its holder. *)
Lemma template_memory (rest memoryLimit : string) :
  Js.count "$" memoryLimit = 0%nat -> Js.count "$" rest = 0%nat ->
  Js.replaceAll (String "$" ("{{ JAVA_HOME }} -Xmx" +:+ (MEMORY_HOLDER +:+ rest)))
    MEMORY_HOLDER memoryLimit
  = JAVA_HOME_HOLDER +:+ (" -Xmx" +:+ memoryLimit +:+ rest).
Proof.
  intros Hm Hr. unfold Js.replaceAll.
  unfold MEMORY_HOLDER at 2.
  rewrite replaceAllFrom_mismatch by reflexivity.
  rewrite replaceAllFrom_skip_plain by reflexivity.
  unfold MEMORY_HOLDER. rewrite replaceAllFrom_match.
  rewrite getSubstitution_plain by exact Hm.
  rewrite replaceAllFrom_plain by exact Hr.
  reflexivity.
Qed.

(** The Java executable takes the place of its holder. *)
Lemma template_java (rest java : string) :
  Js.count "$" java = 0%nat -> Js.count "$" rest = 0%nat ->
  Js.replaceAll (JAVA_HOME_HOLDER +:+ rest) JAVA_HOME_HOLDER java = java +:+ rest.
Proof.
  intros Hj Hr. unfold Js.replaceAll.
  unfold JAVA_HOME_HOLDER. rewrite replaceAllFrom_match.
  rewrite getSubstitution_plain by exact Hj.
  rewrite replaceAllFrom_plain by exact Hr.
  reflexivity.
Qed.

Lemma trimStart_space (s : string) : Js.trimStart (" " +:+ s) = Js.trimStart s.
Proof. reflexivity. Qed.

Lemma trimStart_holder (rest : string) :
  Js.trimStart (JAVA_HOME_HOLDER +:+ rest) = JAVA_HOME_HOLDER +:+ rest.
Proof. reflexivity. Qed.

(** For every signing method other than [v1] the launcher script is
    neither read nor written: the command is the template of the
    platform with the memory limit and the tool path in place; trimming
    it behind an empty shell prefix changes nothing, and replacing the
    Java place holder puts [<java path>/bin/java] in front.  Tool path,
    memory limit and Java path are free of dollar signs. *)
Lemma direct_invocation `{Host}
  (toolPath scriptName signVersion memoryLimit platform javaPath : string) (w : World) :
  let cmd := JAVA_HOME_HOLDER +:+ " -Xmx" +:+ memoryLimit +:+ " -jar "
               +:+ toolPath +:+ jarBelow platform in
  signVersion <> SIGN_METHOD.VERSION_ONE ->
  Js.count "$" toolPath = 0%nat ->
  Js.count "$" memoryLimit = 0%nat ->
  Js.count "$" javaPath = 0%nat ->
  buildExecutableCommand toolPath scriptName signVersion memoryLimit platform w = (Ok cmd, w)
  /\ Js.trim ("" +:+ " " +:+ cmd) = cmd
  /\ Js.replaceAll cmd JAVA_HOME_HOLDER (javaPath +:+ "/bin/java")
     = javaPath +:+ "/bin/java -Xmx" +:+ memoryLimit +:+ " -jar "
         +:+ toolPath +:+ jarBelow platform.
Proof.
  intros cmd Hv Ht Hm Hj.
  assert (Hrest : Js.count "$" (" -jar " +:+ toolPath +:+ jarBelow platform) = 0%nat).
  { rewrite !count_app, Ht, jarBelow_plain. reflexivity. }
  split; [|split].
  - unfold buildExecutableCommand. apply String.eqb_neq in Hv. rewrite Hv.
    fold TOOL_PATH_HOLDER. fold MEMORY_HOLDER.
    rewrite (template_tool_path platform toolPath Ht).
    rewrite (template_memory _ memoryLimit Hm Hrest).
    unfold cmd. rewrite ?app_assoc_s. reflexivity.
  - rewrite app_empty_l. unfold Js.trim, cmd.
    rewrite trimStart_space, trimStart_holder.
    rewrite <- !app_assoc_s.
    destruct (jarBelow_trimmed platform) as [E Hne].
    apply trimEnd_app; assumption.
  - unfold cmd. rewrite template_java.
    + rewrite ?app_assoc_s. reflexivity.
    + rewrite count_app, Hj. reflexivity.
    + rewrite !count_app, Hm, Ht, jarBelow_plain. reflexivity.
Qed.

(* ===================================================================== *)
(** ** Frames of the effects *)
(* ===================================================================== *)

Lemma noTraffic_refl (w : World) : noTraffic w w.
Proof. reflexivity. Qed.

Lemma noTraffic_trans (a b c : World) : noTraffic a b -> noTraffic b c -> noTraffic a c.
Proof. unfold noTraffic. congruence. Qed.

Lemma sameTraffic_refl (w : World) : sameTraffic w w.
Proof. repeat split. Qed.

Lemma sameTraffic_trans (a b c : World) :
  sameTraffic a b -> sameTraffic b c -> sameTraffic a c.
Proof. unfold sameTraffic. intros (? & ? & ? & ?) (? & ? & ? & ?). repeat split; congruence. Qed.

Lemma settled_refl `{Host} (w : World) : settled w w.
Proof. repeat split; auto. Qed.

Lemma settled_trans `{Host} (a b c : World) : settled a b -> settled b c -> settled a c.
Proof.
  intros (S1 & E1 & P1 & F1) (S2 & E2 & P2 & F2).
  split; [exact (sameTraffic_trans _ _ _ S1 S2)|].
  split; [congruence|]. split; [congruence|]. auto.
Qed.

Lemma settled_sameTraffic `{Host} (w w' : World) : settled w w' -> sameTraffic w w'.
Proof. intros [S _]. exact S. Qed.

Lemma sameTraffic_noTraffic (w w' : World) : sameTraffic w w' -> noTraffic w w'.
Proof. intros [S _]. exact S. Qed.

Lemma preserves_weaken {A} (R R' : World -> World -> Prop) (m : M A) :
  (forall w w', R w w' -> R' w w') -> preserves R m -> preserves R' m.
Proof. intros Hr Hm w o w' E. apply Hr. exact (Hm w o w' E). Qed.

Lemma preserves_bind {A B} (R : World -> World -> Prop) (m : M A) (k : A -> M B) :
  (forall a b c, R a b -> R b c -> R a c) ->
  preserves R m -> (forall a, preserves R (k a)) -> preserves R (bind m k).
Proof.
  intros Ht Hm Hk w o w' E. unfold bind in E.
  destruct (m w) as [[a|e|c] w1] eqn:Em.
  - exact (Ht _ _ _ (Hm _ _ _ Em) (Hk a _ _ _ E)).
  - injection E as <- <-. exact (Hm _ _ _ Em).
  - injection E as <- <-. exact (Hm _ _ _ Em).
Qed.

Lemma preserves_tryCatch {A} (R : World -> World -> Prop) (m : M A) (h : string -> M A) :
  (forall a b c, R a b -> R b c -> R a c) ->
  preserves R m -> (forall e, preserves R (h e)) -> preserves R (tryCatch m h).
Proof.
  intros Ht Hm Hh w o w' E. unfold tryCatch in E.
  destruct (m w) as [[a|e|c] w1] eqn:Em.
  - injection E as <- <-. exact (Hm _ _ _ Em).
  - exact (Ht _ _ _ (Hm _ _ _ Em) (Hh e _ _ _ E)).
  - injection E as <- <-. exact (Hm _ _ _ Em).
Qed.

Section Existence.
Context `{Host}.

(** What exists keeps existing when a directory is written, when a new
    entry is added, and when a file replaces a file. *)
Lemma existsIn_insert_dir (f : gmap string Node) (k q : string) (entries : list string) :
  existsIn f q = true -> existsIn (<[k := Dir entries]> f) q = true.
Proof.
  unfold existsIn, statAt. intros E. destruct (String.eqb q ""); [discriminate E|].
  destruct (decide (k = path_resolve q)) as [->|Hne].
  - rewrite lookup_insert_eq. reflexivity.
  - rewrite lookup_insert_ne by exact Hne. exact E.
Qed.

Lemma existsIn_insert_new (f : gmap string Node) (k q : string) (n : Node) :
  f !! k = None -> existsIn f q = true -> existsIn (<[k := n]> f) q = true.
Proof.
  unfold existsIn, statAt. intros Hk E. destruct (String.eqb q ""); [discriminate E|].
  destruct (decide (k = path_resolve q)) as [->|Hne].
  - rewrite Hk in E. discriminate E.
  - rewrite lookup_insert_ne by exact Hne. exact E.
Qed.

Lemma existsIn_insert_file (f : gmap string Node) (k q old content : string) :
  f !! k = Some (File old) -> existsIn f q = true ->
  existsIn (<[k := File content]> f) q = true.
Proof.
  unfold existsIn, statAt. intros Hk E. destruct (String.eqb q ""); [discriminate E|].
  destruct (decide (k = path_resolve q)) as [->|Hne].
  - rewrite Hk in E. rewrite lookup_insert_eq.
    destruct (Js.endsWith q path_sep); [discriminate E|reflexivity].
  - rewrite lookup_insert_ne by exact Hne. exact E.
Qed.

End Existence.

(** Reads a relation off two explicit worlds. *)
Ltac related :=
  unfold settled, sameTraffic, noTraffic;
  cbn [fs env searchPath infoLog errorLog spawned remote outputs failure
       setFs setEnv addSearchPath addInfo addError addSpawned addRemote addOutput setFailure];
  repeat split; intros; auto.

(** Primitive effects: split the cases of the definition and read the
    relation off the two worlds. *)
Ltac primitive :=
  let w := fresh "w" in let o := fresh "o" in let w' := fresh "w'" in let E := fresh "E" in
  intros w o w' E; cbv beta in E;
  repeat match type of E with
         | context [match ?x with _ => _ end] => destruct x
         end;
  injection E as <- <-; related.

Section PrimitiveFrames.
Context `{Host}.

Lemma ret_settled {A} (a : A) : preserves settled (ret a).
Proof. unfold ret. primitive. Qed.

Lemma throw_settled {A} (e : string) : preserves settled (@throw A e).
Proof. unfold throw. primitive. Qed.

Lemma lift_settled {A} (o : Outcome A) : preserves settled (lift o).
Proof. unfold lift. primitive. Qed.

Lemma info_settled (line : string) : preserves settled (info line).
Proof. unfold info. primitive. Qed.

Lemma error_settled (line : string) : preserves settled (error line).
Proof. unfold error. primitive. Qed.

Lemma getInput_settled (name : string) : preserves settled (getInput name).
Proof. unfold getInput. primitive. Qed.

Lemma existsSync_settled (p : string) : preserves settled (existsSync p).
Proof. unfold existsSync. primitive. Qed.

Lemma expandEnvironmentVars_settled (input : string) :
  preserves settled (expandEnvironmentVars input).
Proof. unfold expandEnvironmentVars. primitive. Qed.

Lemma exportVariable_sameTraffic (name value : string) :
  preserves sameTraffic (exportVariable name value).
Proof. unfold exportVariable. primitive. Qed.

Lemma setFailed_noTraffic (message : string) : preserves noTraffic (setFailed message).
Proof. unfold setFailed. primitive. Qed.

Lemma setOutput_noTraffic (name : string) (v : OutputValue) :
  preserves noTraffic (setOutput name v).
Proof. unfold setOutput. primitive. Qed.

Lemma readdirSync_settled (p : string) : preserves settled (readdirSync p).
Proof. unfold readdirSync. primitive. Qed.

Lemma readFileSync_settled (p : string) : preserves settled (readFileSync p).
Proof. unfold readFileSync. primitive. Qed.

Lemma chmodSync_settled (p : string) : preserves settled (chmodSync p).
Proof. unfold chmodSync. primitive. Qed.

Lemma createEntry_settled (syscall p : string) (n : Node) (w w' : World) (o : Outcome unit) :
  fs w !! path_resolve p = None ->
  createEntry syscall p n w = (o, w') -> settled w w'.
Proof.
  intros Hp E. unfold createEntry in E. cbv zeta in E.
  destruct (fs w !! path_dirname (path_resolve p)) as [[content|entries]|] eqn:Ed;
    injection E as <- <-; try apply settled_refl.
  related. apply existsIn_insert_new.
  - rewrite lookup_insert_ne by congruence. exact Hp.
  - apply existsIn_insert_dir. assumption.
Qed.

Lemma mkdirSync_settled (p : string) : preserves settled (mkdirSync p).
Proof.
  intros w o w' E. unfold mkdirSync in E.
  destruct (String.eqb p ""); [injection E as <- <-; apply settled_refl|].
  destruct (fs w !! path_resolve p) eqn:Ep.
  - injection E as <- <-. apply settled_refl.
  - exact (createEntry_settled _ _ _ _ _ _ Ep E).
Qed.

Lemma writeFileSync_settled (p content : string) : preserves settled (writeFileSync p content).
Proof.
  intros w o w' E. unfold writeFileSync in E.
  destruct (String.eqb p ""); [injection E as <- <-; apply settled_refl|].
  destruct (fs w !! path_resolve p) as [[old|entries]|] eqn:Ep;
    destruct (Js.endsWith p path_sep);
    try (injection E as <- <-; apply settled_refl).
  - injection E as <- <-. related. eapply existsIn_insert_file; eassumption.
  - exact (createEntry_settled _ _ _ _ _ _ Ep E).
Qed.

Lemma rmSync_sameTraffic (p : string) : preserves sameTraffic (rmSync p).
Proof. unfold rmSync. primitive. Qed.

Lemma resolveUserShell_settled (signingMethod : string) :
  preserves settled (resolveUserShell signingMethod).
Proof. unfold resolveUserShell. primitive. Qed.

Lemma getExecOutput_noTraffic (cmd : string) : preserves noTraffic (getExecOutput cmd).
Proof. intros w o w' E. apply getExecOutput_spawned in E. subst w'. reflexivity. Qed.

Lemma validateSubscription_settled : preserves settled validateSubscription.
Proof.
  unfold validateSubscription.
  destruct subscription as [|status|].
  - apply ret_settled.
  - destruct (status =? 403).
    + unfold bind, error. primitive.
    + apply info_settled.
  - apply info_settled.
Qed.

End PrimitiveFrames.

Create HintDb frames.

#[export] Hint Resolve settled_trans sameTraffic_trans noTraffic_trans : frames.
#[export] Hint Resolve ret_settled throw_settled lift_settled info_settled error_settled
  getInput_settled existsSync_settled expandEnvironmentVars_settled
  exportVariable_sameTraffic setFailed_noTraffic setOutput_noTraffic
  readdirSync_settled readFileSync_settled chmodSync_settled mkdirSync_settled
  writeFileSync_settled rmSync_sameTraffic resolveUserShell_settled
  getExecOutput_noTraffic validateSubscription_settled : frames.

(** A weaker relation follows from a stronger one. *)
Ltac weaken :=
  first
    [ solve [eauto with frames nocore]
    | apply (preserves_weaken settled sameTraffic); [exact settled_sameTraffic|];
      solve [eauto with frames nocore]
    | apply (preserves_weaken sameTraffic noTraffic); [exact sameTraffic_noTraffic|];
      first
        [ solve [eauto with frames nocore]
        | apply (preserves_weaken settled sameTraffic); [exact settled_sameTraffic|];
          solve [eauto with frames nocore] ] ].

(** Walks through the binds and the case distinctions of a compound
    computation. *)
Ltac frames :=
  repeat first
    [ weaken
    | match goal with
      | |- preserves settled (bind _ _) =>
          apply (preserves_bind settled); [exact settled_trans| |intro]
      | |- preserves sameTraffic (bind _ _) =>
          apply (preserves_bind sameTraffic); [exact sameTraffic_trans| |intro]
      | |- preserves noTraffic (bind _ _) =>
          apply (preserves_bind noTraffic); [exact noTraffic_trans| |intro]
      | |- preserves _ (if ?b then _ else _) => destruct b
      | |- preserves _ (match ?x with _ => _ end) => destruct x
      end ].

Section CompoundFrames.
Context `{Host} `{JdkProvider}.

Lemma fetchInputValue_settled (inputKey : string) : preserves settled (fetchInputValue inputKey).
Proof. unfold fetchInputValue. frames. Qed.

Lemma debugListDirectory_settled (dirPath : string) :
  preserves settled (debugListDirectory dirPath).
Proof. unfold debugListDirectory. frames. Qed.

Hint Resolve fetchInputValue_settled debugListDirectory_settled : frames.

Lemma appendParameter_settled (inputKey command action : string) :
  preserves settled (appendParameter inputKey command action).
Proof. unfold appendParameter. frames. Qed.

Hint Resolve appendParameter_settled : frames.

Lemma appendAll_settled (keys : list string) (command action : string) :
  preserves settled (appendAll keys command action).
Proof.
  revert command. induction keys as [|k keys IH]; intros command; cbn [appendAll]; frames.
Qed.

Hint Resolve appendAll_settled : frames.

Lemma assembleCommandString_settled (action : string) :
  preserves settled (assembleCommandString action).
Proof. rewrite assembleCommandString_unfold. frames. Qed.

Lemma writeConfiguration_settled (toolPath environment : string) :
  preserves settled (writeConfiguration toolPath environment).
Proof. unfold writeConfiguration. frames. Qed.

Lemma buildExecutableCommand_settled
  (toolPath scriptName signVersion memoryLimit platform : string) :
  preserves settled
    (buildExecutableCommand toolPath scriptName signVersion memoryLimit platform).
Proof. unfold buildExecutableCommand. frames. Qed.

Lemma environmentName_settled : preserves settled environmentName.
Proof. unfold environmentName. frames. Qed.

Hint Resolve assembleCommandString_settled writeConfiguration_settled
  buildExecutableCommand_settled environmentName_settled : frames.

Lemma buildScanCommand_settled (operation : string) :
  preserves settled (buildScanCommand operation).
Proof. unfold buildScanCommand. frames. Qed.

Hint Resolve buildScanCommand_settled : frames.

Lemma scanEntries_noTraffic (tool sc dir : string) (entries : list string) :
  preserves noTraffic (scanEntries tool sc dir entries).
Proof. induction entries as [|entry rest IH]; cbn [scanEntries]; frames. Qed.

Hint Resolve scanEntries_noTraffic : frames.

Lemma performMalwareScan_noTraffic (tool operation : string) :
  preserves noTraffic (performMalwareScan tool operation).
Proof. unfold performMalwareScan. frames. Qed.

Hint Resolve performMalwareScan_noTraffic : frames.

Lemma scanGate_noTraffic (operationType toolCommand : string) :
  preserves noTraffic (scanGate operationType toolCommand).
Proof. unfold scanGate. frames. Qed.

Lemma performLogCleanup_noTraffic (commandPath : string) :
  preserves noTraffic (performLogCleanup commandPath).
Proof.
  intros w o w' E. apply performLogCleanup_frame in E as (_ & _ & _ & _ & E). exact E.
Qed.

Hint Resolve scanGate_noTraffic performLogCleanup_noTraffic : frames.

Lemma signAndReport_noTraffic (fullCommand : string) :
  preserves noTraffic (signAndReport fullCommand).
Proof. unfold signAndReport. frames. Qed.

End CompoundFrames.

#[export] Hint Resolve fetchInputValue_settled debugListDirectory_settled
  appendParameter_settled appendAll_settled assembleCommandString_settled
  writeConfiguration_settled buildExecutableCommand_settled environmentName_settled
  buildScanCommand_settled scanEntries_noTraffic performMalwareScan_noTraffic
  scanGate_noTraffic performLogCleanup_noTraffic signAndReport_noTraffic : frames.

(** A bind either stops in its first part or goes on from a world the
    first part has reached. *)
Lemma bind_frame_inv {A B} (R : World -> World -> Prop) (m : M A) (k : A -> M B)
  (w w' : World) (o : Outcome B) :
  preserves R m -> bind m k w = (o, w') ->
  R w w' \/ exists a w1, R w w1 /\ m w = (Ok a, w1) /\ k a w1 = (o, w').
Proof.
  intros Hm E. unfold bind in E. destruct (m w) as [[a|e|c] w1] eqn:Em.
  - right. exists a, w1. split; [exact (Hm _ _ _ Em)|]. split; [reflexivity|exact E].
  - left. injection E as <- <-. exact (Hm _ _ _ Em).
  - left. injection E as <- <-. exact (Hm _ _ _ Em).
Qed.

Section Offline.
Context `{Host} `{JdkProvider}.

Lemma ensureToolDownloaded_present (downloadUrl : string) (w : World) :
  existsIn (fs w) (toolPathIn (env w)) = true ->
  ensureToolDownloaded (path_join process_cwd "codesign") downloadUrl w
  = (Ok (toolPathIn (env w)), w).
Proof.
  intros Hex. unfold ensureToolDownloaded. cbv zeta. fold (toolPathIn (env w)).
  rewrite Hex. reflexivity.
Qed.

Lemma toolPath_settled (w w' : World) :
  settled w w' -> existsIn (fs w) (toolPathIn (env w)) = true ->
  existsIn (fs w') (toolPathIn (env w')) = true.
Proof. intros (_ & Ee & _ & Hfs) Hex. rewrite Ee. apply Hfs. exact Hex. Qed.

Lemma initialize_sameTraffic (w w' : World) (o : Outcome string) :
  existsIn (fs w) (toolPathIn (env w)) = true ->
  initialize w = (o, w') -> sameTraffic w w'.
Proof.
  intros Hex E. unfold initialize in E.
  destruct getDownloadDetails as [[url script] platform].
  match type of E with
  | context [bind (ensureToolDownloaded ?b ?u) ?k] => set (after := k) in E
  end.
  assert (Hafter : forall toolPath, preserves sameTraffic (after toolPath)).
  { intros toolPath. subst after. cbv beta. frames. }
  clearbody after.
  apply (bind_frame_inv settled) in E; [|frames].
  destruct E as [S|(u1 & w1 & S1 & _ & E)]; [exact (settled_sameTraffic _ _ S)|].
  apply (bind_frame_inv settled) in E; [|frames].
  destruct E as [S|(b & w2 & S2 & _ & E)];
    [exact (settled_sameTraffic _ _ (settled_trans _ _ _ S1 S))|].
  pose proof (settled_trans _ _ _ S1 S2) as S12.
  apply (bind_frame_inv settled) in E; [|frames].
  destruct E as [S|(u3 & w3 & S3 & _ & E)];
    [exact (settled_sameTraffic _ _ (settled_trans _ _ _ S12 S))|].
  pose proof (settled_trans _ _ _ S12 S3) as S123.
  rewrite (bind_ok _ _ _ _ _
             (ensureToolDownloaded_present url w3 (toolPath_settled _ _ S123 Hex))) in E.
  apply (sameTraffic_trans _ w3); [exact (settled_sameTraffic _ _ S123)|].
  exact (Hafter _ _ _ _ E).
Qed.

Lemma setupJavaEnvironment_settled (w w' : World) (o : Outcome string) :
  javaNeededIn (env w) = false ->
  setupJavaEnvironment w = (o, w') -> settled w w'.
Proof.
  intros Hj E. rewrite setupJavaEnvironment_unfold in E. cbv zeta in E.
  fold (javaNeededIn (env w)) in E. rewrite Hj in E. injection E as <- <-.
  repeat split; auto.
Qed.

Lemma prepare_noTraffic (w w' : World) (o : Outcome (string * string * string)) :
  javaNeededIn (env w) = false ->
  existsIn (fs w) (toolPathIn (env w)) = true ->
  prepare w = (o, w') -> noTraffic w w'.
Proof.
  intros Hj Hex E. unfold prepare in E.
  apply (bind_frame_inv settled) in E; [|frames].
  destruct E as [S|(op & w1 & S1 & _ & E)];
    [exact (sameTraffic_noTraffic _ _ (settled_sameTraffic _ _ S))|].
  apply (bind_frame_inv settled) in E; [|frames].
  destruct E as [S|(params & w2 & S2 & _ & E)];
    [exact (sameTraffic_noTraffic _ _ (settled_sameTraffic _ _ (settled_trans _ _ _ S1 S)))|].
  pose proof (settled_trans _ _ _ S1 S2) as S12.
  apply (bind_frame_inv settled) in E; [|frames].
  destruct E as [S|(u3 & w3 & S3 & _ & E)];
    [exact (sameTraffic_noTraffic _ _ (settled_sameTraffic _ _ (settled_trans _ _ _ S12 S)))|].
  pose proof (settled_trans _ _ _ S12 S3) as S123.
  assert (Hj3 : javaNeededIn (env w3) = false).
  { destruct S123 as (_ & Ee & _). rewrite Ee. exact Hj. }
  unfold bind at 1 in E.
  destruct (setupJavaEnvironment w3) as [[javaPath|e|c] w4] eqn:E4;
    pose proof (setupJavaEnvironment_settled _ _ _ Hj3 E4) as S4;
    pose proof (settled_trans _ _ _ S123 S4) as S1234;
    try (injection E as <- <-;
         exact (sameTraffic_noTraffic _ _ (settled_sameTraffic _ _ S1234))).
  unfold bind at 1 in E.
  destruct (initialize w4) as [[toolCommand|e|c] w5] eqn:E5;
    pose proof (initialize_sameTraffic _ _ _ (toolPath_settled _ _ S1234 Hex) E5) as S5;
    pose proof (sameTraffic_trans _ _ _ (settled_sameTraffic _ _ S1234) S5) as S15;
    injection E as <- <-; exact (sameTraffic_noTraffic _ _ S15).
Qed.

End Offline.

(** X15 (initialize, ensureToolDownloaded): when the signing tool is on
    disk, at [CODESIGNTOOL_PATH] or else below [codesign] in the working
    directory, [initialize] fetches nothing, spawns no process,
    publishes no output and sets no failure message, whether it returns
    a command or raises. *)
Theorem initialize_without_download `{Host} (w w' : World) (o : Outcome string) :
  existsIn (fs w) (toolPathIn (env w)) = true ->
  initialize w = (o, w') ->
  remote w' = remote w /\ spawned w' = spawned w
  /\ outputs w' = outputs w /\ failure w' = failure w.
Proof. intros Hex E. exact (initialize_sameTraffic w w' o Hex E). Qed.

(** X16 (main): a run that finds Java (no installation needed) and the
    signing tool on disk consults no release index and fetches no
    archive, however it ends. *)
Theorem run_without_download `{Host} `{JdkProvider} (w w' : World) (o : Outcome unit) :
  javaNeededIn (env w) = false ->
  existsIn (fs w) (toolPathIn (env w)) = true ->
  main w = (o, w') ->
  remote w' = remote w.
Proof.
  intros Hj Hex E. unfold main, tryCatch in E.
  match type of E with
  | context [match ?b w with _ => _ end] =>
      assert (Hbody : forall ob wb, b w = (ob, wb) -> noTraffic w wb);
      [|destruct (b w) as [[[]|e|c] wb] eqn:Eb; pose proof (Hbody _ _ eq_refl) as Sb]
  end.
  - intros ob wb Eb.
    apply (bind_frame_inv settled) in Eb; [|frames].
    destruct Eb as [S|(u1 & w1 & S1 & _ & Eb)];
      [exact (sameTraffic_noTraffic _ _ (settled_sameTraffic _ _ S))|].
    assert (Hj1 : javaNeededIn (env w1) = false).
    { destruct S1 as (_ & Ee & _). rewrite Ee. exact Hj. }
    pose proof (toolPath_settled _ _ S1 Hex) as Hex1.
    apply (noTraffic_trans _ w1);
      [exact (sameTraffic_noTraffic _ _ (settled_sameTraffic _ _ S1))|].
    unfold bind at 1 in Eb.
    destruct (prepare w1) as [[[[op tool] full]|e|c] w2] eqn:Ep;
      pose proof (prepare_noTraffic _ _ _ Hj1 Hex1 Ep) as S2;
      try (injection Eb as <- <-; exact S2).
    apply (noTraffic_trans _ w2); [exact S2|].
    assert (Hrest : preserves noTraffic
              (bind (scanGate op tool)
                 (fun proceed : bool => if proceed then signAndReport full else ret tt)))
      by frames.
    exact (Hrest _ _ _ Eb).
  - injection E as <- <-. exact Sb.
  - apply (noTraffic_trans _ wb); [exact Sb|]. exact (setFailed_noTraffic e _ _ _ E).
  - injection E as <- <-. exact Sb.
Qed.

Lemma initialize_without_download_witness :
  let r := @initialize Scenario.quiet Scenario.signRun in
  fst r = Ok "/bin/bash /work/codesign/CodeSignTool-v1.3.0/CodeSignTool.sh"
  /\ remote (snd r) = [] /\ spawned (snd r) = [] /\ outputs (snd r) = [].
Proof.
  intros r.
  destruct (@initialize_without_download Scenario.quiet Scenario.signRun (snd r) (fst r))
    as (Hr & Hs & Ho & _).
  - vm_compute. reflexivity.
  - apply surjective_pairing.
  - split; [vm_compute; reflexivity|]. split; [exact Hr|]. split; [exact Hs|exact Ho].
Defined.

Lemma run_without_download_witness :
  let r := @main Scenario.secondFails Posix.unreachableProvider Scenario.batchRun in
  List.length (spawned (snd r)) = 2%nat /\ remote (snd r) = [].
Proof.
  intros r. split; [vm_compute; reflexivity|].
  apply (@run_without_download Scenario.secondFails Posix.unreachableProvider
           Scenario.batchRun (snd r) (fst r)).
  - vm_compute. reflexivity.
  - vm_compute. reflexivity.
  - apply surjective_pairing.
Defined.


(* ===================================================================== *)
(** ** What [initialize] does once the tool is in place *)
(* ===================================================================== *)

Section Initialize.
Context `{Host}.

Lemma debugListDirectory_world (dirPath : string) (w w' : World) (o : Outcome unit) :
  debugListDirectory dirPath w = (o, w') -> w' = w.
Proof.
  unfold debugListDirectory, bind, readdirSync, ret.
  destruct (statAt (fs w) dirPath) as [| |[content|entries]];
    intros E; injection E as _ <-; reflexivity.
Qed.

Lemma resolveUserShell_world (signingMethod : string) (w w' : World)
  (o : Outcome (option string)) :
  resolveUserShell signingMethod w = (o, w') -> w' = w.
Proof.
  unfold resolveUserShell. cbv zeta.
  repeat match goal with
         | |- context [if ?b then _ else _] => destruct b
         | |- context [match ?x with _ => _ end] => destruct x
         end; intros E; injection E as _ <-; reflexivity.
Qed.

Lemma resolveUserShell_empty (signingMethod : string) (w : World) :
  process_platform = "win32" \/ signingMethod = SIGN_METHOD.VERSION_TWO ->
  resolveUserShell signingMethod w = (Ok (Some ""), w).
Proof.
  unfold resolveUserShell, identifyPlatform, SIGN_METHOD.VERSION_TWO,
    OS_PLATFORM.WIN_SYSTEM, OS_PLATFORM.MAC_OS_SYSTEM, OS_PLATFORM.UNIX_SYSTEM.
  intros [Hp|Hm].
  - rewrite Hp. reflexivity.
  - rewrite Hm.
    destruct (String.eqb process_platform "darwin");
      [reflexivity|destruct (String.eqb process_platform "win32"); reflexivity].
Qed.

Lemma writeFileSync_written (p content : string) (w w' : World) :
  writeFileSync p content w = (Ok tt, w') ->
  fs w' !! path_resolve p = Some (File content).
Proof.
  unfold writeFileSync, createEntry. cbv zeta.
  destruct (String.eqb p ""); [discriminate|].
  destruct (fs w !! path_resolve p) as [[old|entries]|];
    destruct (Js.endsWith p path_sep); try discriminate.
  - intros E. injection E as <-. cbn [fs setFs]. apply lookup_insert_eq.
  - destruct (fs w !! path_dirname (path_resolve p)) as [[c|es]|]; try discriminate.
    intros E. injection E as <-. cbn [fs setFs]. apply lookup_insert_eq.
Qed.

(** The launcher script is the only entry [buildExecutableCommand]
    writes. *)
Lemma buildExecutableCommand_keeps
  (toolPath scriptName signVersion memoryLimit platform cmd : string) (w w' : World)
  (k : string) :
  buildExecutableCommand toolPath scriptName signVersion memoryLimit platform w
  = (Ok cmd, w') ->
  k <> path_resolve (path_join toolPath scriptName) ->
  fs w' !! k = fs w !! k.
Proof.
  unfold buildExecutableCommand. intros E Hk.
  destruct (String.eqb signVersion SIGN_METHOD.VERSION_ONE).
  - cbv zeta in E.
    apply bind_inv_ok in E as (content & w1 & Er & E).
    unfold readFileSync, statAt in Er.
    destruct (String.eqb (path_join toolPath scriptName) "") eqn:En; [discriminate Er|].
    destruct (fs w !! path_resolve (path_join toolPath scriptName)) as [[old|entries]|] eqn:Ef;
      try discriminate Er.
    destruct (Js.endsWith (path_join toolPath scriptName) path_sep) eqn:Ee;
      try discriminate Er.
    injection Er as -> <-.
    apply bind_inv_ok in E as ([] & w2 & Ei & E). injection Ei as <-.
    apply bind_inv_ok in E as ([] & w3 & Ew & E).
    unfold writeFileSync in Ew. cbn [fs addInfo] in Ew. rewrite En, Ef, Ee in Ew.
    injection Ew as <-.
    apply bind_inv_ok in E as ([] & w4 & Ec & E).
    unfold chmodSync in Ec.
    destruct (statAt _ _); try discriminate Ec. injection Ec as <-.
    injection E as _ <-. cbn [fs setFs addInfo].
    apply lookup_insert_ne. congruence.
  - injection E as _ <-. reflexivity.
Qed.

(** The steps of [initialize] when the signing tool is on disk and the
    call returns: the configuration is written for the environment the
    inputs name, the command is built for the signing method and the
    memory limit of the inputs, and the result is the shell prefix, a
    space and that command, trimmed. *)
Lemma initialize_inv (w w' : World) (command : string) :
  let e := env w in
  let toolPath := toolPathIn e in
  let environment := Js.orElse (getInputIn e INPUT_KEYS.ENV_NAME) ENV_CONFIG.PRODUCTION in
  let memoryLimit := Js.orElse (getInputIn e INPUT_KEYS.MEMORY_LIMIT) "2048M" in
  let signVersion := Js.orElse (getInputIn e INPUT_KEYS.SIGN_VERSION) SIGN_METHOD.VERSION_ONE in
  let script := if isWindows then EXECUTABLE_SCRIPTS.windows else EXECUTABLE_SCRIPTS.unix in
  existsIn (fs w) toolPath = true ->
  initialize w = (Ok command, w') ->
  exists wa wb wb' wc executableCmd shellPrefix,
    writeConfiguration toolPath environment wa = (Ok tt, wb)
    /\ fs wb' = fs wb
    /\ buildExecutableCommand toolPath script signVersion memoryLimit identifyPlatform wb'
       = (Ok executableCmd, wc)
    /\ resolveUserShell signVersion wc = (Ok shellPrefix, wc)
    /\ command = Js.trim (showShell shellPrefix +:+ " " +:+ executableCmd)
    /\ fs w' = fs wc.
Proof.
  intros e toolPath environment memoryLimit signVersion script Hex E.
  unfold initialize, getDownloadDetails in E. cbv beta iota zeta in E.
  fold script in E.
  apply bind_inv_ok in E as ([] & w1 & E1 & E).
  apply debugListDirectory_world in E1. subst w1.
  apply bind_inv_ok in E as (present & w1 & E1 & E).
  injection E1 as _ <-.
  apply bind_inv_ok in E as (u & w3 & E3 & E).
  assert (S3 : settled w w3).
  { match type of E3 with
    | ?m w = _ =>
        assert (P : preserves settled m) by (destruct present; frames);
        exact (P _ _ _ E3)
    end. }
  rewrite (bind_ok _ _ _ _ _
             (ensureToolDownloaded_present _ w3 (toolPath_settled _ _ S3 Hex))) in E.
  assert (Ee : env w3 = e) by (destruct S3 as (_ & Ee & _); exact Ee).
  rewrite Ee in E. fold toolPath in E.
  apply bind_inv_ok in E as ([] & w4 & E4 & E). injection E4 as <-.
  apply bind_inv_ok in E as ([] & w5 & E5 & E).
  apply debugListDirectory_world in E5. subst w5.
  apply bind_inv_ok in E as (environment' & w5 & E5 & E).
  injection E5 as <- <-.
  apply bind_inv_ok in E as (memoryInput & w5 & E5 & E).
  injection E5 as <- <-.
  apply bind_inv_ok in E as (versionInput & w5 & E5 & E).
  injection E5 as <- <-.
  cbn [env addInfo] in E. rewrite Ee in E.
  fold environment in E. fold memoryLimit in E. fold signVersion in E.
  apply bind_inv_ok in E as ([] & wb & Ew & E).
  apply bind_inv_ok in E as ([] & w6 & Ei & E). injection Ei as <-.
  apply bind_inv_ok in E as ([] & w7 & Ex & E). injection Ex as <-.
  apply bind_inv_ok in E as (executableCmd & wc & Eb & E).
  apply bind_inv_ok in E as (shellPrefix & w8 & Es & E).
  pose proof (resolveUserShell_world _ _ _ _ Es) as ->.
  apply bind_inv_ok in E as ([] & w9 & Ei & E). injection Ei as <-.
  apply bind_inv_ok in E as ([] & w10 & Ei & E). injection Ei as <-.
  injection E as <- <-.
  eexists _, wb, _, wc, executableCmd, shellPrefix.
  split; [exact Ew|]. split; [|split; [exact Eb|]].
  - reflexivity.
  - split; [exact Es|]. split; reflexivity.
Qed.

End Initialize.



(* ===================================================================== *)
(** ** The configuration file (writeConfiguration, initialize) *)
(* ===================================================================== *)

(** C9: the production settings are chosen exactly for the environment
    name [PROD]; every other name (TEST, a misspelling, anything else)
    selects the sandbox settings.  [writeConfiguration] stores the
    chosen settings in [conf/code_sign_tool.properties] under the tool
    root (a path that is not empty and does not end in a separator),
    replacing the file when it is there and creating it in the existing
    [conf] directory otherwise.  An empty [environment_name]
    input stands for [PROD].  When [initialize] returns, with the
    signing tool on disk, the properties file under the tool root holds
    the settings of the environment the input names: those of
    production for an empty input and for [PROD], those of the sandbox
    for every other value. *)
Theorem C9_environment_configuration `{Host} (toolPath environment : string) (w : World) :
  let configPath := configurationPath toolPath in
  let target := path_resolve configPath in
  let named := getInputIn (env w) INPUT_KEYS.ENV_NAME in
  let installed := toolPathIn (env w) in
  let script := if isWindows then EXECUTABLE_SCRIPTS.windows else EXECUTABLE_SCRIPTS.unix in
  (configurationFor environment = PROD_ENV_SETTINGS <-> environment = "PROD")
  /\ (environment <> "PROD" -> configurationFor environment = SANDBOX_ENV_SETTINGS)
  /\ ((exists old, fs w !! target = Some (File old))
      \/ (fs w !! target = None
          /\ exists siblings, fs w !! path_dirname target = Some (Dir siblings)) ->
      configPath <> "" ->
      Js.endsWith configPath path_sep = false ->
      exists w',
        writeConfiguration toolPath environment w = (Ok tt, w')
        /\ fs w' !! target = Some (File (configurationFor environment)))
  /\ (named = "" -> environmentName w = (Ok "PROD", w))
  /\ (named <> "" -> environmentName w = (Ok named, w))
  /\ (forall command w',
        existsIn (fs w) installed = true ->
        path_resolve (path_join installed script)
        <> path_resolve (configurationPath installed) ->
        initialize w = (Ok command, w') ->
        fs w' !! path_resolve (configurationPath installed)
        = Some (File (if String.eqb named "" || String.eqb named "PROD"
                      then PROD_ENV_SETTINGS else SANDBOX_ENV_SETTINGS))).
Proof.
  intros configPath target named installed script.
  split; [apply configurationFor_production|].
  split; [|split; [|split; [|split]]].
  - intros Hne. unfold configurationFor, ENV_CONFIG.PRODUCTION.
    apply String.eqb_neq in Hne. rewrite Hne. reflexivity.
  - intros Hfs Hne Hsep. unfold writeConfiguration, bind, info, writeFileSync, createEntry.
    cbv zeta. fold configPath. fold target. cbn [fs addInfo].
    apply String.eqb_neq in Hne. rewrite Hne, Hsep.
    destruct Hfs as [[old Hold]|[Hnone [siblings Hdir]]].
    + rewrite Hold. eexists. split; [reflexivity|].
      cbn [fs setFs]. apply lookup_insert_eq.
    + rewrite Hnone, Hdir. eexists. split; [reflexivity|].
      cbn [fs setFs]. apply lookup_insert_eq.
  - intros He. unfold environmentName, bind, getInput, ret. fold named. rewrite He.
    reflexivity.
  - intros He. unfold environmentName, bind, getInput, ret. fold named.
    rewrite (orElse_nonempty _ _ He). reflexivity.
  - intros command w' Hex Hdistinct E.
    pose proof (initialize_inv w w' command) as Hi. cbv zeta in Hi.
    fold installed in Hi. fold named in Hi. fold script in Hi.
    destruct (Hi Hex E) as (wa & wb & wb' & wc & cmd & prefix & Ew & Efs & Eb & _ & _ & Ef).
    rewrite Ef.
    rewrite (buildExecutableCommand_keeps _ _ _ _ _ _ _ _ _ Eb)
      by (intros Heq; apply Hdistinct; symmetry; exact Heq).
    rewrite Efs.
    unfold writeConfiguration in Ew.
    apply bind_inv_ok in Ew as ([] & wi & Ei & Ew). injection Ei as <-.
    rewrite (writeFileSync_written _ _ _ _ Ew). f_equal. f_equal.
    unfold configurationFor, Js.orElse, ENV_CONFIG.PRODUCTION.
    destruct (String.eqb named ""); [reflexivity|].
    destruct (String.eqb named "PROD"); reflexivity.
Qed.

Lemma C9_environment_configuration_witness :
  let H := Posix.host "linux" (Ok (Some "/bin/bash")) (fun _ _ => NotStarted "no process") in
  let w := Posix.emptyWorld
             (<["/tool/conf/code_sign_tool.properties" := File "CLIENT_ID=old"]>
                (<["/tool/conf" := Dir ["code_sign_tool.properties"]]> ∅))
             [("INPUT_ENVIRONMENT_NAME", "")] in
  let staging := setEnv (("INPUT_ENVIRONMENT_NAME", "STAGING") :: env Scenario.signRun)
                   Scenario.signRun in
  configurationFor "prod" = SANDBOX_ENV_SETTINGS
  /\ (exists w',
        writeConfiguration "/tool" "TEST" w = (Ok tt, w')
        /\ fs w' !! "/tool/conf/code_sign_tool.properties" = Some (File SANDBOX_ENV_SETTINGS))
  /\ environmentName w = (Ok "PROD", w)
  /\ fs (snd (@initialize Scenario.quiet Scenario.signRun))
       !! (Scenario.toolRoot +:+ "/conf/code_sign_tool.properties")
     = Some (File PROD_ENV_SETTINGS)
  /\ fs (snd (@initialize Scenario.quiet staging))
       !! (Scenario.toolRoot +:+ "/conf/code_sign_tool.properties")
     = Some (File SANDBOX_ENV_SETTINGS).
Proof.
  intros H w staging.
  pose proof (@C9_environment_configuration H "/tool" "prod" w) as P1.
  pose proof (@C9_environment_configuration H "/tool" "TEST" w) as P2.
  pose proof (@C9_environment_configuration Scenario.quiet "" "" Scenario.signRun) as P3.
  pose proof (@C9_environment_configuration Scenario.quiet "" "" staging) as P4.
  cbv zeta in P1, P2, P3, P4.
  split; [apply (proj1 (proj2 P1)); discriminate|].
  split; [|split; [|split]].
  - apply (proj1 (proj2 (proj2 P2))); [|discriminate|reflexivity].
    left. exists "CLIENT_ID=old". reflexivity.
  - apply (proj1 (proj2 (proj2 (proj2 P2)))). reflexivity.
  - destruct (@initialize Scenario.quiet Scenario.signRun) as [[command|e|c] w'] eqn:E;
      [|vm_compute in E; discriminate E..].
    apply (proj2 (proj2 (proj2 (proj2 (proj2 P3)))) command w').
    + vm_compute. reflexivity.
    + vm_compute. discriminate.
    + reflexivity.
  - destruct (@initialize Scenario.quiet staging) as [[command|e|c] w'] eqn:E;
      [|vm_compute in E; discriminate E..].
    apply (proj2 (proj2 (proj2 (proj2 (proj2 P4)))) command w').
    + vm_compute. reflexivity.
    + vm_compute. discriminate.
    + reflexivity.
Defined.
(* ===================================================================== *)
(** ** The Corretto provider (setup-jdk-installer.ts) *)
(* ===================================================================== *)

(** The first element that passes a filter, and what stands before it. *)
Lemma filter_first {A} (p : A -> bool) (l : list A) :
  match List.filter p l with
  | [] => Forall (fun x => p x = false) l
  | y :: _ =>
      exists before after,
        l = before ++ y :: after /\ Forall (fun x => p x = false) before /\ p y = true
  end.
Proof.
  induction l as [|x l IH]; [constructor|].
  simpl. destruct (p x) eqn:E.
  - exists [], l. repeat split; [constructor|exact E].
  - destruct (List.filter p l) as [|y rest].
    + constructor; assumption.
    + destruct IH as (before & after & -> & Hb & Hy).
      exists (x :: before), after. repeat split; [constructor; assumption|exact Hy].
Qed.

(** X17 (CorrettoJdkProvider.locateReleaseForVersion,
    findMatchingReleases): a request for an early-access build, or for
    a version that contains a dot, is refused before the index is
    fetched.  Otherwise the answer is made of the Corretto version and
    the download link of the first release of the list whose version key
    is the requested text; when there is none, an error is raised. *)
Theorem corretto_release_selection `{Host} `{CorrettoRuntime}
  (this : Installer) (versionStr : string) (w : World) :
  (isStableRelease this = false ->
   CorrettoJdkProvider.locateReleaseForVersion this versionStr w
   = (Throw "Early access versions are not supported", w))
  /\ (isStableRelease this = true -> Js.includes versionStr "." = true ->
      CorrettoJdkProvider.locateReleaseForVersion this versionStr w
      = (Throw "Only major versions are supported", w))
  /\ (forall releases w1,
        isStableRelease this = true -> Js.includes versionStr "." = false ->
        CorrettoJdkProvider.fetchAvailableReleases this w = (Ok releases, w1) ->
        (exists before release after,
           releases = before ++ release :: after
           /\ Forall (fun r => version r <> versionStr) before
           /\ version release = versionStr
           /\ CorrettoJdkProvider.locateReleaseForVersion this versionStr w
              = (Ok (mkJdkReleaseInfo (correttoVersion release) (downloadLink release)), w1))
        \/ (Forall (fun r => version r <> versionStr) releases
            /\ exists message,
                 CorrettoJdkProvider.locateReleaseForVersion this versionStr w
                 = (Throw message, w1))).
Proof.
  split; [|split].
  - intros Hs. unfold CorrettoJdkProvider.locateReleaseForVersion. rewrite Hs. reflexivity.
  - intros Hs Hd. unfold CorrettoJdkProvider.locateReleaseForVersion. rewrite Hs, Hd.
    reflexivity.
  - intros releases w1 Hs Hd Ef.
    unfold CorrettoJdkProvider.locateReleaseForVersion. rewrite Hs, Hd. cbn [negb].
    rewrite (bind_ok _ _ _ _ _ Ef). unfold CorrettoJdkProvider.findMatchingReleases.
    pose proof (filter_first (fun release => String.eqb (version release) versionStr) releases)
      as Hf.
    destruct (List.filter _ releases) as [|release rest].
    + right. split.
      * eapply Forall_impl; [exact Hf|]. intros r Hr. apply String.eqb_neq. exact Hr.
      * eexists. reflexivity.
    + left. destruct Hf as (before & after & -> & Hb & Hr).
      exists before, release, after. split; [reflexivity|]. split; [|split].
      * eapply Forall_impl; [exact Hb|]. intros r Hr'. apply String.eqb_neq. exact Hr'.
      * apply String.eqb_eq. exact Hr.
      * reflexivity.
Qed.

Lemma corretto_release_selection_witness :
  let w := Posix.emptyWorld ∅ [] in
  (exists release,
     version release = "11"
     /\ @CorrettoJdkProvider.locateReleaseForVersion Scenario.quiet CorrettoScenario.runtime
          JdkScenario.corretto "11" w
        = (Ok (mkJdkReleaseInfo (correttoVersion release) (downloadLink release)), w))
  /\ @CorrettoJdkProvider.locateReleaseForVersion Scenario.quiet CorrettoScenario.runtime
       JdkScenario.corretto "11.0" w
     = (Throw "Only major versions are supported", w).
Proof.
  intros w.
  destruct (@corretto_release_selection Scenario.quiet CorrettoScenario.runtime
              JdkScenario.corretto "11" w) as (_ & _ & Hsel).
  destruct (@corretto_release_selection Scenario.quiet CorrettoScenario.runtime
              JdkScenario.corretto "11.0" w) as (_ & Hdot & _).
  split; [|apply Hdot; reflexivity].
  pose (releases :=
          match fst (@CorrettoJdkProvider.fetchAvailableReleases Scenario.quiet
                       CorrettoScenario.runtime JdkScenario.corretto w) with
          | Ok l => l
          | _ => []
          end).
  destruct (Hsel releases w eq_refl eq_refl)
    as [(before & release & after & _ & _ & Ev & El)|(Hnone & _)].
  - vm_compute. reflexivity.
  - exists release. split; [exact Ev|exact El].
  - exfalso. vm_compute in Hnone.
    apply Forall_cons in Hnone as [_ Hnone].
    apply Forall_cons in Hnone as [Hne _]. apply Hne. reflexivity.
Defined.

Section CorrettoIndex.
Context `{Host}.

Lemma collectArchives_offered (versionData : CorrettoImages) (versionKey : string)
  (whole versionEntry : JsObject CorrettoArchive)
  (versions result : list CorrettoVersionDetails) :
  In (versionKey, whole) versionData ->
  incl versionEntry whole ->
  Forall (offered versionData) versions ->
  CorrettoJdkProvider.collectArchives versionKey versionEntry versions = Ok result ->
  Forall (offered versionData) result.
Proof.
  intros Hin. revert versions.
  induction versionEntry as [|[archiveType releaseDetails] rest IH]; intros versions Hincl Hv E.
  - injection E as <-. exact Hv.
  - cbn [CorrettoJdkProvider.collectArchives] in E. cbv zeta in E.
    assert (Hrest : incl rest whole) by (intros x Hx; apply Hincl; right; exact Hx).
    destruct (String.eqb archiveType detectArchiveFormat) eqn:Et; cbn [negb] in E.
    + destruct (CorrettoJdkProvider.extractVersionFromPath (archive_resource releaseDetails))
        as [extracted|e|c] eqn:Ex; try discriminate E.
      apply (IH _ Hrest) in E; [exact E|].
      apply Forall_app. split; [exact Hv|]. constructor; [|constructor].
      apply String.eqb_eq in Et. unfold offered. cbn.
      split; [exact Et|]. split; [reflexivity|]. split; [exact Ex|].
      exists whole. split; [exact Hin|].
      apply Hincl. left. destruct releaseDetails; reflexivity.
    + exact (IH _ Hrest Hv E).
Qed.

Lemma collectVersions_offered (whole versionData : CorrettoImages)
  (versions result : list CorrettoVersionDetails) :
  incl versionData whole ->
  Forall (offered whole) versions ->
  CorrettoJdkProvider.collectVersions versionData versions = Ok result ->
  Forall (offered whole) result.
Proof.
  revert versions.
  induction versionData as [|[versionKey versionEntry] rest IH]; intros versions Hincl Hv E.
  - injection E as <-. exact Hv.
  - cbn [CorrettoJdkProvider.collectVersions] in E.
    destruct (CorrettoJdkProvider.collectArchives versionKey versionEntry versions)
      as [collected|e|c] eqn:Ec; try discriminate E.
    apply (collectArchives_offered whole versionKey versionEntry) in Ec;
      [|apply Hincl; left; reflexivity|apply incl_refl|exact Hv].
    apply (IH collected); [|exact Ec|exact E].
    intros x Hx. apply Hincl. right. exact Hx.
Qed.

Lemma extractPlatformVersions_offered (versionData : CorrettoImages)
  (result : list CorrettoVersionDetails) :
  CorrettoJdkProvider.extractPlatformVersions (Some versionData) = Ok result ->
  Forall (offered versionData) result.
Proof.
  intros E. apply (collectVersions_offered versionData versionData [] result);
    [apply incl_refl|constructor|exact E].
Qed.

End CorrettoIndex.

(** X18 (CorrettoJdkProvider.extractPlatformVersions): every release the
    provider offers comes from an archive of the index whose file type
    is the archive format of the platform ([zip] on Windows, [tar.gz]
    elsewhere); its version is the key under which the archive is
    listed, its download link is the resource path on
    [https://corretto.aws], and its Corretto version is what
    [extractVersionFromPath] reads from that path.  A missing branch of
    the index gives no releases. *)
Theorem corretto_offers_platform_archives `{Host}
  (versionData : CorrettoImages) (result : list CorrettoVersionDetails) :
  CorrettoJdkProvider.extractPlatformVersions None = Ok []
  /\ (CorrettoJdkProvider.extractPlatformVersions (Some versionData) = Ok result ->
      Forall (fun d =>
                fileType d = detectArchiveFormat
                /\ downloadLink d = "https://corretto.aws" +:+ resource d
                /\ CorrettoJdkProvider.extractVersionFromPath (resource d)
                   = Ok (correttoVersion d)
                /\ exists versionEntry,
                     In (version d, versionEntry) versionData
                     /\ In (fileType d,
                            mkCorrettoArchive (checksum d) (checksum_sha256 d) (resource d))
                          versionEntry)
             result).
Proof.
  split; [reflexivity|]. intros E. exact (extractPlatformVersions_offered versionData result E).
Qed.

Lemma corretto_offers_platform_archives_witness :
  exists result,
    @CorrettoJdkProvider.extractPlatformVersions Scenario.quiet
      (Some CorrettoScenario.linuxImages) = Ok result
    /\ map version result = ["8"; "11"; "17"]
    /\ Forall (fun d => fileType d = "tar.gz") result.
Proof.
  pose (result :=
          match @CorrettoJdkProvider.extractPlatformVersions Scenario.quiet
                  (Some CorrettoScenario.linuxImages) with
          | Ok l => l
          | _ => []
          end).
  exists result. split; [vm_compute; reflexivity|]. split; [vm_compute; reflexivity|].
  eapply Forall_impl;
    [apply (proj2 (@corretto_offers_platform_archives Scenario.quiet
                     CorrettoScenario.linuxImages result)); vm_compute; reflexivity|].
  intros d (Ht & _). exact Ht.
Defined.

(* ===================================================================== *)
(** ** The version in a resource path (extractVersionFromPath) *)
(* ===================================================================== *)

Lemma uptoLastSlash_none (s : string) : Js.count "/" s = 0%nat -> uptoLastSlash s = None.
Proof.
  induction s as [|c s IH]; intros Hc; [reflexivity|].
  apply count_cons_zero in Hc as [E Hc].
  cbn [uptoLastSlash]. rewrite (IH Hc), Ascii.eqb_sym, E.
  destruct (isLineTerminator c); reflexivity.
Qed.

Lemma uptoLastSlash_segment (r file : string) :
  Semver.allChars (fun c => negb (isLineTerminator c)) r = true ->
  Js.count "/" file = 0%nat ->
  uptoLastSlash (r +:+ String "/" file) = Some r.
Proof.
  intros Hr Hf. induction r as [|c r IH].
  - rewrite app_empty_l. cbn [uptoLastSlash]. rewrite (uptoLastSlash_none _ Hf). reflexivity.
  - cbn [Semver.allChars] in Hr. apply andb_true_iff in Hr as [Hc Hr].
    rewrite app_cons. cbn [uptoLastSlash].
    apply negb_true_iff in Hc. rewrite Hc, (IH Hr). reflexivity.
Qed.

Lemma versionPattern_exec_skip (pre s : string) :
  Semver.allChars (fun c => negb (Semver.isDigit c)) pre = true ->
  versionPattern_exec (pre +:+ s) = versionPattern_exec s.
Proof.
  intros Hp. induction pre as [|c pre IH]; [reflexivity|].
  cbn [Semver.allChars] in Hp. apply andb_true_iff in Hp as [Hc Hp].
  apply negb_true_iff in Hc.
  rewrite app_cons. cbn [versionPattern_exec].
  assert (E : versionPatternAt (String c (pre +:+ s)) = None).
  { unfold versionPatternAt. destruct (pre +:+ s); [reflexivity|]. rewrite Hc. reflexivity. }
  rewrite E. exact (IH Hp).
Qed.

(** X19 (CorrettoJdkProvider.extractVersionFromPath): in a resource path
    made of a prefix without digits, a directory name of at least two
    characters that starts with a digit, a slash and a file name
    without slash, the version read from the path is that directory
    name; a path without digit has no version and raises. *)
Theorem corretto_version_of_resource (pre file rest : string) (d c : ascii) :
  (Semver.allChars (fun x => negb (Semver.isDigit x)) pre = true ->
   Semver.isDigit d = true ->
   Semver.allChars (fun x => negb (isLineTerminator x)) (String c rest) = true ->
   Js.count "/" file = 0%nat ->
   CorrettoJdkProvider.extractVersionFromPath
     (pre +:+ String d (String c rest) +:+ "/" +:+ file)
   = Ok (String d (String c rest)))
  /\ (Semver.allChars (fun x => negb (Semver.isDigit x)) pre = true ->
      CorrettoJdkProvider.extractVersionFromPath pre
      = Throw ("Could not parse corretto version from " +:+ pre)).
Proof.
  split.
  - intros Hp Hd Hr Hf. unfold CorrettoJdkProvider.extractVersionFromPath.
    rewrite (versionPattern_exec_skip _ _ Hp).
    norm_app. cbn [versionPattern_exec versionPatternAt].
    cbn [Semver.allChars] in Hr. apply andb_true_iff in Hr as [Hc Hr].
    rewrite Hd, Hc. cbn [andb].
    rewrite (uptoLastSlash_segment rest file Hr Hf). reflexivity.
  - intros Hp. unfold CorrettoJdkProvider.extractVersionFromPath.
    rewrite <- (app_empty_r pre) at 1. rewrite (versionPattern_exec_skip _ _ Hp).
    reflexivity.
Qed.

Lemma corretto_version_of_resource_witness :
  CorrettoJdkProvider.extractVersionFromPath
    "/downloads/resources/11.0.24.8.1/amazon-corretto-11.0.24.8.1-linux-x64.tar.gz"
  = Ok "11.0.24.8.1".
Proof.
  apply (proj1 (corretto_version_of_resource "/downloads/resources/"
                  "amazon-corretto-11.0.24.8.1-linux-x64.tar.gz" ".0.24.8.1" "1" "1"));
    reflexivity.
Defined.

(* ===================================================================== *)
(** ** Unpacking (unpackJavaArchive, fetchJdkArchive) *)
(* ===================================================================== *)

(** With the archive format of the platform as the extension, the
    file is unpacked as a zip archive on Windows and as a tar archive
    elsewhere, whatever its name. *)
Lemma unpackJavaArchive_format `{Host} `{CorrettoRuntime} (toolPath : string) :
  unpackJavaArchive toolPath (Some detectArchiveFormat)
  = (if String.eqb process_platform "win32"
     then tc_extractZipHere toolPath else tc_extractTar toolPath).
Proof.
  unfold unpackJavaArchive, detectArchiveFormat.
  destruct (String.eqb process_platform "win32"); reflexivity.
Qed.

(** X20 (CorrettoJdkProvider.fetchJdkArchive, unpackJavaArchive): once
    the archive of a release is downloaded, the provider unpacks it as
    a zip archive on Windows and as a tar archive elsewhere, whatever
    the name of the file.  An error of that unpacking is the error of
    the call; otherwise the first name in the unpacked directory is
    taken for the JDK and handed to the tool cache under the cache name
    of the release version, and the call returns the release version
    with the path the cache reports; an unpacked directory without
    entries makes the call raise. *)
Theorem fetchJdkArchive_unpacks_by_platform `{Host} `{CorrettoRuntime}
  (this : Installer) (releaseInfo : JdkReleaseInfo) (w w1 : World) (archive : string) :
  let extract :=
    if String.eqb process_platform "win32" then tc_extractZipHere else tc_extractTar in
  let w2 := addInfo "Extracting JDK archive" w1 in
  tc_downloadTool (release_url releaseInfo)
    (addInfo ("Downloading JDK " +:+ release_version releaseInfo +:+ " from "
                +:+ release_url releaseInfo) w)
  = (Ok archive, w1) ->
  (forall e w3,
     extract archive w2 = (Throw e, w3) ->
     CorrettoJdkProvider.fetchJdkArchive this releaseInfo w = (Throw e, w3))
  /\ (forall directory w3 first rest cachedPath w4,
        extract archive w2 = (Ok directory, w3) ->
        readdirSync directory w3 = (Ok (first :: rest), w3) ->
        tc_cacheDir (path_join directory first) (cachedToolDirectory this)
          (formatCacheVersionName this (release_version releaseInfo))
          (systemArchitecture this) w3
        = (Ok cachedPath, w4) ->
        CorrettoJdkProvider.fetchJdkArchive this releaseInfo w
        = (Ok (mkJdkSetupResult (release_version releaseInfo) cachedPath), w4))
  /\ (forall directory w3,
        extract archive w2 = (Ok directory, w3) ->
        readdirSync directory w3 = (Ok [], w3) ->
        CorrettoJdkProvider.fetchJdkArchive this releaseInfo w
        = (Throw pathArgumentUndefined, w3)).
Proof.
  intros extract w2 Ed.
  assert (E : CorrettoJdkProvider.fetchJdkArchive this releaseInfo w
              = bind (extract archive)
                  (fun extractedDirectory =>
                     bind (readdirSync extractedDirectory)
                       (fun directoryContents =>
                          match directoryContents with
                          | first :: _ =>
                              bind (tc_cacheDir (path_join extractedDirectory first)
                                      (cachedToolDirectory this)
                                      (formatCacheVersionName this
                                         (release_version releaseInfo))
                                      (systemArchitecture this))
                                (fun cachedJdkPath =>
                                   ret (mkJdkSetupResult (release_version releaseInfo)
                                          cachedJdkPath))
                          | [] =>
                              throw pathArgumentUndefined
                          end)) w2).
  { unfold CorrettoJdkProvider.fetchJdkArchive.
    unfold bind at 1. unfold info at 1.
    rewrite (bind_ok _ _ _ _ _ Ed).
    unfold bind at 1. unfold info at 1. fold w2.
    rewrite unpackJavaArchive_format. unfold extract.
    destruct (String.eqb process_platform "win32"); reflexivity. }
  rewrite E. split; [|split].
  - intros e w3 Ex. apply bind_throw. exact Ex.
  - intros directory w3 first rest cachedPath w4 Ex Er Ec.
    rewrite (bind_ok _ _ _ _ _ Ex). rewrite (bind_ok _ _ _ _ _ Er).
    rewrite (bind_ok _ _ _ _ _ Ec). reflexivity.
  - intros directory w3 Ex Er.
    rewrite (bind_ok _ _ _ _ _ Ex). rewrite (bind_ok _ _ _ _ _ Er). reflexivity.
Qed.

Lemma fetchJdkArchive_unpacks_by_platform_witness :
  let release := mkJdkReleaseInfo "11.0.24.8.1"
                   "https://corretto.aws/downloads/resources/11.0.24.8.1/amazon-corretto-11.0.24.8.1-linux-x64.tar.gz" in
  fst (@CorrettoJdkProvider.fetchJdkArchive CorrettoScenario.downloading
         CorrettoScenario.unpacking JdkScenario.corretto release CorrettoScenario.unpacked)
  = Ok (mkJdkSetupResult "11.0.24.8.1"
          "/opt/hostedtoolcache/Java_Corretto_jdk/11.0.24.8.1/x64").
Proof.
  intros release.
  pose (w1 := addInfo ("Downloading JDK " +:+ release_version release +:+ " from "
                         +:+ release_url release) CorrettoScenario.unpacked).
  pose (w2 := addInfo "Extracting JDK archive" w1).
  rewrite (proj1 (proj2 (@fetchJdkArchive_unpacks_by_platform CorrettoScenario.downloading
                           CorrettoScenario.unpacking JdkScenario.corretto release
                           CorrettoScenario.unpacked w1 "/tmp/jdk/archive" eq_refl))
             CorrettoScenario.extracted w2 "amazon-corretto-11.0.24.8.1-linux-x64" []
             "/opt/hostedtoolcache/Java_Corretto_jdk/11.0.24.8.1/x64" w2
             eq_refl eq_refl eq_refl).
  reflexivity.
Defined.

(* ===================================================================== *)
(** ** Requested versions (parseVersion) *)
(* ===================================================================== *)

Lemma length_app_s (a b : string) :
  String.length (a +:+ b) = (String.length a + String.length b)%nat.
Proof. induction a as [|c a IH]; [reflexivity|]. rewrite app_cons. simpl. rewrite IH. reflexivity. Qed.

Lemma endsWith_app (a s : string) : Js.endsWith (a +:+ s) s = true.
Proof.
  induction a as [|c a IH].
  - rewrite app_empty_l. destruct s; simpl; rewrite ?Ascii.eqb_refl, ?String.eqb_refl; reflexivity.
  - rewrite app_cons. simpl. rewrite IH. apply orb_true_r.
Qed.

(** The anchored pattern removes the suffix, and nothing else. *)
Lemma stripSuffix_app (a s : string) : s <> "" -> Js.stripSuffix (a +:+ s) s = a.
Proof.
  intros Hne. induction a as [|c a IH].
  - rewrite app_empty_l. destruct s as [|d s]; [contradiction|].
    cbn [Js.stripSuffix]. rewrite String.eqb_refl. reflexivity.
  - rewrite app_cons.
    change (Js.stripSuffix (String c (a +:+ s)) s)
      with (if String.eqb (String c (a +:+ s)) s then EmptyString
            else String c (Js.stripSuffix (a +:+ s) s)).
    destruct (String.eqb (String c (a +:+ s)) s) eqn:E.
    + apply String.eqb_eq in E. apply (f_equal String.length) in E.
      cbn [String.length] in E. rewrite length_app_s in E. lia.
    + rewrite IH. reflexivity.
Qed.

(** X21 (JdkInstallationBase.parseVersion): a request that ends in
    [-ea] asks for the early-access build of the text before that
    suffix; a request without hyphen asks for a stable build of the
    text itself; either way the text must be a valid range, and the
    error raised otherwise quotes the request as it was written. *)
Theorem parseVersion_early_access_suffix `{Host} (v : string) :
  let invalid := fun request : string =>
    "The string '" +:+ request +:+
    "' is not valid SemVer notation for a Java version. Please check README file for code snippets and more detailed information" in
  parseVersion (v +:+ "-ea")
  = (if Semver.validRange semver_otherRanges v then Ok (v, false)
     else Throw (invalid (v +:+ "-ea")))
  /\ (Js.count "-" v = 0%nat ->
      parseVersion v
      = if Semver.validRange semver_otherRanges v then Ok (v, true) else Throw (invalid v)).
Proof.
  intros invalid. split.
  - unfold parseVersion. rewrite endsWith_app, stripSuffix_app by discriminate. reflexivity.
  - intros Hc. unfold parseVersion.
    assert (E1 : Js.endsWith v "-ea" = false).
    { clear -Hc. induction v as [|c v IH]; [reflexivity|].
      apply count_cons_zero in Hc as [E Hc].
      simpl. rewrite (IH Hc), orb_false_r.
      destruct (Ascii.eqb c "-") eqn:E'; [|reflexivity].
      rewrite Ascii.eqb_sym, E in E'. discriminate. }
    rewrite E1, (includes_absent "-" "ea." v Hc). reflexivity.
Qed.

Lemma parseVersion_early_access_suffix_witness :
  @parseVersion Scenario.quiet "11" = Ok ("11", true)
  /\ @parseVersion Scenario.quiet "17-ea" = Ok ("17", false).
Proof.
  split.
  - apply (proj2 (@parseVersion_early_access_suffix Scenario.quiet "11")). reflexivity.
  - apply (proj1 (@parseVersion_early_access_suffix Scenario.quiet "17")).
Defined.

(* ===================================================================== *)
(** ** Cache directories that are not semantic versions *)
(* ===================================================================== *)

Lemma count_trimStart (c : ascii) (s : string) :
  Js.isSpace c = false -> Js.count c (Js.trimStart s) = Js.count c s.
Proof.
  intros Hc. induction s as [|d s IH]; [reflexivity|].
  cbn [Js.trimStart]. destruct (Js.isSpace d) eqn:Ed; [|reflexivity].
  rewrite IH. cbn [Js.count].
  destruct (Ascii.eqb c d) eqn:E; [|reflexivity].
  apply Ascii.eqb_eq in E. subst d. congruence.
Qed.

Lemma count_trimEnd (c : ascii) (s : string) :
  Js.isSpace c = false -> Js.count c (Js.trimEnd s) = Js.count c s.
Proof.
  intros Hc. induction s as [|d s IH]; [reflexivity|].
  cbn [Js.trimEnd Js.count]. rewrite <- IH.
  destruct (Js.trimEnd s) as [|x t].
  - destruct (Js.isSpace d) eqn:Ed.
    + destruct (Ascii.eqb c d) eqn:E; [|reflexivity].
      apply Ascii.eqb_eq in E. subst d. congruence.
    + reflexivity.
  - reflexivity.
Qed.

Lemma count_stripLeadingV (c : ascii) (s : string) :
  Ascii.eqb c "v" = false ->
  Js.count c (Semver.stripLeadingV s) = Js.count c s.
Proof.
  intros Hc. destruct s as [|d s]; [reflexivity|].
  cbn [Semver.stripLeadingV]. destruct (Ascii.eqb d "v") eqn:E; [|reflexivity].
  apply Ascii.eqb_eq in E. subst d. cbn [Js.count]. rewrite Hc. reflexivity.
Qed.

Lemma splitFirst_absent (c : ascii) (s : string) :
  Js.count c s = 0%nat -> Semver.splitFirst c s = (s, None).
Proof.
  induction s as [|d s IH]; intros Hc; [reflexivity|].
  apply count_cons_zero in Hc as [E Hc].
  cbn [Semver.splitFirst]. rewrite Ascii.eqb_sym, E, (IH Hc). reflexivity.
Qed.

Lemma length_splitOn (c : ascii) (s : string) :
  List.length (Semver.splitOn c s) = S (Js.count c s).
Proof.
  induction s as [|d s IH]; [reflexivity|].
  cbn [Semver.splitOn Js.count]. rewrite (Ascii.eqb_sym c d).
  destruct (Ascii.eqb d c).
  - cbn [List.length]. rewrite IH. reflexivity.
  - destruct (Semver.splitOn c s) as [|piece rest]; [discriminate IH|].
    cbn [List.length] in *. lia.
Qed.

(** A dotted number of more than three fields is no semantic version. *)
Lemma parse_many_fields (v : string) :
  (3 <= Js.count "." v)%nat -> Js.count "-" v = 0%nat -> Js.count "+" v = 0%nat ->
  Semver.parse v = None.
Proof.
  intros Hd Hm Hp. unfold Semver.parse.
  destruct (Nat.ltb Semver.MAX_LENGTH (String.length v)); [reflexivity|].
  set (t := Semver.stripLeadingV (Js.trim v)).
  assert (Hc : forall c, Js.isSpace c = false -> Ascii.eqb c "v" = false ->
                         Js.count c t = Js.count c v).
  { intros c Hs Hv. unfold t, Js.trim.
    rewrite count_stripLeadingV, count_trimEnd, count_trimStart by assumption. reflexivity. }
  rewrite splitFirst_absent by (rewrite Hc by reflexivity; exact Hp).
  rewrite splitFirst_absent by (rewrite Hc by reflexivity; exact Hm).
  pose proof (length_splitOn "." t) as Hl. rewrite Hc in Hl by reflexivity.
  destruct (Semver.splitOn "." t) as [|a [|b [|c [|d rest]]]]; try reflexivity.
  cbn [List.length] in Hl. lia.
Qed.

Lemma normalizeVersionString_plain (v : string) :
  Js.count "-" v = 0%nat -> normalizeVersionString v = v.
Proof.
  intros Hm. unfold normalizeVersionString.
  rewrite (replace_absent "-" "ea." "+" v Hm).
  rewrite (stripSuffix_absent "-" "ea" v Hm).
  apply (replace_absent "-" "" "+" v Hm).
Qed.

Lemma count_stripEqualsAndV (c : ascii) (s : string) :
  Ascii.eqb c "=" = false -> Ascii.eqb c "v" = false ->
  Js.count c (Semver.stripEqualsAndV s) = Js.count c s.
Proof.
  intros He Hv. induction s as [|d s IH]; [reflexivity|].
  cbn [Semver.stripEqualsAndV].
  destruct (Ascii.eqb d "=" || Ascii.eqb d "v") eqn:E; [|reflexivity].
  rewrite IH. cbn [Js.count].
  destruct (Ascii.eqb c d) eqn:Ec; [|reflexivity].
  apply Ascii.eqb_eq in Ec. subst d. rewrite He, Hv in E. discriminate E.
Qed.

(** The tool cache does not count such a directory as a version. *)
Lemma many_fields_not_explicit (v : string) :
  (3 <= Js.count "." v)%nat -> Js.count "-" v = 0%nat -> Js.count "+" v = 0%nat ->
  isExplicitVersion v = false.
Proof.
  intros Hd Hm Hp. unfold isExplicitVersion, Semver.clean, Semver.valid.
  rewrite (parse_many_fields (Semver.stripEqualsAndV (Js.trim v))); [reflexivity| | |].
  - rewrite count_stripEqualsAndV by reflexivity. unfold Js.trim.
    rewrite count_trimEnd, count_trimStart by reflexivity. exact Hd.
  - rewrite count_stripEqualsAndV by reflexivity. unfold Js.trim.
    rewrite count_trimEnd, count_trimStart by reflexivity. exact Hm.
  - rewrite count_stripEqualsAndV by reflexivity. unfold Js.trim.
    rewrite count_trimEnd, count_trimStart by reflexivity. exact Hp.
Qed.

Section NeverReused.
Context `{Host} `{JdkProvider}.

Lemma completeVersions_explicit (toolPath arch : string) (children names : list string)
  (w w' : World) (name : string) :
  completeVersions toolPath arch children w = (Ok names, w') ->
  In name names -> isExplicitVersion name = true /\ In name children.
Proof.
  revert names w'. induction children as [|child rest IH]; intros names w' E Hin.
  - injection E as <- _. destruct Hin.
  - cbn [completeVersions] in E.
    destruct (isExplicitVersion child) eqn:Ex.
    + unfold bind at 1 in E. unfold existsSync at 1 in E.
      unfold bind at 1 in E. unfold existsSync at 1 in E.
      unfold bind at 1 in E.
      destruct (completeVersions toolPath arch rest w) as [[versions|e|c] w1] eqn:Er;
        try discriminate E.
      unfold ret in E. injection E as <- _.
      destruct (existsIn (fs w) _ && existsIn (fs w) _).
      * destruct Hin as [<-|Hin]; [split; [exact Ex|left; reflexivity]|].
        destruct (IH _ _ eq_refl Hin) as [Hx Hc]. split; [exact Hx|right; exact Hc].
      * destruct (IH _ _ eq_refl Hin) as [Hx Hc]. split; [exact Hx|right; exact Hc].
    + destruct (IH _ _ E Hin) as [Hx Hc]. split; [exact Hx|right; exact Hc].
Qed.

(** Every name [tc.findAllVersions] reports is an explicit version. *)
Lemma tc_findAllVersions_explicit (toolName arch : string) (names : list string)
  (w w' : World) (name : string) :
  tc_findAllVersions toolName arch w = (Ok names, w') ->
  In name names -> isExplicitVersion name = true.
Proof.
  unfold tc_findAllVersions. cbv zeta. intros E Hin.
  apply bind_inv_ok in E as (cacheDirectory & w1 & _ & E).
  apply bind_inv_ok in E as (present & w2 & _ & E).
  destruct present.
  - apply bind_inv_ok in E as (children & w3 & _ & E).
    exact (proj1 (completeVersions_explicit _ _ _ _ _ _ _ E Hin)).
  - injection E as <- _. destruct Hin.
Qed.

Lemma searchToolCache_no_candidate (this : Installer) (w : World) (names : list string) :
  exactWithBuild (jdkVersion this) = false ->
  tc_findAllVersions (cachedToolDirectory this) (systemArchitecture this) w = (Ok names, w) ->
  candidates this w = [] ->
  searchToolCache this w = (Ok None, w).
Proof.
  intros Hrange El Hc.
  rewrite (searchToolCache_candidates this w names Hrange El), Hc.
  unfold sortBy. cbn [consistent forallb stableSort]. reflexivity.
Qed.

Lemma candidates_unparsable (this : Installer) (w : World) :
  Semver.parseRange (jdkVersion this) <> None ->
  Forall (fun name => Semver.parse (normalizeVersionString name) = None)
    (listedVersions this w) ->
  candidates this w = [].
Proof.
  intros Hr Hn. unfold candidates, cachedEntries.
  induction Hn as [|name names Hname _ IH]; [reflexivity|].
  cbn [map List.filter].
  destruct (Bool.eqb (entry_stable (entryOf this w name)) (isStableRelease this));
    [|exact IH].
  cbn [List.filter].
  assert (E : Semver.satisfies semver_otherRanges (entry_version (entryOf this w name))
                (jdkVersion this) = false).
  { unfold Semver.satisfies. destruct (Semver.parseRange (jdkVersion this)); [|contradiction].
    cbn [entryOf entry_version]. rewrite Hname. reflexivity. }
  rewrite E. exact IH.
Qed.

End NeverReused.

(** X22 (searchToolCache, filterAndSortVersions,
    checkVersionCompatibility, formatCacheVersionName): a cache
    directory whose normalized name is no semantic version is never
    chosen; when the cache lists only such names the search finds
    nothing.  The names the stable installer forms from dotted numbers
    of more than three fields (as the Corretto number 11.0.24.8.1) are
    the numbers themselves: no semantic version, not compatible with
    the request, and not even listed by [tc.findAllVersions]. *)
Theorem unparsable_cache_names_are_never_reused `{Host} `{JdkProvider}
  (this : Installer) (w : World) :
  let listing := tc_findAllVersions (cachedToolDirectory this) (systemArchitecture this) in
  (jdkVersion this = "11" ->
   forall names,
     listing w = (Ok names, w) ->
     Forall (fun name => Semver.parse (normalizeVersionString name) = None) names ->
     searchToolCache this w = (Ok None, w))
  /\ (forall v,
        isStableRelease this = true ->
        (3 <= Js.count "." v)%nat -> Js.count "-" v = 0%nat -> Js.count "+" v = 0%nat ->
        formatCacheVersionName this v = v
        /\ Semver.parse (normalizeVersionString v) = None
        /\ checkVersionCompatibility "11" v = Ok false
        /\ (forall names, listing w = (Ok names, w) -> ~ In v names)).
Proof.
  intros listing. split.
  - intros Hv names El Hn. apply (searchToolCache_no_candidate this w names).
    + rewrite Hv. reflexivity.
    + exact El.
    + apply candidates_unparsable; [rewrite Hv; discriminate|].
      rewrite (listedVersions_eq _ _ _ El). exact Hn.
  - intros v Hs Hd Hm Hp.
    pose proof (parse_many_fields v Hd Hm Hp) as Epar.
    split; [|split; [|split]].
    + unfold formatCacheVersionName. rewrite Hs. cbn [negb].
      apply (replace_absent "+" "" "-" v Hp).
    + rewrite (normalizeVersionString_plain v Hm). exact Epar.
    + rewrite compatibility_range by reflexivity.
      unfold Semver.satisfies. cbn [Semver.parseRange]. rewrite Epar. reflexivity.
    + intros names El Hin.
      pose proof (tc_findAllVersions_explicit _ _ _ _ _ _ El Hin) as Hx.
      rewrite (many_fields_not_explicit v Hd Hm Hp) in Hx. discriminate Hx.
Qed.

Lemma unparsable_cache_names_are_never_reused_witness :
  let H := JdkScenario.runner in
  let w := JdkScenario.start ["11.0.24.8.1"; "=11.0.2"] in
  existsIn (fs w) (JdkScenario.cacheDir "11.0.24.8.1") = true
  /\ fst (@tc_findAllVersions H "Java_Corretto_jdk" "x64" w) = Ok ["=11.0.2"]
  /\ @searchToolCache H JdkScenario.corretto w = (Ok None, w)
  /\ @checkVersionCompatibility H "11" "11.0.24.8.1" = Ok false.
Proof.
  intros H w.
  destruct (@unparsable_cache_names_are_never_reused H Posix.unreachableProvider
              JdkScenario.corretto w) as [Hsearch Hname].
  split; [reflexivity|]. split; [vm_compute; reflexivity|]. split.
  - apply (Hsearch eq_refl ["=11.0.2"]).
    + vm_compute. reflexivity.
    + repeat constructor.
  - apply (Hname "11.0.24.8.1"); [reflexivity|vm_compute; lia|reflexivity|reflexivity].
Defined.
(* ===================================================================== *)
(** ** A scan that finds nothing (performMalwareScan, main) *)
(* ===================================================================== *)

Section CleanScan.
Context `{Host} `{JdkProvider}.

Lemma scanEntries_all_clean (tool sc dir : string) (entries : list string) (w : World) :
  (forall i entry,
     entries !! i = Some entry ->
     exists o,
       exec_reply (List.length (spawned w) + i) (completeScanCmd tool sc dir entry) = Exited o
       /\ exitCode o = 0 /\ hasExecutionError o = false) ->
  scanEntries tool sc dir entries w = (Ok true, scanned tool sc dir entries w).
Proof.
  revert w. induction entries as [|entry rest IH]; intros w Hall; [reflexivity|].
  cbn [scanEntries scanned]. unfold bind at 1. unfold info at 1.
  destruct (Hall 0%nat entry eq_refl) as (o & Ho & Hz & Hclean).
  rewrite Nat.add_0_r in Ho.
  assert (E : getExecOutput (completeScanCmd tool sc dir entry)
                (addInfo ("Scanning file for malware: " +:+ entry) w)
              = (Ok o, addSpawned (completeScanCmd tool sc dir entry)
                         (addInfo ("Scanning file for malware: " +:+ entry) w)))
    by (apply getExecOutput_zero; assumption).
  rewrite (bind_ok _ _ _ _ _ E), Hclean. apply IH.
  intros i e Hi. destruct (Hall (S i) e Hi) as (o' & Ho' & Hrest).
  exists o'. split; [|exact Hrest].
  cbn [spawned addSpawned addInfo]. rewrite length_app. cbn [List.length].
  rewrite <- Ho'. f_equal. lia.
Qed.

Lemma performMalwareScan_clean (tool operation : string) (w : World) (entries : list string) :
  let dir := path_normalize (inputValueIn (env w) INPUT_KEYS.DIR) in
  let sc := scanCommandIn (env w) operation in
  readdirSync dir w = (Ok entries, w) ->
  (forall i entry,
     entries !! i = Some entry ->
     exists o,
       exec_reply (List.length (spawned w) + i) (completeScanCmd tool sc dir entry) = Exited o
       /\ exitCode o = 0 /\ hasExecutionError o = false) ->
  performMalwareScan tool operation w = (Ok true, scanned tool sc dir entries w).
Proof.
  intros dir sc Er Hall. unfold performMalwareScan.
  rewrite (bind_ok _ _ _ _ _ (buildScanCommand_eq operation w)).
  rewrite (bind_ok _ _ _ _ _ (fetchInputValue_eq INPUT_KEYS.DIR w)).
  fold dir. fold sc.
  rewrite (bind_ok _ _ _ _ _ Er). apply scanEntries_all_clean. exact Hall.
Qed.

(** Reading a directory depends on the disk alone. *)
Lemma readdirSync_same_disk (p : string) (w v : World) (entries : list string) :
  fs v = fs w -> readdirSync p w = (Ok entries, w) -> readdirSync p v = (Ok entries, v).
Proof.
  unfold readdirSync. intros ->.
  destruct (statAt (fs w) p) as [| |[content|names]]; try discriminate.
  intros E. injection E as <-. reflexivity.
Qed.

End CleanScan.

(** X23 (performMalwareScan, main): when nothing is found under the
    directory to sign, the scan raises and spawns nothing.  When every
    entry of the directory is scanned with exit status zero and without
    marker, the scan answers [true] after one process per entry, in the
    order in which [fs.readdirSync] lists them; in a [batch_sign] run
    with [malware_block] TRUE the signing command is then spawned as
    the next and last process. *)
Theorem clean_scan_lets_signing_proceed `{Host} `{JdkProvider}
  (tool operation : string) (w : World) :
  let dir := path_normalize (inputValueIn (env w) INPUT_KEYS.DIR) in
  let sc := scanCommandIn (env w) operation in
  (fs w !! path_resolve dir = None ->
   performMalwareScan tool operation w
   = (Throw ("ENOENT: no such file or directory, scandir '" +:+ dir +:+ "'"), w))
  /\ (forall entries,
        readdirSync dir w = (Ok entries, w) ->
        (forall i entry,
           entries !! i = Some entry ->
           exists o,
             exec_reply (List.length (spawned w) + i) (completeScanCmd tool sc dir entry)
             = Exited o
             /\ exitCode o = 0 /\ hasExecutionError o = false) ->
        performMalwareScan tool operation w = (Ok true, scanned tool sc dir entries w)
        /\ spawned (scanned tool sc dir entries w)
           = spawned w ++ map (completeScanCmd tool sc dir) entries
        /\ forall w0 w1 full,
             validateSubscription w0 = (Ok tt, w1) ->
             prepare w1 = (Ok (operation, tool, full), w) ->
             operation = OPERATIONS.BULK_SIGN ->
             shouldScanIn (env w) = true ->
             exists o w',
               main w0 = (o, w')
               /\ spawned w'
                  = spawned w ++ map (completeScanCmd tool sc dir) entries ++ [full]).
Proof.
  intros dir sc. split.
  - intros Hd. unfold performMalwareScan.
    rewrite (bind_ok _ _ _ _ _ (buildScanCommand_eq operation w)).
    rewrite (bind_ok _ _ _ _ _ (fetchInputValue_eq INPUT_KEYS.DIR w)).
    fold dir. apply bind_throw. unfold readdirSync.
    rewrite (statAt_missing _ _ Hd). reflexivity.
  - intros entries Hd Hall.
    pose proof (performMalwareScan_clean tool operation w entries Hd Hall) as Escan.
    cbv zeta in Escan. fold dir in Escan. fold sc in Escan.
    split; [exact Escan|]. split; [apply scanned_spawned|].
    intros w0 w1 full Hv Hp Hop Hs.
    set (w2 := addInfo "Malware scanning: enabled" w).
    assert (Escan2 : performMalwareScan tool operation w2
                     = (Ok true, scanned tool sc dir entries w2)).
    { apply (performMalwareScan_clean tool operation w2 entries); [|exact Hall].
      apply (readdirSync_same_disk _ w w2); [reflexivity|exact Hd]. }
    assert (Eg : scanGate operation tool w = (Ok true, scanned tool sc dir entries w2)).
    { unfold scanGate, bind at 1, getInput. fold (shouldScanIn (env w)). rewrite Hs.
      unfold bind at 1, info at 1. fold w2.
      rewrite Hop. change (String.eqb OPERATIONS.BULK_SIGN OPERATIONS.BULK_SIGN) with true.
      cbn [andb]. rewrite <- Hop. rewrite (bind_ok _ _ _ _ _ Escan2). reflexivity. }
    rewrite (main_proceeds _ _ _ _ _ _ _ Hv Hp Eg).
    destruct (signAndReport_spawned full (scanned tool sc dir entries w2))
      as (o & w' & E & Es).
    exists o, w'. split; [exact E|].
    rewrite Es, scanned_spawned. cbn [spawned addInfo]. rewrite <- app_assoc. reflexivity.
Qed.

Lemma clean_scan_lets_signing_proceed_witness :
  let slash := setEnv (assignEnv "INPUT_DIR_PATH" "/work/in/" (env Scenario.batchRun))
                 Scenario.batchRun in
  let missing := setEnv (assignEnv "INPUT_DIR_PATH" "out" (env Scenario.batchRun))
                   Scenario.batchRun in
  let r := @performMalwareScan Scenario.quiet signRunTool "batch_sign" slash in
  fst r = Ok true
  /\ List.length (spawned (snd r)) = 3%nat
  /\ @performMalwareScan Scenario.quiet signRunTool "batch_sign" missing
     = (Throw "ENOENT: no such file or directory, scandir 'out'", missing).
Proof.
  intros slash missing r.
  destruct (proj2 (@clean_scan_lets_signing_proceed Scenario.quiet Posix.unreachableProvider
                     signRunTool "batch_sign" slash)
              ["a.exe"; "b.exe"; "c.exe"]) as (E & Es & _).
  - vm_compute. reflexivity.
  - intros i entry _. exists Scenario.signed. repeat split.
  - unfold r. rewrite E. split; [reflexivity|]. split.
    + cbn [snd]. rewrite Es. reflexivity.
    + apply (proj1 (@clean_scan_lets_signing_proceed Scenario.quiet
                      Posix.unreachableProvider signRunTool "batch_sign" missing)).
      vm_compute. reflexivity.
Defined.

(* ===================================================================== *)
(** ** When the command string is returned (assembleCommandString) *)
(* ===================================================================== *)

Lemma concatAll_app (a b : list string) :
  concatAll (a ++ b) = concatAll a +:+ concatAll b.
Proof.
  induction a as [|x a IH]; [reflexivity|].
  cbn [app concatAll]. rewrite IH, app_assoc_s. reflexivity.
Qed.

Section Assemble.
Context `{Host}.

Lemma appendAll_app (keys1 keys2 : list string) (command action : string) (w : World) :
  appendAll (keys1 ++ keys2) command action w
  = bind (appendAll keys1 command action) (fun c => appendAll keys2 c action) w.
Proof.
  revert command w. induction keys1 as [|k keys1 IH]; intros command w; [reflexivity|].
  cbn [app appendAll]. unfold bind.
  destruct (appendParameter k command action w) as [[c|e|x] w1]; [|reflexivity|reflexivity].
  rewrite IH. reflexivity.
Qed.

Lemma appendAll_around_output (command action : string) (w w' : World) :
  let first := [INPUT_KEYS.USER; INPUT_KEYS.PASS; INPUT_KEYS.CRED_ID; INPUT_KEYS.TOTP;
                INPUT_KEYS.PROGRAM; INPUT_KEYS.FILE; INPUT_KEYS.DIR] in
  env w' = env w ->
  appendParameter INPUT_KEYS.OUTPUT
    (command +:+ concatAll (map (appended (env w) action) first)) action w
  = (Ok ((command +:+ concatAll (map (appended (env w) action) first))
           +:+ appended (env w) action INPUT_KEYS.OUTPUT), w') ->
  appendAll candidateKeys command action w
  = (Ok (command +:+ concatAll (map (appended (env w) action) candidateKeys)), w').
Proof.
  intros first Ee Eo.
  set (last := [INPUT_KEYS.FORCE_OVERRIDE; INPUT_KEYS.MALWARE_CHECK]).
  change candidateKeys with (first ++ [INPUT_KEYS.OUTPUT] ++ last).
  assert (Hfirst : Forall (fun k => k <> INPUT_KEYS.OUTPUT) first)
    by (subst first; repeat (constructor; [discriminate|]); constructor).
  assert (Hlast : Forall (fun k => k <> INPUT_KEYS.OUTPUT) last)
    by (subst last; repeat (constructor; [discriminate|]); constructor).
  assert (E1 : forall keys c w0,
             Forall (fun k => k <> INPUT_KEYS.OUTPUT) keys ->
             appendAll keys c action w0
             = (Ok (c +:+ concatAll (map (appended (env w0) action) keys)), w0)).
  { intros keys c w0 Hk. revert c. induction Hk as [|k keys Hne _ IH]; intros c.
    - simpl. rewrite app_empty_r. reflexivity.
    - simpl. rewrite (bind_ok _ _ _ _ _ (appendParameter_pure k c action w0 Hne)).
      rewrite IH, app_assoc_s. reflexivity. }
  rewrite appendAll_app.
  rewrite (bind_ok _ _ _ _ _ (E1 first command w Hfirst)).
  rewrite appendAll_app.
  assert (E2 : appendAll [INPUT_KEYS.OUTPUT]
                 (command +:+ concatAll (map (appended (env w) action) first)) action w
               = (Ok ((command +:+ concatAll (map (appended (env w) action) first))
                        +:+ appended (env w) action INPUT_KEYS.OUTPUT), w')).
  { cbn [appendAll]. rewrite (bind_ok _ _ _ _ _ Eo). reflexivity. }
  rewrite (bind_ok _ _ _ _ _ E2).
  rewrite (E1 last _ w' Hlast).
  rewrite Ee. rewrite !map_app, !concatAll_app.
  cbn [map concatAll]. rewrite ?app_assoc_s, ?app_empty_r. reflexivity.
Qed.

End Assemble.

(** X24 (assembleCommandString, appendParameter): the command string is
    returned, with the world as it was, whenever [output_path] adds no
    flag (empty, or not allowed for the operation); and when it does and
    the directory exists, the string is returned after one log line.
    In both cases the string is the base token followed by what each
    candidate key adds, in visiting order. *)
Theorem assembleCommandString_returns `{Host} (action : string) (w : World) :
  let p := path_normalize (inputValueIn (env w) INPUT_KEYS.OUTPUT) in
  let cmd := getInputIn (env w) INPUT_KEYS.CMD
               +:+ concatAll (map (appended (env w) action) candidateKeys) in
  (emits (env w) action INPUT_KEYS.OUTPUT = false ->
   assembleCommandString action w = (Ok cmd, w))
  /\ (emits (env w) action INPUT_KEYS.OUTPUT = true ->
      existsIn (fs w) p = true ->
      assembleCommandString action w
      = (Ok cmd, addInfo ("Output directory already exists: " +:+ p) w)).
Proof.
  intros p cmd. split.
  - intros Em. rewrite assembleCommandString_unfold. unfold bind at 1, getInput.
    apply appendAll_around_output; [reflexivity|].
    assert (Ea : appended (env w) action INPUT_KEYS.OUTPUT = "")
      by (unfold appended; rewrite Em; reflexivity).
    rewrite Ea, app_empty_r.
    apply appendParameter_skip. apply emits_false. exact Em.
  - intros Em Hex. rewrite assembleCommandString_unfold. unfold bind at 1, getInput.
    apply appendAll_around_output; [reflexivity|].
    assert (Ea : appended (env w) action INPUT_KEYS.OUTPUT = quotedFlag "output_dir_path" p)
      by (unfold appended; rewrite Em; reflexivity).
    rewrite Ea.
    rewrite (appendParameter_output _ action w Em). cbv zeta. fold p. rewrite Hex.
    reflexivity.
Qed.

Lemma assembleCommandString_returns_witness :
  @assembleCommandString Scenario.quiet "sign" Scenario.signRun
  = (Ok ("sign" +:+ quotedFlag "username" "alice" +:+ quotedFlag "password" "s3cr3t"
           +:+ quotedFlag "credential_id" "cred-1" +:+ quotedFlag "totp_secret" "totp"
           +:+ quotedFlag "input_file_path" "/work/in/a.exe"),
     Scenario.signRun).
Proof.
  apply (proj1 (@assembleCommandString_returns Scenario.quiet "sign" Scenario.signRun)).
  reflexivity.
Defined.

(* ===================================================================== *)
(** ** The launcher script (buildExecutableCommand, signing method v1) *)
(* ===================================================================== *)

Lemma replaceAllFrom_not_included (s pat rep before : string) :
  Js.includes s pat = false -> Js.replaceAllFrom 0 before s pat rep = s.
Proof.
  destruct pat as [|c p]; [destruct s; discriminate|].
  revert before. induction s as [|d s IH]; intros before E; [reflexivity|].
  simpl in E. apply orb_false_iff in E as [E1 E2].
  rewrite replaceAllFrom_mismatch by (rewrite startsWith_cons; exact E1).
  rewrite IH by exact E2. reflexivity.
Qed.

(** Every [$@] of a text whose other characters are no dollar signs is
    wrapped in quotes. *)
Lemma quote_arguments (a b : string) :
  Js.count "$" a = 0%nat -> Js.count "$" b = 0%nat ->
  Js.replaceAll (a +:+ ALL_ARGUMENTS +:+ b) ALL_ARGUMENTS quotedArguments
  = a +:+ quotedArguments +:+ b.
Proof.
  intros Ha Hb. unfold Js.replaceAll, ALL_ARGUMENTS at 1 2.
  rewrite replaceAllFrom_skip_plain by exact Ha.
  rewrite replaceAllFrom_match.
  rewrite replaceAllFrom_plain by exact Hb.
  reflexivity.
Qed.

(** The first [java -jar] receives the memory limit. *)
Lemma limit_memory (x rest memoryLimit : string) :
  Js.count "j" x = 0%nat -> Js.count "$" memoryLimit = 0%nat ->
  Js.includes rest JAVA_JAR = false ->
  Js.replaceAll (x +:+ JAVA_JAR +:+ rest) JAVA_JAR ("java -Xmx" +:+ memoryLimit +:+ " -jar")
  = x +:+ ("java -Xmx" +:+ memoryLimit +:+ " -jar") +:+ rest.
Proof.
  intros Hx Hm Hr. unfold Js.replaceAll, JAVA_JAR at 1 2.
  rewrite replaceAllFrom_skip_plain by exact Hx.
  rewrite replaceAllFrom_match.
  rewrite getSubstitution_plain by (rewrite !count_app, Hm; reflexivity).
  rewrite replaceAllFrom_not_included by exact Hr.
  reflexivity.
Qed.

Section Launcher.
Context `{Host}.

Lemma statAt_file (f : gmap string Node) (p content : string) :
  statAt f p = Entry (File content) ->
  String.eqb p "" = false
  /\ f !! path_resolve p = Some (File content) /\ Js.endsWith p path_sep = false.
Proof.
  unfold statAt. destruct (String.eqb p ""); [discriminate|].
  destruct (f !! path_resolve p) as [[c|entries]|]; try discriminate.
  destruct (Js.endsWith p path_sep); try discriminate.
  intros E. injection E as ->. repeat split; reflexivity.
Qed.

Lemma buildExecutableCommand_script (toolPath scriptName memoryLimit platform content : string)
  (w : World) :
  let scriptPath := path_join toolPath scriptName in
  let patched :=
    Js.replaceAll (Js.replaceAll content JAVA_JAR ("java -Xmx" +:+ memoryLimit +:+ " -jar"))
      ALL_ARGUMENTS quotedArguments in
  statAt (fs w) scriptPath = Entry (File content) ->
  buildExecutableCommand toolPath scriptName SIGN_METHOD.VERSION_ONE memoryLimit platform w
  = (Ok scriptPath,
     setFs (<[path_resolve scriptPath := File patched]> (fs w))
       (addInfo ("Prepared executable command with memory limit: " +:+ memoryLimit) w)).
Proof.
  intros scriptPath patched Hs. destruct (statAt_file _ _ _ Hs) as (Hn & Hf & He).
  unfold buildExecutableCommand.
  change (String.eqb SIGN_METHOD.VERSION_ONE SIGN_METHOD.VERSION_ONE) with true. cbv iota.
  fold scriptPath.
  assert (Er : readFileSync scriptPath w = (Ok content, w)).
  { unfold readFileSync. rewrite Hs. reflexivity. }
  rewrite (bind_ok _ _ _ _ _ Er). fold JAVA_JAR ALL_ARGUMENTS quotedArguments. fold patched.
  unfold bind at 1. unfold info at 1.
  set (w1 := addInfo ("Prepared executable command with memory limit: " +:+ memoryLimit) w).
  assert (Ew : writeFileSync scriptPath patched w1
               = (Ok tt, setFs (<[path_resolve scriptPath := File patched]> (fs w)) w1)).
  { unfold writeFileSync. change (fs w1) with (fs w). rewrite Hn, Hf, He. reflexivity. }
  rewrite (bind_ok _ _ _ _ _ Ew).
  unfold bind, chmodSync, ret. cbn [fs setFs].
  unfold statAt. rewrite Hn, lookup_insert_eq, He. reflexivity.
Qed.

End Launcher.

(** X25 (buildExecutableCommand, signing method v1): the launcher script
    is rewritten in place and its path is the command.  In a script
    with one [java -jar] and one [$@] the first becomes
    [java -Xmx<limit> -jar] and the second is wrapped in quotes.  The
    rewriting applies to whatever is on disk: in a script that holds no
    [java -jar] (any longer), [$@] receives one more pair of quotes.  A
    missing script raises and nothing is written. *)
Theorem launcher_script_is_patched `{Host}
  (toolPath scriptName memoryLimit platform : string) (w : World) :
  let scriptPath := path_join toolPath scriptName in
  let build :=
    buildExecutableCommand toolPath scriptName SIGN_METHOD.VERSION_ONE memoryLimit platform w in
  let w1 := addInfo ("Prepared executable command with memory limit: " +:+ memoryLimit) w in
  (statAt (fs w) scriptPath = NoEntry ->
   build = (Throw ("ENOENT: no such file or directory, open '" +:+ scriptPath +:+ "'"), w))
  /\ (forall x y z,
        statAt (fs w) scriptPath
        = Entry (File (x +:+ JAVA_JAR +:+ y +:+ ALL_ARGUMENTS +:+ z)) ->
        Js.count "j" x = 0%nat -> Js.count "$" x = 0%nat ->
        Js.count "$" y = 0%nat -> Js.count "$" z = 0%nat ->
        Js.count "$" memoryLimit = 0%nat ->
        Js.includes (y +:+ ALL_ARGUMENTS +:+ z) JAVA_JAR = false ->
        build
        = (Ok scriptPath,
           setFs (<[path_resolve scriptPath :=
                      File (x +:+ "java -Xmx" +:+ memoryLimit +:+ " -jar" +:+ y
                              +:+ quotedArguments +:+ z)]> (fs w)) w1))
  /\ (forall a b,
        statAt (fs w) scriptPath = Entry (File (a +:+ ALL_ARGUMENTS +:+ b)) ->
        Js.count "$" a = 0%nat -> Js.count "$" b = 0%nat ->
        Js.includes (a +:+ ALL_ARGUMENTS +:+ b) JAVA_JAR = false ->
        build
        = (Ok scriptPath,
           setFs (<[path_resolve scriptPath := File (a +:+ quotedArguments +:+ b)]> (fs w))
             w1)).
Proof.
  intros scriptPath build w1. split; [|split].
  - intros Hf. unfold build, buildExecutableCommand.
    change (String.eqb SIGN_METHOD.VERSION_ONE SIGN_METHOD.VERSION_ONE) with true. cbv iota.
    apply bind_throw. unfold readFileSync. fold scriptPath. rewrite Hf. reflexivity.
  - intros x y z Hf Hj Hx Hy Hz Hm Hr. unfold build.
    rewrite (buildExecutableCommand_script _ _ _ _ _ w Hf). cbv zeta.
    rewrite (limit_memory x _ memoryLimit Hj Hm Hr).
    assert (E : (x +:+ ("java -Xmx" +:+ memoryLimit +:+ " -jar") +:+ y +:+ ALL_ARGUMENTS +:+ z)
                = (x +:+ "java -Xmx" +:+ memoryLimit +:+ " -jar" +:+ y) +:+ ALL_ARGUMENTS +:+ z).
    { rewrite !app_assoc_s. reflexivity. }
    rewrite E, quote_arguments.
    + rewrite !app_assoc_s. reflexivity.
    + rewrite !count_app, Hx, Hm, Hy. reflexivity.
    + exact Hz.
  - intros a b Hf Ha Hb Hr. unfold build.
    rewrite (buildExecutableCommand_script _ _ _ _ _ w Hf). cbv zeta.
    unfold Js.replaceAll at 2. rewrite replaceAllFrom_not_included by exact Hr.
    rewrite (quote_arguments a b Ha Hb). reflexivity.
Qed.

Lemma launcher_script_is_patched_witness :
  let script := Scenario.toolRoot +:+ "/CodeSignTool.sh" in
  let w := Scenario.signRun in
  let first := snd (@buildExecutableCommand Scenario.quiet Scenario.toolRoot "CodeSignTool.sh"
                      SIGN_METHOD.VERSION_ONE "2048M" "UNIX" w) in
  let second := snd (@buildExecutableCommand Scenario.quiet Scenario.toolRoot "CodeSignTool.sh"
                       SIGN_METHOD.VERSION_ONE "2048M" "UNIX" first) in
  fs w !! script = Some (File "java -jar code_sign_tool.jar $@")
  /\ fs first !! script
     = Some (File ("java -Xmx2048M -jar code_sign_tool.jar " +:+ dquote +:+ "$@" +:+ dquote))
  /\ fs second !! script
     = Some (File ("java -Xmx2048M -jar code_sign_tool.jar " +:+ dquote +:+ dquote +:+ "$@"
                     +:+ dquote +:+ dquote)).
Proof.
  intros script w first second.
  pose proof (proj1 (proj2 (@launcher_script_is_patched Scenario.quiet Scenario.toolRoot
                              "CodeSignTool.sh" "2048M" "UNIX" w))
                "" " code_sign_tool.jar " "" eq_refl eq_refl eq_refl eq_refl eq_refl eq_refl
                eq_refl) as E1.
  assert (Ef : fs first !! script
               = Some (File ("java -Xmx2048M -jar code_sign_tool.jar " +:+ dquote +:+ "$@"
                               +:+ dquote))).
  { unfold first. rewrite E1. reflexivity. }
  assert (Es : @statAt Scenario.quiet (fs first)
                 (@path_join Scenario.quiet Scenario.toolRoot "CodeSignTool.sh")
               = Entry (File (("java -Xmx2048M -jar code_sign_tool.jar " +:+ dquote)
                                +:+ ALL_ARGUMENTS +:+ dquote))).
  { unfold first. rewrite E1. reflexivity. }
  pose proof (proj2 (proj2 (@launcher_script_is_patched Scenario.quiet Scenario.toolRoot
                              "CodeSignTool.sh" "2048M" "UNIX" first))
                ("java -Xmx2048M -jar code_sign_tool.jar " +:+ dquote) dquote
                Es eq_refl eq_refl eq_refl) as E2.
  split; [reflexivity|]. split; [exact Ef|].
  unfold second. rewrite E2. reflexivity.
Defined.

(* ===================================================================== *)
(** ** Lookups that fail (fetchAvailableReleases,
       locateReleaseForVersion) *)
(* ===================================================================== *)

(** X26 (CorrettoJdkProvider.fetchAvailableReleases,
    locateReleaseForVersion): for a stable request without dot, an
    index that arrives as [null] makes the lookup raise with the
    address of the index; an index without branch for the platform, the
    architecture and the image type offers no release, and the lookup
    raises the error for an unsatisfied version without a list of
    available versions. *)
Theorem corretto_lookup_failures `{Host} `{CorrettoRuntime}
  (this : Installer) (versionStr : string) (w w1 : World) :
  isStableRelease this = true ->
  Js.includes versionStr "." = false ->
  (http_getJson CorrettoJdkProvider.versionIndexUrl w = (Ok None, w1) ->
   CorrettoJdkProvider.locateReleaseForVersion this versionStr w
   = (Throw ("Could not fetch latest corretto versions from "
               +:+ CorrettoJdkProvider.versionIndexUrl), w1))
  /\ (forall versionData,
        http_getJson CorrettoJdkProvider.versionIndexUrl w = (Ok (Some versionData), w1) ->
        platformBranch this versionData = None ->
        CorrettoJdkProvider.fetchAvailableReleases this w = (Ok [], w1)
        /\ CorrettoJdkProvider.locateReleaseForVersion this versionStr w
           = (Throw ("Could not find satisfied version for SemVer '" +:+ versionStr +:+ "'. "),
              w1)).
Proof.
  intros Hs Hd. split.
  - intros Eh. unfold CorrettoJdkProvider.locateReleaseForVersion. rewrite Hs, Hd. cbn [negb].
    apply bind_throw. unfold CorrettoJdkProvider.fetchAvailableReleases. cbv zeta.
    rewrite (bind_ok _ _ _ _ _ Eh). reflexivity.
  - intros versionData Eh Hb.
    assert (Ef : CorrettoJdkProvider.fetchAvailableReleases this w = (Ok [], w1)).
    { unfold CorrettoJdkProvider.fetchAvailableReleases. cbv zeta.
      rewrite (bind_ok _ _ _ _ _ Eh).
      fold (platformBranch this versionData). rewrite Hb.
      unfold bind, lift, ret, CorrettoJdkProvider.logAvailableVersions.
      cbn [CorrettoJdkProvider.extractPlatformVersions].
      destruct core_isDebug; reflexivity. }
    split; [exact Ef|].
    unfold CorrettoJdkProvider.locateReleaseForVersion. rewrite Hs, Hd. cbn [negb].
    rewrite (bind_ok _ _ _ _ _ Ef). cbn [CorrettoJdkProvider.findMatchingReleases map List.filter].
    unfold throw. rewrite app_empty_r. reflexivity.
Qed.

Lemma corretto_lookup_failures_witness :
  let H := Posix.host "freebsd" (Ok (Some "/bin/sh")) (fun _ _ => NotStarted "no process") in
  let w := Posix.emptyWorld ∅ [] in
  @CorrettoJdkProvider.locateReleaseForVersion H CorrettoScenario.runtime
    JdkScenario.corretto "11" w
  = (Throw "Could not find satisfied version for SemVer '11'. ", w).
Proof.
  intros H w.
  apply (proj2 (@corretto_lookup_failures H CorrettoScenario.runtime JdkScenario.corretto "11"
                  w w eq_refl eq_refl) CorrettoScenario.index); reflexivity.
Defined.

(* ===================================================================== *)
(** ** What a cache hit is (searchToolCache) *)
(* ===================================================================== *)

Lemma insertSorted_In {A} (comparator : A -> A -> option Z) (x : A) (l r : list A) :
  insertSorted comparator x l = Some r -> forall y, In y r <-> y = x \/ In y l.
Proof.
  revert r. induction l as [|z l IH]; intros r E y.
  - injection E as <-. simpl. intuition congruence.
  - cbn [insertSorted] in E.
    destruct (comparator x z) as [c|]; [|discriminate].
    destruct (c <=? 0).
    + injection E as <-. simpl. intuition congruence.
    + destruct (insertSorted comparator x l) as [r'|]; [|discriminate].
      injection E as <-. specialize (IH r' eq_refl y). simpl. intuition.
Qed.

Lemma stableSort_In {A} (comparator : A -> A -> option Z) (l s : list A) :
  stableSort comparator l = Some s -> forall y, In y s <-> In y l.
Proof.
  revert s. induction l as [|x l IH]; intros s E y.
  - injection E as <-. reflexivity.
  - cbn [stableSort] in E. destruct (stableSort comparator l) as [s'|]; [|discriminate].
    rewrite (insertSorted_In _ _ _ _ E y), (IH s' eq_refl y). simpl. intuition.
Qed.

Lemma pick_In {A} (l : list A) (order : list nat) (y : A) :
  In y (pick l order) -> In y l.
Proof.
  induction order as [|i rest IH]; [intros []|].
  cbn [pick]. destruct (l !! i) as [a|] eqn:Ei; [|exact IH].
  intros [<-|Hy]; [|exact (IH Hy)].
  apply list_elem_of_In. apply (list_elem_of_lookup_2 _ _ _ Ei).
Qed.

(** Whatever the comparator, the sort returns elements of its input. *)
Lemma sortBy_In `{Host} {A} (comparator : A -> A -> option Z) (l s : list A) :
  sortBy comparator l = Some s -> forall y, In y s -> In y l.
Proof.
  unfold sortBy. intros E y Hy.
  destruct (consistent comparator l).
  - apply (stableSort_In _ _ _ E). exact Hy.
  - destruct (answers comparator l); [|discriminate E].
    injection E as <-.
    destruct (isArrangement _ _); [exact (pick_In _ _ _ Hy)|exact Hy].
Qed.

Lemma filterO_In {A} (p : A -> Outcome bool) (l r : list A) :
  filterO p l = Ok r -> forall y, In y r -> In y l /\ p y = Ok true.
Proof.
  revert r. induction l as [|x l IH]; intros r E y Hy.
  - injection E as <-. destruct Hy.
  - cbn [filterO] in E. destruct (p x) as [keep|e|c] eqn:Ep; try discriminate.
    destruct (filterO p l) as [kept|e|c]; try discriminate.
    injection E as <-. destruct keep.
    + destruct Hy as [<-|Hy]; [split; [left; reflexivity|exact Ep]|].
      destruct (IH kept eq_refl y Hy). split; [right|]; assumption.
    + destruct (IH kept eq_refl y Hy). split; [right|]; assumption.
Qed.

(** X27 (searchToolCache, getCachedVersionsList, filterAndSortVersions,
    findCachedTool): however the candidates are sorted, an installation
    found in the cache belongs to a directory name the cache lists: its version
    is the normalized name, its path is the directory of that name below
    [RUNNER_TOOL_CACHE] and exists, the name holds [-ea] exactly when an
    early-access build was requested, and the version is compatible with
    the request.  The search changes nothing. *)
Theorem cache_hit_is_a_listed_entry `{Host}
  (this : Installer) (w w' : World) (found : JdkSetupResult) :
  searchToolCache this w = (Ok (Some found), w') ->
  w' = w
  /\ exists name,
       In name (listedVersions this w)
       /\ jdk_version found = normalizeVersionString name
       /\ jdk_path found
          = join4 (nullish (lookupEnv "RUNNER_TOOL_CACHE" (env w)) "")
              (cachedToolDirectory this) name (systemArchitecture this)
       /\ existsIn (fs w) (jdk_path found) = true
       /\ Js.includes name "-ea" = negb (isStableRelease this)
       /\ checkVersionCompatibility (jdkVersion this) (jdk_version found) = Ok true.
Proof.
  intros E. unfold searchToolCache in E.
  assert (El : exists names,
             tc_findAllVersions (cachedToolDirectory this) (systemArchitecture this) w
             = (Ok names, w)).
  { apply bind_inv_ok in E as (entries & w1 & Eg & _).
    unfold getCachedVersionsList in Eg.
    apply bind_inv_ok in Eg as (names & w2 & El & _).
    pose proof (tc_findAllVersions_world (cachedToolDirectory this) (systemArchitecture this) w)
      as Ew.
    rewrite El in Ew. cbn [snd] in Ew. subst w2. exists names. exact El. }
  destruct El as (names & El).
  rewrite (bind_ok _ _ _ _ _ (getCachedVersionsList_eq this w names El)) in E.
  unfold bind, lift in E.
  destruct (filterAndSortVersions this (cachedEntries this w)) as [sorted|e|c] eqn:Ef;
    try discriminate E.
  destruct sorted as [|best rest]; [discriminate E|].
  injection E as <- <-. split; [reflexivity|].
  unfold filterAndSortVersions in Ef.
  destruct (filterO _ (cachedEntries this w)) as [compatible|e|c] eqn:Ec; try discriminate Ef.
  destruct (sortBy descendingBuild _) as [s|] eqn:Es; [|discriminate Ef].
  injection Ef as ->.
  assert (Hbest : In best (List.filter (fun entry => Semver.nonEmpty (entry_path entry))
                             compatible)).
  { apply (sortBy_In _ _ _ Es). left. reflexivity. }
  apply filter_In in Hbest as [Hbest Hpath].
  apply (filterO_In _ _ _ Ec) in Hbest as [Hbest Hcompat].
  unfold cachedEntries in Hbest. apply filter_In in Hbest as [Hbest Hstable].
  apply in_map_iff in Hbest as (name & <- & Hname).
  exists name. split; [exact Hname|].
  cbn [jdk_version jdk_path entryOf entry_version entry_path entry_stable] in *.
  destruct (existsIn (fs w) _) eqn:Ex; [|discriminate Hpath].
  split; [reflexivity|]. split; [reflexivity|]. split; [exact Ex|].
  split; [|exact Hcompat].
  destruct (isStableRelease this), (Js.includes name "-ea"); try reflexivity; discriminate.
Qed.

Lemma cache_hit_is_a_listed_entry_witness :
  let H := JdkScenario.runner in
  let w := JdkScenario.start ["11.0.1-1"; "11.0.9-1"; "17.0.2-8"] in
  exists name,
    In name ["11.0.1-1"; "11.0.9-1"; "17.0.2-8"]
    /\ normalizeVersionString name = "11.0.9+1"
    /\ Js.includes name "-ea" = false.
Proof.
  intros H w.
  destruct (@cache_hit_is_a_listed_entry H JdkScenario.corretto w w
              (mkJdkSetupResult "11.0.9+1" (JdkScenario.cacheDir "11.0.9-1")))
    as (_ & name & Hin & Hv & _ & _ & Hea & _).
  { vm_compute. reflexivity. }
  exists name. split; [exact Hin|]. split; [symmetry; exact Hv|exact Hea].
Defined.

